(** * Shazam audio identification engine: a shallow embedding

    The development follows the Python sources of the repository:
    - [src/config.py]            -> [Module Config]
    - [hashlib.sha256]           -> [Module SHA256] (FIPS 180-4)
    - [scipy.signal.find_peaks]  -> [Module Scipy]
    - [src/fingerprinting.py]    -> [Module Fingerprinting]
    - [src/audio_processing.py]  -> [Module AudioProcessing]
    - [src/database.py]          -> [Module Database]
    - [src/matching.py]          -> [Module Matching]
    - [src/shazam_system.py]     -> [Module ShazamSystem]

    Conventions.  Python [int] is [Z].  A float that is only compared,
    added or divided is a rational ([Q]); the confidence score, which takes
    logarithms, lives in [R].  A Python exception is the name of its class;
    a call that can raise returns an [outcome].  Dictionaries whose
    iteration order is observed (the [matches] dict, [Counter]) are
    association lists in insertion order; the Redis key space, whose order
    is never observed, is a [gmap]. *)

From Stdlib Require Import ZArith List String Ascii QArith Qround Reals Lra Lia.
From Stdlib Require Import Permutation Sorted Bool DecimalString.
From stdpp Require Import gmap strings.
Import ListNotations.

Local Open Scope Z_scope.

(* ================================================================== *)
(** ** Results of calls that may raise *)

Inductive outcome (A : Type) : Type :=
| Returned (a : A)
| Raised (exc : string).
Arguments Returned {A} a.
Arguments Raised {A} exc.

Definition bind_outcome {A B} (o : outcome A) (k : A -> outcome B) : outcome B :=
  match o with
  | Returned a => k a
  | Raised e => Raised e
  end.

Notation "x <-! c ;; k" := (bind_outcome c (fun x => k))
  (at level 100, c at next level, right associativity).

(* ================================================================== *)
(** ** src/config.py *)

Module Config.
Definition SAMPLE_RATE : Z := 22050.
Definition FFT_WINDOW_SIZE : Z := 2048.
Definition HOP_LENGTH : Z := 512.
Definition PEAK_NEIGHBORHOOD_SIZE : Z := 5.
Definition MIN_PEAK_AMPLITUDE : Q := 1 # 1000.
Definition FREQ_BANDS : list (Z * Z) :=
  [(300, 500); (500, 1000); (1000, 1500); (1500, 2000)].
Definition HASH_TIME_DELTA_MIN : Z := 1.
Definition HASH_TIME_DELTA_MAX : Z := 200.
Definition HASH_FAN_VALUE : Z := 5.
Definition REDIS_HASH_EXPIRY : Z := 86400 * 30.
Definition MIN_MATCHING_HASHES : Z := 3.
Definition TIME_ALIGNMENT_TOLERANCE : Z := 5.
Definition CONFIDENCE_THRESHOLD : Q := 5 # 100.
Definition MAX_QUERY_DURATION : Z := 30.
Definition MAX_FINGERPRINTS_PER_TRACK : Z := 10000.
End Config.

(* ================================================================== *)
(** ** hashlib.sha256

    [_create_hash] digests its key with SHA-256.  The function is written
    out after FIPS 180-4 on 32-bit words held in [Z]; every addition wraps
    modulo [2^32]. *)

Module SHA256.

Definition wrap32 (x : Z) : Z := x mod 2 ^ 32.
Definition add32 (x y : Z) : Z := wrap32 (x + y).
Definition rotr (n x : Z) : Z :=
  Z.lor (Z.shiftr x n) (wrap32 (Z.shiftl x (32 - n))).
Definition not32 (x : Z) : Z := 2 ^ 32 - 1 - x.

Definition Ch (x y z : Z) : Z := Z.lxor (Z.land x y) (Z.land (not32 x) z).
Definition Maj (x y z : Z) : Z :=
  Z.lxor (Z.lxor (Z.land x y) (Z.land x z)) (Z.land y z).
Definition bsig0 (x : Z) : Z := Z.lxor (Z.lxor (rotr 2 x) (rotr 13 x)) (rotr 22 x).
Definition bsig1 (x : Z) : Z := Z.lxor (Z.lxor (rotr 6 x) (rotr 11 x)) (rotr 25 x).
Definition ssig0 (x : Z) : Z := Z.lxor (Z.lxor (rotr 7 x) (rotr 18 x)) (Z.shiftr x 3).
Definition ssig1 (x : Z) : Z := Z.lxor (Z.lxor (rotr 17 x) (rotr 19 x)) (Z.shiftr x 10).

(** The round constants are the first 32 bits of the fractional parts of
    the cube roots of the first 64 primes, the initial state those of the
    square roots of the first 8. *)
Definition first_primes : list Z :=
  [2; 3; 5; 7; 11; 13; 17; 19; 23; 29; 31; 37; 41; 43; 47; 53; 59; 61; 67;
   71; 73; 79; 83; 89; 97; 101; 103; 107; 109; 113; 127; 131; 137; 139;
   149; 151; 157; 163; 167; 173; 179; 181; 191; 193; 197; 199; 211; 223;
   227; 229; 233; 239; 241; 251; 257; 263; 269; 271; 277; 281; 283; 293;
   307; 311].

(** Integer cube root, one bit at a time from bit [bits - 1] down. *)
Fixpoint icbrt_from (bits : nat) (n r : Z) : Z :=
  match bits with
  | O => r
  | S b =>
      let r' := r + 2 ^ Z.of_nat b in
      icbrt_from b n (if r' * r' * r' <=? n then r' else r)
  end.
Definition icbrt (n : Z) : Z := icbrt_from 40 n 0.

Definition round_constants : list Z :=
  Eval vm_compute in map (fun p => wrap32 (icbrt (p * 2 ^ 96))) first_primes.
Definition initial_state : list Z :=
  Eval vm_compute in map (fun p => wrap32 (Z.sqrt (p * 2 ^ 64))) (firstn 8 first_primes).

(** Big-endian bytes of [x], [n] of them. *)
Fixpoint be_bytes (n : nat) (x : Z) : list Z :=
  match n with
  | O => []
  | S k => (Z.shiftr x (8 * Z.of_nat k)) mod 256 :: be_bytes k x
  end.

Definition pad (msg : list Z) : list Z :=
  let l := Z.of_nat (length msg) in
  let k := (55 - l) mod 64 in
  msg ++ 128 :: repeat 0 (Z.to_nat k) ++ be_bytes 8 (8 * l).

Fixpoint words_of_bytes (fuel : nat) (bs : list Z) : list Z :=
  match fuel, bs with
  | S f, b0 :: b1 :: b2 :: b3 :: rest =>
      (b0 * 2 ^ 24 + b1 * 2 ^ 16 + b2 * 2 ^ 8 + b3) :: words_of_bytes f rest
  | _, _ => []
  end.

(** The message schedule, most recent word first: [ws] holds
    [W(t-1), W(t-2), ...]. *)
Fixpoint schedule_rev (n : nat) (ws : list Z) : list Z :=
  match n with
  | O => ws
  | S k =>
      let w := add32 (add32 (add32 (ssig1 (nth 1 ws 0)) (nth 6 ws 0))
                            (ssig0 (nth 14 ws 0))) (nth 15 ws 0) in
      schedule_rev k (w :: ws)
  end.
Definition schedule (block : list Z) : list Z := rev (schedule_rev 48 (rev block)).

Record regs := Regs { ra : Z; rb : Z; rc : Z; rd : Z; re : Z; rf : Z; rg : Z; rh : Z }.

Definition round (s : regs) (kw : Z * Z) : regs :=
  let t1 := add32 (add32 (add32 (add32 (rh s) (bsig1 (re s))) (Ch (re s) (rf s) (rg s)))
                         (fst kw)) (snd kw) in
  let t2 := add32 (bsig0 (ra s)) (Maj (ra s) (rb s) (rc s)) in
  Regs (add32 t1 t2) (ra s) (rb s) (rc s) (add32 (rd s) t1) (re s) (rf s) (rg s).

Definition regs_of (h : list Z) : regs :=
  Regs (nth 0 h 0) (nth 1 h 0) (nth 2 h 0) (nth 3 h 0)
       (nth 4 h 0) (nth 5 h 0) (nth 6 h 0) (nth 7 h 0).
Definition list_of (s : regs) : list Z :=
  [ra s; rb s; rc s; rd s; re s; rf s; rg s; rh s].

Definition compress (h : list Z) (block : list Z) : list Z :=
  let s := fold_left round (combine round_constants (schedule block)) (regs_of h) in
  map (fun p => add32 (fst p) (snd p)) (combine h (list_of s)).

Fixpoint blocks (fuel : nat) (ws : list Z) : list (list Z) :=
  match fuel, ws with
  | S f, _ :: _ => firstn 16 ws :: blocks f (skipn 16 ws)
  | _, _ => []
  end.

Definition digest_words (msg : list Z) : list Z :=
  let bs := pad msg in
  let ws := words_of_bytes (length bs) bs in
  fold_left compress (blocks (length ws) ws) initial_state.

Definition hex_digit (d : Z) : ascii :=
  if d <? 10 then ascii_of_nat (Z.to_nat (48 + d)) else ascii_of_nat (Z.to_nat (87 + d)).

Fixpoint hex_of (digits : nat) (x : Z) : string :=
  match digits with
  | O => EmptyString
  | S k => String (hex_digit ((Z.shiftr x (4 * Z.of_nat k)) mod 16)) (hex_of k x)
  end.

(** [str.encode()]: the bytes of the string. *)
Definition encode (s : string) : list Z :=
  map (fun c => Z.of_nat (nat_of_ascii c)) (list_ascii_of_string s).

(** [hashlib.sha256(data).hexdigest()]. *)
Definition hexdigest (data : list Z) : string :=
  fold_right (fun w acc => hex_of 8 w +:+ acc) EmptyString (digest_words data).

End SHA256.

(* ================================================================== *)
(** ** Comparisons on rationals, as booleans *)

Definition Qlt_bool (a b : Q) : bool := negb (Qle_bool b a).

(* ================================================================== *)
(** ** Python's stable sort

    [list.sort] and [sorted] are stable and compare with [<] only: an
    element is placed after every element that is not greater than it.
    [key_lt x y] is [key(x) < key(y)]. *)

Section StableSort.
Context {A : Type} (key_lt : A -> A -> bool).

Fixpoint insert_sorted (x : A) (l : list A) : list A :=
  match l with
  | [] => [x]
  | y :: l' => if key_lt x y then x :: l else y :: insert_sorted x l'
  end.

Definition py_sorted (l : list A) : list A :=
  fold_left (fun acc x => insert_sorted x acc) l [].

(** [x] may stand before [y]: [key(y) < key(x)] does not hold. *)
Definition in_order (x y : A) : Prop := key_lt y x = false.
End StableSort.

(* ================================================================== *)
(** ** scipy.signal.find_peaks

    The peak picker calls [find_peaks(x, height=h, distance=d)].  The
    library routine is written out after its three stages:
    [_local_maxima_1d], the height condition and
    [_select_by_peak_distance]. *)

Module Scipy.

Definition item (x : list Q) (i : nat) : Q := nth i x 0%Q.

(** [while i_ahead < i_max and x[i_ahead] == x[i]: i_ahead += 1] *)
Fixpoint plateau_end (fuel : nat) (x : list Q) (i i_ahead i_max : nat) : nat :=
  match fuel with
  | O => i_ahead
  | S f =>
      if (i_ahead <? i_max)%nat && Qeq_bool (item x i_ahead) (item x i)
      then plateau_end f x i (S i_ahead) i_max
      else i_ahead
  end.

(** The body of [while i < i_max]; a flat peak reports its midpoint. *)
Fixpoint local_maxima_from (fuel : nat) (x : list Q) (i i_max : nat) : list nat :=
  match fuel with
  | O => []
  | S f =>
      if (i <? i_max)%nat then
        if Qlt_bool (item x (i - 1)) (item x i) then
          let i_ahead := plateau_end (length x) x i (S i) i_max in
          if Qlt_bool (item x i_ahead) (item x i)
          then ((i + (i_ahead - 1)) / 2)%nat :: local_maxima_from f x (S i_ahead) i_max
          else local_maxima_from f x (S i) i_max
        else local_maxima_from f x (S i) i_max
      else []
  end.

(** The first and the last sample can not be maxima: the scan starts at
    index 1 and stops before index [len(x) - 1]. *)
Definition _local_maxima_1d (x : list Q) : list nat :=
  local_maxima_from (length x) x 1 (length x - 1).

(** [keep = (hmin <= x[peaks])] *)
Definition select_by_height (x : list Q) (hmin : Q) (peaks : list nat) : list nat :=
  List.filter (fun p => Qle_bool hmin (item x p)) peaks.

(** [numpy.argsort(priority)]: the indices, by ascending priority.  Equal
    priorities are left in index order here; numpy does not promise an
    order for them.  The proofs below use only that the result is a sorted
    rearrangement of the indices; the example of two tied peaks at the end
    of the claims about the peak picker also takes the index order. *)
Definition argsort (priority : list Q) : list nat :=
  py_sorted (fun i j => Qlt_bool (item priority i) (item priority j))
            (seq 0 (length priority)).

Definition position (peaks : list nat) (k : nat) : Z := Z.of_nat (nth k peaks O).

(** One pass of the two inner loops for the kept peak [j]: every other
    peak closer than [distance] is flagged for removal.  [peaks] is
    increasing, so the peaks within [distance] of [j] are the contiguous
    runs the loops walk over. *)
Definition flag_neighbors (peaks : list nat) (distance : Z) (j : nat)
           (keep : list bool) : list bool :=
  imap (fun k b =>
          if (k =? j)%nat then b
          else if Z.abs (position peaks k - position peaks j) <? distance
               then false else b) keep.

(** Highest priority first. *)
Definition _select_by_peak_distance (peaks : list nat) (priority : list Q)
           (distance : Z) : list bool :=
  fold_left (fun keep j => if nth j keep false
                           then flag_neighbors peaks distance j keep
                           else keep)
            (rev (argsort priority))
            (repeat true (length peaks)).

(** The invariant of the selection loop.  Once the peak of highest priority
    [j0] has been handled, it stays, and whatever else stays is at least
    [distance] away from it. *)
Definition top_kept (peaks : list nat) (distance : Z) (j0 : nat)
           (keep : list bool) : Prop :=
  nth j0 keep false = true
  /\ forall k, nth k keep false = true ->
               k = j0 \/ distance <= Z.abs (position peaks k - position peaks j0).

(** [peaks[keep]] *)
Definition select_mask (peaks : list nat) (keep : list bool) : list nat :=
  map fst (List.filter snd (combine peaks keep)).

Definition find_peaks (x : list Q) (height : Q) (distance : Z) : list nat :=
  let peaks := select_by_height x height (_local_maxima_1d x) in
  let keep := _select_by_peak_distance peaks (map (item x) peaks) distance in
  select_mask peaks keep.

(** [numpy.argmax]: the first index of the greatest element. *)
Fixpoint argmax_from (best_i : nat) (best : Q) (i : nat) (l : list Q) : nat :=
  match l with
  | [] => best_i
  | a :: l' =>
      if Qlt_bool best a then argmax_from i a (S i) l'
      else argmax_from best_i best (S i) l'
  end.

Definition argmax (l : list Q) : nat :=
  match l with
  | [] => O
  | a :: l' => argmax_from O a 1%nat l'
  end.

End Scipy.

(* ================================================================== *)
(** ** src/fingerprinting.py *)

Module Fingerprinting.
Import Config.

Record SpectralPeak := mkPeak {
  frequency_bin : Z;
  time_frame : Z;
  amplitude : Q
}.

Record AudioHash := mkHash {
  hash_value : string;
  time_offset : Z;
  anchor_freq : Z;
  target_freq : Z;
  time_delta : Z
}.

(** A magnitude spectrogram of shape [(length rows, n_frames)]: one row
    per frequency bin. *)
Record Spectrogram := mkSpec {
  rows : list (list Q);
  n_frames : nat
}.

(** [spectrogram[low_bin:high_bin, :]] *)
Definition band_slice (s : Spectrogram) (low_bin high_bin : nat) : Spectrogram :=
  mkSpec (firstn (high_bin - low_bin) (skipn low_bin (rows s))) (n_frames s).

(** [band_spectrogram[:, time_idx]] *)
Definition time_slice_of (s : Spectrogram) (time_idx : nat) : list Q :=
  map (fun r => nth time_idx r 0%Q) (rows s).

Record AudioFingerprinter := mkFingerprinter {
  sample_rate : Z;
  n_fft : Z;
  hop_length : Z;
  band_indices : list (nat * nat)
}.

(** [numpy.fft.rfftfreq(n_fft, d=1/sample_rate)]: bin [k] is at
    [k * sample_rate / n_fft] Hz, for [k = 0 .. n_fft // 2].  These are
    the exact values; numpy computes them in doubles, which can miss them
    in the last bit, so a bin that is exactly a band edge may fall on
    either side of it.  With the defaults, 22050 Hz and 2048 points, no bin
    is a band edge.  The function is for [n_fft] and [sample_rate] that are
    not zero: the library divides by both. *)
Definition rfftfreq (n_fft sample_rate : Z) : list Q :=
  map (fun k => (Z.of_nat k * sample_rate) # (Z.to_pos n_fft))
      (seq 0 (Z.to_nat (n_fft / 2 + 1))).

(** [numpy.searchsorted(a, v)] (side left) on an ascending array: the
    number of entries below [v]. *)
Fixpoint searchsorted (a : list Q) (v : Q) : nat :=
  match a with
  | [] => O
  | x :: a' => if Qlt_bool x v then S (searchsorted a' v) else O
  end.

Definition _compute_band_indices (freq_bins : list Q) : list (nat * nat) :=
  map (fun band => (searchsorted freq_bins (inject_Z (fst band)),
                    searchsorted freq_bins (inject_Z (snd band))))
      FREQ_BANDS.

(** [AudioFingerprinter.__init__], for a sample rate and an FFT size that
    are not zero: [1/sample_rate] and [rfftfreq] raise [ZeroDivisionError]
    at zero.  It is applied to the defaults only. *)
Definition new_fingerprinter (sample_rate n_fft hop_length : Z) : AudioFingerprinter :=
  mkFingerprinter sample_rate n_fft hop_length
                  (_compute_band_indices (rfftfreq n_fft sample_rate)).

(** The iteration of [_find_peaks_in_band] for one time frame. *)
Definition strongest_peak_at (band_spectrogram : Spectrogram) (freq_offset : nat)
           (time_idx : nat) : list SpectralPeak :=
  let time_slice := time_slice_of band_spectrogram time_idx in
  let peak_indices :=
    Scipy.find_peaks time_slice MIN_PEAK_AMPLITUDE PEAK_NEIGHBORHOOD_SIZE in
  match peak_indices with
  | [] => []
  | _ :: _ =>
      let amplitudes := map (Scipy.item time_slice) peak_indices in
      let strongest_idx := Scipy.argmax amplitudes in
      [ mkPeak (Z.of_nat (nth strongest_idx peak_indices O + freq_offset))
               (Z.of_nat time_idx)
               (nth strongest_idx amplitudes 0%Q) ]
  end.

Definition _find_peaks_in_band (band_spectrogram : Spectrogram) (freq_offset : nat)
  : list SpectralPeak :=
  flat_map (strongest_peak_at band_spectrogram freq_offset)
           (seq 0 (n_frames band_spectrogram)).

(** The key of [peaks.sort]: [(p.time_frame, -p.amplitude)], compared as
    a tuple. *)
Definition peak_key_lt (p q : SpectralPeak) : bool :=
  (time_frame p <? time_frame q)
  || ((time_frame p =? time_frame q) && Qlt_bool (- amplitude p) (- amplitude q)).

(** The order [peaks.sort] establishes: by time frame, and within a frame
    the stronger peak first. *)
Definition peak_order (p q : SpectralPeak) : Prop :=
  time_frame p < time_frame q
  \/ (time_frame p = time_frame q /\ (amplitude q <= amplitude p)%Q).

(** A bin of the band [(low_bin, high_bin)] other than its first and its
    last one. *)
Definition strictly_inside (band : nat * nat) (bin : Z) : Prop :=
  Z.of_nat (fst band) < bin < Z.of_nat (snd band) - 1.

(** The peaks of all bands, before sorting. *)
Definition band_peaks (self : AudioFingerprinter) (spectrogram : Spectrogram)
  : list SpectralPeak :=
  flat_map (fun band =>
              _find_peaks_in_band (band_slice spectrogram (fst band) (snd band))
                                  (fst band))
           (band_indices self).

Definition extract_peaks (self : AudioFingerprinter) (spectrogram : Spectrogram)
  : list SpectralPeak :=
  py_sorted peak_key_lt (band_peaks self spectrogram).

(** [_find_target_peaks]: [continue] below the window, [break] above it
    and once [max_targets] are taken.  [taken] is [len(targets)]. *)
Fixpoint find_targets_from (anchor_peak : SpectralPeak)
         (candidate_peaks : list SpectralPeak) (max_targets taken : Z)
  : list SpectralPeak :=
  match candidate_peaks with
  | [] => []
  | peak :: rest =>
      let time_delta := time_frame peak - time_frame anchor_peak in
      if time_delta <? HASH_TIME_DELTA_MIN
      then find_targets_from anchor_peak rest max_targets taken
      else if time_delta >? HASH_TIME_DELTA_MAX then []
      else if taken + 1 >=? max_targets then [peak]
      else peak :: find_targets_from anchor_peak rest max_targets (taken + 1)
  end.

Definition _find_target_peaks (anchor_peak : SpectralPeak)
           (candidate_peaks : list SpectralPeak) (max_targets : Z)
  : list SpectralPeak :=
  find_targets_from anchor_peak candidate_peaks max_targets 0.

(** The test both [_find_target_peaks] and [_create_hash] make on a pair:
    the target lies [HASH_TIME_DELTA_MIN] to [HASH_TIME_DELTA_MAX] frames
    after the anchor. *)
Definition in_window (anchor_peak peak : SpectralPeak) : bool :=
  let time_delta := time_frame peak - time_frame anchor_peak in
  (HASH_TIME_DELTA_MIN <=? time_delta) && (time_delta <=? HASH_TIME_DELTA_MAX).

(** [f"{n}"] for an integer. *)
Definition str_of_int (n : Z) : string := NilZero.string_of_int (Z.to_int n).

Definition hash_string_of (anchor_bin target_bin time_delta : Z) : string :=
  str_of_int anchor_bin +:+ "|" +:+ str_of_int target_bin +:+ "|" +:+ str_of_int time_delta.

Definition _create_hash (anchor target : SpectralPeak) : option AudioHash :=
  let time_delta := time_frame target - time_frame anchor in
  if negb ((HASH_TIME_DELTA_MIN <=? time_delta) && (time_delta <=? HASH_TIME_DELTA_MAX))
  then None
  else
    let hash_string :=
      hash_string_of (frequency_bin anchor) (frequency_bin target) time_delta in
    let hash_value :=
      substring 0 16 (SHA256.hexdigest (SHA256.encode hash_string)) in
    Some (mkHash hash_value (time_frame anchor)
                 (frequency_bin anchor) (frequency_bin target) time_delta).

(** The inner loop of [generate_hashes] for one anchor. *)
Definition hashes_of_anchor (anchor_peak : SpectralPeak)
           (later_peaks : list SpectralPeak) : list AudioHash :=
  flat_map (fun target_peak =>
              match _create_hash anchor_peak target_peak with
              | Some hash_obj => [hash_obj]
              | None => []
              end)
           (_find_target_peaks anchor_peak later_peaks HASH_FAN_VALUE).

(** The outer loop: [peaks_by_time[anchor_idx + 1:]] is the tail. *)
Fixpoint hashes_from (peaks_by_time : list SpectralPeak) : list AudioHash :=
  match peaks_by_time with
  | [] => []
  | anchor_peak :: later => hashes_of_anchor anchor_peak later ++ hashes_from later
  end.

Definition generate_hashes (peaks : list SpectralPeak) : list AudioHash :=
  let peaks_by_time := py_sorted (fun p q => time_frame p <? time_frame q) peaks in
  hashes_from peaks_by_time.

Section WithSTFT.
(** [compute_spectrogram] is scipy's STFT followed by [numpy.abs]; it
    raises on input it can not transform. *)
Variable compute_spectrogram :
  AudioFingerprinter -> list Q -> outcome Spectrogram.

Definition fingerprint_audio (self : AudioFingerprinter) (audio : list Q)
  : outcome (list AudioHash) :=
  spectrogram <-! compute_spectrogram self audio ;;
  let peaks := extract_peaks self spectrogram in
  match peaks with
  | [] => Returned []
  | _ :: _ =>
      let hashes := generate_hashes peaks in
      match hashes with
      | [] => Returned []
      | _ :: _ => Returned hashes
      end
  end.
End WithSTFT.

(** Two runs agree: both raise the same exception, or both return the same
    multiset of hashes. *)
Definition same_fingerprint (r1 r2 : outcome (list AudioHash)) : Prop :=
  match r1, r2 with
  | Returned h1, Returned h2 => Permutation h1 h2
  | Raised e1, Raised e2 => e1 = e2
  | _, _ => False
  end.

(** A decidable check that time frames never decrease along a list. *)
Fixpoint ascending_by_time (l : list SpectralPeak) : bool :=
  match l with
  | p :: ((q :: _) as rest) => (time_frame p <=? time_frame q) && ascending_by_time rest
  | _ => true
  end.

End Fingerprinting.

(* ================================================================== *)
(** ** src/audio_processing.py *)

Module AudioProcessing.
Import Config.

(** A one-dimensional array of samples, or a two-dimensional one (one
    row per channel). *)
Inductive ndarray :=
| Samples (x : list Q)
| Channels (chans : list (list Q)).

Definition qsum (l : list Q) : Q := fold_right Qplus 0%Q l.

(** [numpy.mean(audio, axis=0)] on a two-dimensional array with at least
    one row.  (An array of shape [(0, n)] has no counterpart in [Channels]:
    numpy averages it to [n] NaN.) *)
Definition mean_axis0 (chans : list (list Q)) : list Q :=
  match chans with
  | [] => []
  | first :: _ =>
      map (fun j => (qsum (map (fun c => nth j c 0%Q) chans)
                     / inject_Z (Z.of_nat (length chans)))%Q)
          (seq 0 (length first))
  end.

(** [audio[:max_samples]] *)
Definition slice_to (audio : list Q) (max_samples : Z) : list Q :=
  if 0 <=? max_samples then firstn (Z.to_nat max_samples) audio
  else firstn (Z.to_nat (Z.of_nat (length audio) + max_samples)) audio.

Record AudioProcessor := mkProcessor {
  sample_rate : Z;
  mono : bool
}.

(** [AudioProcessor.__init__] *)
Definition new_processor (sample_rate : Z) : AudioProcessor :=
  mkProcessor sample_rate true.

Section WithResamplers.
(** [scipy.signal] may be missing; its resamplers may raise. *)
Variable HAVE_SCIPY : bool.
Variable resample_poly : list Q -> Z -> Z -> outcome (list Q).
Variable resample : list Q -> Z -> outcome (list Q).

Definition preprocess_audio (self : AudioProcessor) (audio : ndarray) (sr : Z)
  : outcome (list Q) :=
  (* Ensure mono *)
  let audio :=
    match audio with
    | Samples x => x
    | Channels chans => mean_axis0 chans
    end in
  (* Resample if needed; every exception is caught *)
  let audio :=
    if negb (sr =? sample_rate self) && HAVE_SCIPY then
      let gcd := Z.gcd sr (sample_rate self) in
      match resample_poly audio (sample_rate self / gcd) (sr / gcd) with
      | Returned y => y
      | Raised _ =>
          if sr =? 0 then audio
          else
            match resample audio
                    (Z.quot (Z.of_nat (length audio) * sample_rate self) sr) with
            | Returned y => y
            | Raised _ => audio
            end
      end
    else audio in
  (* Limit duration for queries *)
  let max_samples := MAX_QUERY_DURATION * sample_rate self in
  let audio :=
    if Z.of_nat (length audio) >? max_samples
    then slice_to audio max_samples
    else audio in
  Returned audio.

(** Reading and decoding the file is the collaborator's work. *)
Variable load_audio : AudioProcessor -> string -> outcome (ndarray * Z).

Definition preprocess_for_fingerprinting (audio_path : string)
  : outcome (list Q * Z) :=
  let processor := new_processor SAMPLE_RATE in
  loaded <-! load_audio processor audio_path ;;
  audio <-! preprocess_audio processor (fst loaded) (snd loaded) ;;
  Returned (audio, sample_rate processor).
End WithResamplers.

End AudioProcessing.

(* ================================================================== *)
(** ** src/database.py *)

Module Database.
Import Config.
Import Fingerprinting.

(** A row of the table [songs].  [date_added] is the wall clock at the
    insert and is read by no operation below; it is left out. *)
Record SongRow := mkSong {
  id : Z;
  title : string;
  artist : string;
  album : option string;
  file_path : string;
  duration : option Q;
  file_size : option Z;
  fingerprint_count : Z
}.

(** The pickled dictionary pushed under a hash key. *)
Record StoredOccurrence := mkStored {
  song_id : Z;
  stored_time_offset : Z;
  stored_anchor_freq : Z;
  stored_target_freq : Z;
  stored_time_delta : Z
}.

(** The same dictionary after [search_fingerprints] has added
    ['query_time']. *)
Record Occurrence := mkOccurrence {
  stored : StoredOccurrence;
  query_time : Z
}.

(** The two stores.  [songs] is the table in rowid order,
    [sqlite_sequence] the largest rowid AUTOINCREMENT has handed out,
    [fingerprint_stats] the [song_id] column of that table,
    [redis_client] is [None] when the connection failed at start-up. *)
Record FingerprintDatabase := mkDb {
  songs : list SongRow;
  sqlite_sequence : Z;
  fingerprint_stats : list Z;
  redis_client : option (gmap string (list StoredOccurrence))
}.

(** What the backing stores do during one call: [sqlite_ok] is false
    when the statement or its commit raises, [redis_ok] is false when
    [pipeline.execute()] raises. *)
Record Backends := mkBackends {
  sqlite_ok : bool;
  redis_ok : bool
}.

Definition healthy : Backends := mkBackends true true.

(** [FingerprintDatabase.__init__] on fresh stores. *)
Definition new_database (redis_reachable : bool) : FingerprintDatabase :=
  mkDb [] 0 [] (if redis_reachable then Some ∅ else None).

(** AUTOINCREMENT: one more than the largest rowid that ever existed. *)
Definition next_rowid (db : FingerprintDatabase) : Z :=
  fold_right Z.max (sqlite_sequence db) (map id (songs db)) + 1.

(** [INSERT OR REPLACE INTO songs (...)]: the rows that conflict on the
    UNIQUE column [file_path] are deleted, then the row is inserted. *)
Definition insert_or_replace (db : FingerprintDatabase) (row : Z -> SongRow)
  : FingerprintDatabase * Z :=
  let rowid := next_rowid db in
  let new_row := row rowid in
  let kept :=
    List.filter (fun r => negb (bool_decide (file_path r = file_path new_row)))
                (songs db) in
  (mkDb (kept ++ [new_row]) rowid (fingerprint_stats db) (redis_client db), rowid).

Definition hash_key (hash_value : string) : string := "hash:" +:+ hash_value.

(** [pipeline.lpush(hash_key, ...)] *)
Definition lpush (store : gmap string (list StoredOccurrence))
           (key : string) (v : StoredOccurrence)
  : gmap string (list StoredOccurrence) :=
  <[ key := v :: default [] (store !! key) ]> store.

(** The commands queued on the pipeline, applied in order.  The expiry
    set on each key is thirty days of wall clock and is not modelled. *)
Definition queued_pushes (song_id : Z) (fingerprints : list AudioHash)
           (store : gmap string (list StoredOccurrence))
  : gmap string (list StoredOccurrence) :=
  fold_left (fun st fingerprint =>
               lpush st (hash_key (hash_value fingerprint))
                     (mkStored song_id (time_offset fingerprint)
                               (anchor_freq fingerprint) (target_freq fingerprint)
                               (time_delta fingerprint)))
            fingerprints store.

Definition _store_fingerprints_redis (db : FingerprintDatabase) (io : Backends)
           (song_id : Z) (fingerprints : list AudioHash)
  : FingerprintDatabase * outcome unit :=
  match redis_client db with
  | None => (db, Returned tt)
  | Some store =>
      if redis_ok io
      then (mkDb (songs db) (sqlite_sequence db) (fingerprint_stats db)
                 (Some (queued_pushes song_id fingerprints store)),
            Returned tt)
      else (db, Raised "ConnectionError")
  end.

Definition add_song (db : FingerprintDatabase) (io : Backends)
           (title artist file_path : string) (fingerprints : list AudioHash)
           (album : option string) (duration : option Q) (file_size : option Z)
  : FingerprintDatabase * outcome Z :=
  (* Add song metadata to SQLite *)
  if negb (sqlite_ok io) then (db, Raised "OperationalError")
  else
    let '(db, song_id) :=
      insert_or_replace db
        (fun rowid => mkSong rowid title artist album file_path duration file_size
                             (Z.of_nat (length fingerprints))) in
    (* Add fingerprints to Redis *)
    match redis_client db, fingerprints with
    | Some _, _ :: _ =>
        match _store_fingerprints_redis db io song_id fingerprints with
        | (db, Returned _) => (db, Returned song_id)
        | (db, Raised e) => (db, Raised e)
        end
    | _, _ => (db, Returned song_id)
    end.

Definition get_song_metadata (db : FingerprintDatabase) (song_id : Z)
  : option SongRow :=
  find (fun r => id r =? song_id) (songs db).

Definition get_song_by_path (db : FingerprintDatabase) (path : string)
  : option SongRow :=
  find (fun r => bool_decide (file_path r = path)) (songs db).

(** [matches[song_id].append(occurrence)], creating the entry at the end
    of the dictionary when the key is new. *)
Fixpoint append_match (matches : list (Z * list Occurrence))
         (song_id : Z) (occurrence : Occurrence) : list (Z * list Occurrence) :=
  match matches with
  | [] => [(song_id, [occurrence])]
  | (k, occs) :: rest =>
      if k =? song_id then (k, occs ++ [occurrence]) :: rest
      else (k, occs) :: append_match rest song_id occurrence
  end.

(** [redis_client.lrange(hash_key, 0, -1)] *)
Definition lrange_all (store : gmap string (list StoredOccurrence)) (key : string)
  : list StoredOccurrence :=
  default [] (store !! key).

(** The lookups are taken to succeed: a lookup that raises is logged and
    skipped by the code, which leaves fewer matches. *)
Definition search_fingerprints (db : FingerprintDatabase)
           (query_hashes : list AudioHash) : list (Z * list Occurrence) :=
  match redis_client db with
  | None => []
  | Some store =>
      fold_left
        (fun matches query_hash =>
           fold_left
             (fun matches occurrence_data =>
                append_match matches (song_id occurrence_data)
                             (mkOccurrence occurrence_data (time_offset query_hash)))
             (lrange_all store (hash_key (hash_value query_hash)))
             matches)
        query_hashes []
  end.

Definition remove_song (db : FingerprintDatabase) (io : Backends) (song_id : Z)
  : FingerprintDatabase * bool :=
  if negb (sqlite_ok io) then (db, false)
  else
    match get_song_metadata db song_id with
    | None => (db, false)
    | Some _ =>
        (mkDb (List.filter (fun r => negb (id r =? song_id)) (songs db))
              (sqlite_sequence db)
              (List.filter (fun s => negb (s =? song_id)) (fingerprint_stats db))
              (redis_client db),
         true)
    end.

(** The row [add_song] writes. *)
Definition new_row (db : FingerprintDatabase) (title artist file_path : string)
           (fingerprints : list AudioHash) (album : option string)
           (duration : option Q) (file_size : option Z) : SongRow :=
  mkSong (next_rowid db) title artist album file_path duration file_size
         (Z.of_nat (length fingerprints)).

(** The index after the postings of a song have been committed. *)
Definition with_postings (db : FingerprintDatabase) (sid : Z)
           (fingerprints : list AudioHash)
  : option (gmap string (list StoredOccurrence)) :=
  match redis_client db, fingerprints with
  | Some store, _ :: _ => Some (queued_pushes sid fingerprints store)
  | other, _ => other
  end.

(** The calls that change the stores, and a history of them. *)
Inductive Op :=
| AddSong (io : Backends) (title artist file_path : string)
          (fingerprints : list AudioHash) (album : option string)
          (duration : option Q) (file_size : option Z)
| RemoveSong (io : Backends) (song_id : Z).

Definition apply_op (db : FingerprintDatabase) (op : Op) : FingerprintDatabase :=
  match op with
  | AddSong io title artist file_path fingerprints album duration file_size =>
      fst (add_song db io title artist file_path fingerprints album duration file_size)
  | RemoveSong io song_id => fst (remove_song db io song_id)
  end.

Definition run (ops : list Op) (db : FingerprintDatabase) : FingerprintDatabase :=
  fold_left apply_op ops db.

(** What SQLite maintains for the table [songs]: [file_path] is UNIQUE, [id]
    is the primary key, and no rowid exceeds the AUTOINCREMENT counter. *)
Definition consistent (db : FingerprintDatabase) : Prop :=
  List.NoDup (map file_path (songs db))
  /\ List.NoDup (map id (songs db))
  /\ Forall (fun r => id r <= sqlite_sequence db) (songs db).

(** The id [sid] has been handed out and its row is gone. *)
Definition tombstoned (db : FingerprintDatabase) (sid : Z) : Prop :=
  sid <= sqlite_sequence db /\ get_song_metadata db sid = None.

(** Some posting in the index carries the song id [sid]. *)
Definition has_posting (db : FingerprintDatabase) (sid : Z) : Prop :=
  exists store key occurrence,
    redis_client db = Some store
    /\ In occurrence (lrange_all store key)
    /\ song_id occurrence = sid.

(** No posting refers to an id that was never handed out. *)
Definition postings_bounded (db : FingerprintDatabase) : Prop :=
  forall sid, has_posting db sid -> sid <= sqlite_sequence db.

(** The dictionary [_store_fingerprints_redis] pickles for one hash. *)
Definition posting_of (song_id : Z) (fingerprint : AudioHash) : StoredOccurrence :=
  mkStored song_id (time_offset fingerprint) (anchor_freq fingerprint)
           (target_freq fingerprint) (time_delta fingerprint).

(** The list under a key, empty when there is no Redis client. *)
Definition postings (db : FingerprintDatabase) (key : string) : list StoredOccurrence :=
  match redis_client db with
  | Some store => lrange_all store key
  | None => []
  end.

(** [matches.get(song_id, [])] *)
Definition occurrences_of (matches : list (Z * list Occurrence)) (song_id : Z)
  : list Occurrence :=
  match find (fun entry => fst entry =? song_id) matches with
  | Some entry => snd entry
  | None => []
  end.

(** A dictionary as [search_fingerprints] builds it: every key once, and
    no empty list. *)
Definition well_keyed (matches : list (Z * list Occurrence)) : Prop :=
  List.NoDup (map fst matches)
  /\ Forall (fun entry => (0 < length (snd entry))%nat) matches.

(** What a query hash contributes to the bucket of a song: the postings of
    that song under its key, in list order, each with the query time. *)
Definition hits (db : FingerprintDatabase) (song_id : Z) (query_hash : AudioHash)
  : list Occurrence :=
  map (fun occurrence_data => mkOccurrence occurrence_data (time_offset query_hash))
      (List.filter (fun occurrence_data => Database.song_id occurrence_data =? song_id)
                   (postings db (hash_key (hash_value query_hash)))).

(** The dictionary [get_database_stats] returns.  [redis_keys] is absent
    when there is no Redis client; ['redis_memory_used'] is a string of the
    server's own and is left out. *)
Record DatabaseStats := mkStats {
  total_songs : Z;
  total_fingerprints : Z;
  total_duration_hours : Q;
  redis_keys : option Z
}.

(** [SELECT SUM(column)]: NULL over no value. *)
Definition sql_sum (l : list Z) : option Z :=
  match l with
  | [] => None
  | _ :: _ => Some (fold_right Z.add 0 l)
  end.

(** [SELECT SUM(duration)]: NULL durations are skipped. *)
Definition sql_sum_duration (rows : list SongRow) : option Q :=
  match flat_map (fun r => match duration r with Some d => [d] | None => [] end) rows with
  | [] => None
  | (_ :: _) as ds => Some (fold_right Qplus 0%Q ds)
  end.

(** The SQLite statements raise when the store is down; a failure of Redis
    is caught and reported as no key. *)
Definition get_database_stats (db : FingerprintDatabase) (io : Backends)
  : outcome DatabaseStats :=
  if negb (sqlite_ok io) then Raised "OperationalError"
  else
    let total_songs := Z.of_nat (length (songs db)) in
    let total_fingerprints :=
      match sql_sum (map fingerprint_count (songs db)) with
      | Some result => if result =? 0 then 0 else result
      | None => 0
      end in
    let total_duration_hours :=
      match sql_sum_duration (songs db) with
      | Some result => if Qeq_bool result 0 then 0%Q else (result / 3600)%Q
      | None => 0%Q
      end in
    let redis_keys :=
      match redis_client db with
      | Some store => Some (if redis_ok io then Z.of_nat (size store) else 0)
      | None => None
      end in
    Returned (mkStats total_songs total_fingerprints total_duration_hours redis_keys).

End Database.

(* ================================================================== *)
(** ** src/matching.py *)

Module Matching.
Import Config.
Import Fingerprinting.
Import Database.

Record MatchResult := mkMatch {
  match_song_id : Z;
  match_title : string;
  match_artist : string;
  match_album : option string;
  confidence : R;
  matching_hashes : Z;
  total_query_hashes : Z;
  match_time_offset : Z;
  alignment_strength : Q
}.

Definition Rle_bool (a b : R) : bool := if Rle_dec a b then true else false.
Definition Rlt_bool (a b : R) : bool := if Rlt_dec a b then true else false.

(** Python 3 [round(x)]: to the nearest integer, halves to the even
    one. *)
Definition py_round (x : Q) : Z :=
  let f := Qfloor x in
  let r := (x - inject_Z f)%Q in
  if Qlt_bool r (1 # 2) then f
  else if Qlt_bool (1 # 2) r then f + 1
  else if Z.even f then f else f + 1.

(** [Counter(iterable)]: counts, in the order the keys are first seen. *)
Fixpoint count_up (counts : list (Z * Z)) (x : Z) : list (Z * Z) :=
  match counts with
  | [] => [(x, 1)]
  | (k, c) :: rest =>
      if k =? x then (k, c + 1) :: rest else (k, c) :: count_up rest x
  end.
Definition Counter (l : list Z) : list (Z * Z) := fold_left count_up l [].

(** [counter.most_common(1)[0]]: the first entry with the greatest
    count. *)
Fixpoint first_max (best : Z * Z) (l : list (Z * Z)) : Z * Z :=
  match l with
  | [] => best
  | e :: rest => if snd best <? snd e then first_max e rest else first_max best rest
  end.
Definition most_common_1 (counts : list (Z * Z)) : option (Z * Z) :=
  match counts with
  | [] => None
  | e :: rest => Some (first_max e rest)
  end.

(** [len(set(time_offsets))] *)
Fixpoint distinct (l : list Z) : list Z :=
  match l with
  | [] => []
  | x :: rest => if existsb (Z.eqb x) rest then distinct rest else x :: distinct rest
  end.

Definition ratio (a b : nat) : Q := (inject_Z (Z.of_nat a) / inject_Z (Z.of_nat b))%Q.

(** [round(offset / TIME_ALIGNMENT_TOLERANCE) * TIME_ALIGNMENT_TOLERANCE].
    The quotient is taken exactly here; the code takes it in doubles.  For
    [|offset| < 2^48] the double is within [2^-8] of the exact quotient,
    whose fractional part is a multiple of [1/5], so both round to the same
    integer. *)
Definition quantize (offset : Z) : Z :=
  py_round (inject_Z offset / inject_Z TIME_ALIGNMENT_TOLERANCE)%Q
  * TIME_ALIGNMENT_TOLERANCE.

Definition _find_best_alignment (time_offsets : list Z) : option (Z * Z) :=
  match time_offsets with
  | [] => None
  | _ :: _ =>
      let quantized_offsets := map quantize time_offsets in
      let offset_counts := Counter quantized_offsets in
      match most_common_1 offset_counts with
      | None => None
      | Some (best_offset, best_count) =>
          let alignment_ratio :=
            (inject_Z best_count / inject_Z (Z.of_nat (length time_offsets)))%Q in
          let unique_ratio :=
            ratio (length (distinct time_offsets)) (length time_offsets) in
          let min_alignment :=
            if Qlt_bool unique_ratio (3 # 10) then (5 # 100)%Q else (3 # 10)%Q in
          if Qlt_bool alignment_ratio min_alignment then None
          else Some (best_offset, best_count)
      end
  end.

Definition _calculate_confidence (aligned_count total_matches total_query_hashes : Z)
  : R :=
  if (total_matches =? 0) || (total_query_hashes =? 0) then 0%R
  else
    let alignment_strength := (IZR aligned_count / IZR total_matches)%R in
    let coverage := Rmin 1 (IZR total_matches / IZR total_query_hashes) in
    let raw_strength := Rmin 1 (ln (IZR (aligned_count + 1)) / ln 20) in
    let unique_bonus :=
      if total_matches >? total_query_hashes
      then Rmax (1 / 2) (IZR total_query_hashes / IZR total_matches)
      else 1%R in
    let confidence :=
      (4 / 10 * alignment_strength + 3 / 10 * raw_strength
       + 2 / 10 * coverage + 1 / 10 * unique_bonus)%R in
    Rmin 1 confidence.

(** The count a [Counter] holds for a key, zero when the key is absent. *)
Definition count_for (counts : list (Z * Z)) (k : Z) : Z :=
  match find (fun e => fst e =? k) counts with
  | Some e => snd e
  | None => 0
  end.

(** [(best, a)] is a mode of [l]: [best] occurs [a] times and nothing
    occurs more often. *)
Definition is_mode (l : list Z) (best a : Z) : Prop :=
  a = Z.of_nat (count_occ Z.eq_dec l best)
  /\ forall v, Z.of_nat (count_occ Z.eq_dec l v) <= a.


(** The confidence as the specification words it: the uniqueness bonus is
    [min(1, q / m)] when [m > q], and the result is clamped to [[0, 1]]. *)
Definition clamp01 (x : R) : R := Rmax 0 (Rmin 1 x).

Definition spec_confidence (a m q : Z) : R :=
  let alignment_strength := (IZR a / IZR m)%R in
  let coverage := Rmin 1 (IZR m / IZR q) in
  let raw_strength := Rmin 1 (ln (IZR (a + 1)) / ln 20) in
  let unique_bonus := if m >? q then Rmin 1 (IZR q / IZR m) else 1%R in
  clamp01 (4 / 10 * alignment_strength + 3 / 10 * raw_strength
           + 2 / 10 * coverage + 1 / 10 * unique_bonus)%R.

(** The same with the bonus the code grants: [max(1/2, q / m)] when
    [m > q]. *)
Definition floored_confidence (a m q : Z) : R :=
  let alignment_strength := (IZR a / IZR m)%R in
  let coverage := Rmin 1 (IZR m / IZR q) in
  let raw_strength := Rmin 1 (ln (IZR (a + 1)) / ln 20) in
  let unique_bonus := if m >? q then Rmax (1 / 2) (IZR q / IZR m) else 1%R in
  clamp01 (4 / 10 * alignment_strength + 3 / 10 * raw_strength
           + 2 / 10 * coverage + 1 / 10 * unique_bonus)%R.

Definition _analyze_song_match (db : FingerprintDatabase) (song_id : Z)
           (occurrences : list Occurrence) (total_query_hashes : Z)
  : option MatchResult :=
  if Z.of_nat (length occurrences) <? MIN_MATCHING_HASHES then None
  else
    let time_offsets :=
      map (fun occurrence =>
             stored_time_offset (stored occurrence) - query_time occurrence)
          occurrences in
    match _find_best_alignment time_offsets with
    | None => None
    | Some (best_offset, aligned_count) =>
        let confidence :=
          _calculate_confidence aligned_count (Z.of_nat (length occurrences))
                                total_query_hashes in
        match get_song_metadata db song_id with
        | None => None
        | Some song_metadata =>
            let alignment_strength :=
              (inject_Z aligned_count / inject_Z (Z.of_nat (length occurrences)))%Q in
            Some (mkMatch song_id (title song_metadata) (artist song_metadata)
                          (album song_metadata) confidence aligned_count
                          total_query_hashes best_offset alignment_strength)
        end
    end.

(** The loop of [find_matches] over [raw_matches.items()]. *)
Definition analyze_candidates (db : FingerprintDatabase)
           (raw_matches : list (Z * list Occurrence))
           (total_query_hashes min_matches : Z) : list MatchResult :=
  flat_map
    (fun entry =>
       let '(song_id, occurrences) := entry in
       if Z.of_nat (length occurrences) <? min_matches then []
       else
         match _analyze_song_match db song_id occurrences total_query_hashes with
         | Some match_result =>
             if Rle_bool (Q2R CONFIDENCE_THRESHOLD) (confidence match_result)
             then [match_result] else []
         | None => []
         end)
    raw_matches.

Definition find_matches (db : FingerprintDatabase) (query_hashes : list AudioHash)
           (min_matches : Z) : list MatchResult :=
  match query_hashes with
  | [] => []
  | _ :: _ =>
      let raw_matches := search_fingerprints db query_hashes in
      match raw_matches with
      | [] => []
      | _ :: _ =>
          let match_results :=
            analyze_candidates db raw_matches
                               (Z.of_nat (length query_hashes)) min_matches in
          (* sort(key=confidence, reverse=True) *)
          py_sorted (fun x y => Rlt_bool (confidence y) (confidence x)) match_results
      end
  end.

Definition identify_best_match (db : FingerprintDatabase)
           (query_hashes : list AudioHash) : option MatchResult :=
  match find_matches db query_hashes MIN_MATCHING_HASHES with
  | best_match :: _ => Some best_match
  | [] => None
  end.

End Matching.

(* ================================================================== *)
(** ** src/shazam_system.py *)

Module ShazamSystem.
Import Config.
Import Fingerprinting.
Import Database.
Import Matching.

(** The collaborators of the orchestrator: the decoder, scipy's
    resamplers and STFT, and the file system. *)
Record Environment := mkEnv {
  HAVE_SCIPY : bool;
  load_audio : AudioProcessing.AudioProcessor -> string
               -> outcome (AudioProcessing.ndarray * Z);
  resample_poly : list Q -> Z -> Z -> outcome (list Q);
  resample : list Q -> Z -> outcome (list Q);
  compute_spectrogram : AudioFingerprinter -> list Q -> outcome Spectrogram;
  path_resolve : string -> string;
  getsize : string -> option Z
}.

Record System := mkSystem {
  fingerprinter : AudioFingerprinter;
  database : FingerprintDatabase
}.

(** [ShazamSystem.__init__] on fresh stores. *)
Definition new_system (redis_reachable : bool) : System :=
  mkSystem (new_fingerprinter 22050 FFT_WINDOW_SIZE HOP_LENGTH)
           (new_database redis_reachable).

Section WithEnvironment.
Variable env : Environment.

Definition preprocess (audio_file : string) : outcome (list Q * Z) :=
  AudioProcessing.preprocess_for_fingerprinting
    (HAVE_SCIPY env) (resample_poly env) (resample env) (load_audio env) audio_file.

(** The body of the [try] block of [add_song_to_database]; the state of
    the stores is returned whether or not the body raises. *)
Definition add_song_body (self : System) (io : Backends)
           (audio_file title artist : string) (album : option string)
  : System * outcome (option Z) :=
  match preprocess audio_file with
  | Raised e => (self, Raised e)
  | Returned (audio, sr) =>
      match fingerprint_audio (compute_spectrogram env) (fingerprinter self) audio with
      | Raised e => (self, Raised e)
      | Returned [] => (self, Returned None)
      | Returned ((_ :: _) as fingerprints) =>
          let file_path := path_resolve env audio_file in
          let duration :=
            (inject_Z (Z.of_nat (length audio)) / inject_Z sr)%Q in
          let file_size := getsize env audio_file in
          match add_song (database self) io title artist file_path fingerprints
                         album (Some duration) file_size with
          | (db, Returned song_id) =>
              (mkSystem (fingerprinter self) db, Returned (Some song_id))
          | (db, Raised e) => (mkSystem (fingerprinter self) db, Raised e)
          end
      end
  end.

(** [except Exception: return None] *)
Definition add_song_to_database (self : System) (io : Backends)
           (audio_file title artist : string) (album : option string)
  : System * option Z :=
  match add_song_body self io audio_file title artist album with
  | (self, Returned r) => (self, r)
  | (self, Raised _) => (self, None)
  end.

Definition identify_audio_file (self : System) (audio_file : string)
  : option MatchResult :=
  match preprocess audio_file with
  | Raised _ => None
  | Returned (audio, _) =>
      match fingerprint_audio (compute_spectrogram env) (fingerprinter self) audio with
      | Raised _ => None
      | Returned [] => None
      | Returned ((_ :: _) as query_hashes) =>
          identify_best_match (database self) query_hashes
      end
  end.
End WithEnvironment.

(** [s.split(sep, 1)] when [sep in s], for a separator that is not
    empty: the text before and after the leftmost occurrence of [sep]. *)
Fixpoint split_once (sep s : string) : option (string * string) :=
  match s with
  | EmptyString => None
  | String c s' =>
      if String.prefix sep s
      then Some (EmptyString, substring (String.length sep) (String.length s) s)
      else match split_once sep s' with
           | Some (before, rest) => Some (String c before, rest)
           | None => None
           end
  end.

Record BuildStats := mkBuildStats {
  processed : Z;
  failed : Z;
  skipped : Z
}.

Section WithFileNames.
Variable env : Environment.
(** [Path.stem] and [str.strip] are the library's. *)
Variable stem : string -> string.
Variable strip : string -> string.

(** The title and the artist read off the file name. *)
Definition metadata_from_filename (audio_file : string) : string * string :=
  let title := stem audio_file in
  match split_once " - " title with
  | Some (first, second) => (strip second, strip first)
  | None => (title, "Unknown Artist"%string)
  end.

(** One iteration of the loop of [build_database_from_folder].  A lookup
    that raises is counted as a failure by the handler of the loop. *)
Definition build_step (state : System * BuildStats) (file : string * Backends)
  : System * BuildStats :=
  let '(self, stats) := state in
  let '(audio_file, io) := file in
  let '(title, artist) := metadata_from_filename audio_file in
  if negb (sqlite_ok io)
  then (self, mkBuildStats (processed stats) (failed stats + 1) (skipped stats))
  else
    match get_song_by_path (database self) audio_file with
    | Some _ =>
        (self, mkBuildStats (processed stats) (failed stats) (skipped stats + 1))
    | None =>
        match add_song_to_database env self io audio_file title artist None with
        | (self, Some song_id) =>
            if song_id =? 0
            then (self, mkBuildStats (processed stats) (failed stats + 1) (skipped stats))
            else (self, mkBuildStats (processed stats + 1) (failed stats) (skipped stats))
        | (self, None) =>
            (self, mkBuildStats (processed stats) (failed stats + 1) (skipped stats))
        end
    end.

(** [audio_files] is what the glob of the folder found, each with what the
    stores do while it is processed. *)
Definition build_database_from_folder (self : System)
           (audio_files : list (string * Backends)) : System * BuildStats :=
  match audio_files with
  | [] => (self, mkBuildStats 0 0 0)
  | _ :: _ => fold_left build_step audio_files (self, mkBuildStats 0 0 0)
  end.
End WithFileNames.

End ShazamSystem.

(* ================================================================== *)
(** ** Concrete inputs *)

Module Examples.
Import Config Fingerprinting.

(** A spectrogram of 48 frequency bins and 2 time frames: a steady partial
    in bin 30, inside the first band (bins 28 to 46). *)
Definition tone_spectrogram : Spectrogram :=
  mkSpec (repeat [0; 0]%Q 30 ++ [[1; 1]%Q] ++ repeat [0; 0]%Q 17) 2.

(** Two peak pairs from different places of different recordings, with
    the same bins and the same time delta. *)
Definition anchor_1 : SpectralPeak := mkPeak 28 0 1.
Definition target_1 : SpectralPeak := mkPeak 47 1 1.
Definition anchor_2 : SpectralPeak := mkPeak 28 10 (1 # 2).
Definition target_2 : SpectralPeak := mkPeak 47 11 3.

(** The constellation of 502 time frames (under 12 seconds of audio) that
    have a peak in each of the four bands, as [extract_peaks] orders
    it. *)
Definition dense_peaks : list SpectralPeak :=
  flat_map (fun t => [mkPeak 30 t 4; mkPeak 50 t 3; mkPeak 100 t 2; mkPeak 150 t 1])
           (map Z.of_nat (seq 0 502)).

(** A recording with a single hash, and the stores after its ingest. *)
Definition sample_hash : AudioHash := mkHash "d2eefa2ab3e7214f" 0 28 47 1.

Definition a440_path : string := "/music/a440.wav".

Definition one_song : Database.FingerprintDatabase :=
  fst (Database.add_song (Database.new_database true) Database.healthy
                         "A440" "Test" a440_path [sample_hash] None None None).

(** The first-band column of [tone_spectrogram] at time frame 0. *)
Definition tone_slice : list Q :=
  time_slice_of (band_slice tone_spectrogram 28 47) 0.

(** A column with two equal partials two bins apart, in bins 30 and 32 of
    the first band, and that column inside the band. *)
Definition tied_spectrogram : Spectrogram :=
  mkSpec (repeat [0]%Q 30 ++ [[1]%Q; [0]%Q; [1]%Q] ++ repeat [0]%Q 15) 1.
Definition tied_slice : list Q :=
  time_slice_of (band_slice tied_spectrogram 28 47) 0.

(** Collaborators that decode every file to the same second of audio at the
    engine rate, whose STFT is [tone_spectrogram]. *)
Definition studio : ShazamSystem.Environment :=
  ShazamSystem.mkEnv
    true
    (fun _ _ => Returned (AudioProcessing.Samples (repeat (1 # 2)%Q 4), 22050))
    (fun _ _ _ => Raised "ValueError")
    (fun _ _ => Raised "ValueError")
    (fun _ _ => Returned tone_spectrogram)
    (fun path => path)
    (fun _ => Some 1024).

(** SQLite answers, Redis drops the connection when the pipeline
    executes. *)
Definition redis_down : Database.Backends := Database.mkBackends true false.

(** A history: two songs sharing a hash are ingested. *)
Definition two_ingests : list Database.Op :=
  [Database.AddSong Database.healthy "A440" "Test" a440_path [sample_hash]
                    None None None;
   Database.AddSong Database.healthy "A440 live" "Test" "/music/a440_live.wav"
                    [sample_hash] None None None].

(** A bucket whose raw offsets cluster around 10 frames, and one whose
    offsets are spread out. *)
Definition clustered_offsets : list Z := [10; 11; 9; 10; 42].
Definition scattered_offsets : list Z := [0; 100; 200; 300; 400; 500; 600].

(** The ingest of a file while Redis is down. *)
Definition failed_ingest : ShazamSystem.System * option Z :=
  ShazamSystem.add_song_to_database
    studio (ShazamSystem.mkSystem (new_fingerprinter 22050 2048 512)
                                  (Database.run [] (Database.new_database true)))
    redis_down a440_path "A440" "Test" None.

(** Resamplers that refuse every input. *)
Definition no_resample_poly (x : list Q) (up down : Z) : outcome (list Q) :=
  Raised "ValueError".
Definition no_resample (x : list Q) (num : Z) : outcome (list Q) :=
  Raised "ValueError".

Definition both_ingested : Database.FingerprintDatabase :=
  Database.run two_ingests (Database.new_database true).

Definition after_removal : Database.FingerprintDatabase :=
  fst (Database.remove_song both_ingested Database.healthy 1).

End Examples.

(* ================================================================== *)
(** ** Further concrete inputs *)

Module Scenarios.
Import Config Fingerprinting.

(** An anchor and the peaks that follow it in time order: one in its own
    frame, six inside the target window, one beyond it. *)
Definition lead_peak : SpectralPeak := mkPeak 30 10 1.
Definition following_peaks : list SpectralPeak :=
  [mkPeak 31 10 1; mkPeak 60 11 2; mkPeak 32 12 1; mkPeak 33 13 1;
   mkPeak 90 20 3; mkPeak 34 30 1; mkPeak 35 40 1; mkPeak 36 400 1].

(** A frequency axis of 22 bins, 100 Hz apart. *)
Definition coarse_axis : list Q :=
  map (fun k => inject_Z (Z.of_nat k * 100)) (seq 0 22).

(** A transform of a single frame, with a partial in bin 30. *)
Definition one_frame_spectrogram : Spectrogram :=
  mkSpec (repeat [1 # 10]%Q 30 ++ [[1]%Q] ++ repeat [1 # 10]%Q 17) 1.
Definition one_frame_stft (self : AudioFingerprinter) (audio : list Q)
  : outcome Spectrogram :=
  Returned one_frame_spectrogram.

(** The hashes of a short recording: three pairs of peaks. *)
Definition three_hashes : list AudioHash :=
  [mkHash "f010529254cc9b31" 0 30 30 1;
   mkHash "d82eee87bc3645bb" 0 30 30 2;
   mkHash "b0140066f6df013b" 4 30 60 3].

(** The stores after its ingest. *)
Definition one_track : Database.FingerprintDatabase :=
  fst (Database.add_song (Database.new_database true) Database.healthy
                         "Track" "Artist" "/music/track.wav" three_hashes
                         None None None).

(** Raw offsets that differ by the jitter of a replay, two frames at
    most. *)
Definition jittered_offsets : list Z := [10; 11; 9; 12; 8].

(** The bucket of that track when its own hashes are the query, and the
    match it gives. *)
Definition track_bucket : list Database.Occurrence :=
  Database.occurrences_of (Database.search_fingerprints one_track three_hashes) 1.
Definition track_match : Matching.MatchResult :=
  Matching.mkMatch 1 "Track" "Artist" None (Matching._calculate_confidence 3 3 3)
                   3 3 0 (inject_Z 3 / inject_Z 3)%Q.

End Scenarios.

(* ================================================================== *)
(** * Properties *)

(** ** SHA-256 test vectors *)

Example sha256_abc :
  SHA256.hexdigest (SHA256.encode "abc")
  = "ba7816bf8f01cfea414140de5dae2223b00361a396177a9cb410ff61f20015ad"%string.
Proof. vm_compute. reflexivity. Qed.

Example sha256_empty :
  SHA256.hexdigest (SHA256.encode EmptyString)
  = "e3b0c44298fc1c149afbf4c8996fb92427ae41e4649b934ca495991b7852b855"%string.
Proof. vm_compute. reflexivity. Qed.

Example sha256_two_blocks :
  SHA256.hexdigest (repeat 97 100)
  = "2816597888e4a0d3a36b82b83316ab32680eb8f00f8cd3b904d681246d285a0e"%string.
Proof. vm_compute. reflexivity. Qed.


(** ** The stable sort *)

Section StableSortFacts.
Context {A : Type} (key_lt : A -> A -> bool).

Lemma insert_sorted_perm (x : A) (l : list A) :
  Permutation (insert_sorted key_lt x l) (x :: l).
Proof.
  induction l as [|y l IH]; simpl.
  - reflexivity.
  - destruct (key_lt x y).
    + reflexivity.
    + rewrite IH. apply perm_swap.
Qed.

Lemma fold_insert_perm (l acc : list A) :
  Permutation (fold_left (fun acc x => insert_sorted key_lt x acc) l acc) (l ++ acc).
Proof.
  revert acc. induction l as [|x l IH]; intros acc; simpl.
  - reflexivity.
  - rewrite IH, insert_sorted_perm. symmetry. apply Permutation_middle.
Qed.

Lemma py_sorted_perm (l : list A) : Permutation (py_sorted key_lt l) l.
Proof.
  unfold py_sorted. rewrite fold_insert_perm, app_nil_r. reflexivity.
Qed.

Lemma insert_sorted_last (x : A) (l : list A) :
  Forall (fun y => key_lt x y = false) l -> insert_sorted key_lt x l = l ++ [x].
Proof.
  induction 1 as [|y l Hy _ IH]; simpl.
  - reflexivity.
  - rewrite Hy, IH. reflexivity.
Qed.

(** An ascending list is left as it is. *)
Lemma fold_insert_ascending (l acc : list A) :
  StronglySorted (in_order key_lt) (acc ++ l) ->
  fold_left (fun acc x => insert_sorted key_lt x acc) l acc = acc ++ l.
Proof.
  revert acc. induction l as [|x l IH]; intros acc Hs; simpl.
  - rewrite app_nil_r. reflexivity.
  - rewrite insert_sorted_last.
    + rewrite IH; rewrite <- app_assoc; simpl; auto.
    + clear IH. induction acc as [|a acc IHa]; constructor.
      * simpl in Hs. inversion Hs as [|? ? _ Hall]; subst.
        rewrite Forall_app in Hall. destruct Hall as [_ Hall].
        inversion Hall; subst. assumption.
      * apply IHa. simpl in Hs. inversion Hs; assumption.
Qed.

Lemma py_sorted_ascending (l : list A) :
  StronglySorted (in_order key_lt) l -> py_sorted key_lt l = l.
Proof. intros Hs. unfold py_sorted. apply (fold_insert_ascending l []). exact Hs. Qed.

Hypothesis key_lt_asym : forall x y, key_lt x y = true -> key_lt y x = false.
Hypothesis key_lt_trans :
  forall x y z, key_lt x y = true -> key_lt y z = true -> key_lt x z = true.

Lemma insert_sorted_sorted (x : A) (l : list A) :
  StronglySorted (in_order key_lt) l -> StronglySorted (in_order key_lt) (insert_sorted key_lt x l).
Proof.
  induction 1 as [|y l Hs IH Hall]; simpl.
  - repeat constructor.
  - destruct (key_lt x y) eqn:Hxy.
    + constructor; [constructor; assumption|].
      constructor; [apply key_lt_asym; assumption|].
      eapply Forall_impl; [exact Hall|]. intros z Hz. unfold in_order in *.
      destruct (key_lt z x) eqn:Hzx; [|reflexivity].
      rewrite (key_lt_trans _ _ _ Hzx Hxy) in Hz. discriminate.
    + constructor; [assumption|].
      apply List.Forall_forall. intros z Hz.
      apply (Permutation_in _ (insert_sorted_perm x l)) in Hz.
      destruct Hz as [<-|Hz]; [exact Hxy|].
      rewrite List.Forall_forall in Hall. apply Hall. assumption.
Qed.

Lemma py_sorted_sorted (l : list A) : StronglySorted (in_order key_lt) (py_sorted key_lt l).
Proof.
  unfold py_sorted.
  assert (H : forall acc, StronglySorted (in_order key_lt) acc ->
            StronglySorted (in_order key_lt)
              (fold_left (fun acc x => insert_sorted key_lt x acc) l acc)).
  { induction l as [|x l IH]; intros acc Hacc; simpl; [assumption|].
    apply IH, insert_sorted_sorted, Hacc. }
  apply H. constructor.
Qed.

(** The last element of an ascending list is a greatest one. *)
Lemma sorted_last_greatest (l : list A) (z : A) :
  StronglySorted (in_order key_lt) (l ++ [z]) -> Forall (fun y => in_order key_lt y z) l.
Proof.
  induction l as [|a l IH]; simpl; intros Hs; constructor.
  - inversion Hs as [|? ? _ Hall]; subst.
    rewrite Forall_app in Hall. destruct Hall as [_ Hall].
    inversion Hall; assumption.
  - apply IH. inversion Hs; assumption.
Qed.

End StableSortFacts.

(** ** Rational comparisons *)

Lemma Qlt_bool_iff (a b : Q) : Qlt_bool a b = true <-> (a < b)%Q.
Proof.
  unfold Qlt_bool. rewrite negb_true_iff. split.
  - intros H. apply Qnot_le_lt. intros Hle. apply Qle_bool_iff in Hle. congruence.
  - intros H. destruct (Qle_bool b a) eqn:E; [|reflexivity].
    apply Qle_bool_iff in E. exfalso. eapply Qlt_not_le; eauto.
Qed.

Lemma Qlt_bool_false (a b : Q) : Qlt_bool a b = false <-> (b <= a)%Q.
Proof.
  unfold Qlt_bool. rewrite negb_false_iff. apply Qle_bool_iff.
Qed.

(** ** scipy.signal.find_peaks *)

Module ScipyFacts.
Import Scipy.

Lemma plateau_end_bounds (fuel : nat) (x : list Q) (i i_ahead i_max : nat) :
  (i_ahead <= plateau_end fuel x i i_ahead i_max)%nat
  /\ ((i_ahead <= i_max)%nat -> (plateau_end fuel x i i_ahead i_max <= i_max)%nat).
Proof.
  revert i_ahead. induction fuel as [|f IH]; intros i_ahead; simpl.
  - lia.
  - destruct (i_ahead <? i_max)%nat eqn:Hlt; simpl; [|lia].
    apply Nat.ltb_lt in Hlt.
    destruct (Qeq_bool (item x i_ahead) (item x i)); [|lia].
    specialize (IH (S i_ahead)). lia.
Qed.

(** The fuel of the inner loop is never exhausted: any amount that covers
    the distance to [i_max] gives the same answer. *)
Lemma plateau_end_fuel (f1 f2 : nat) (x : list Q) (i i_ahead i_max : nat) :
  (i_max - i_ahead <= f1)%nat -> (i_max - i_ahead <= f2)%nat ->
  plateau_end f1 x i i_ahead i_max = plateau_end f2 x i i_ahead i_max.
Proof.
  revert f2 i_ahead. induction f1 as [|f1 IH]; intros f2 i_ahead H1 H2.
  - destruct f2 as [|f2]; simpl; [reflexivity|].
    destruct (i_ahead <? i_max)%nat eqn:Hlt; [|reflexivity].
    apply Nat.ltb_lt in Hlt. lia.
  - destruct f2 as [|f2]; simpl.
    + destruct (i_ahead <? i_max)%nat eqn:Hlt; [|reflexivity].
      apply Nat.ltb_lt in Hlt. lia.
    + destruct (i_ahead <? i_max)%nat eqn:Hlt; simpl; [|reflexivity].
      apply Nat.ltb_lt in Hlt.
      destruct (Qeq_bool (item x i_ahead) (item x i)); [|reflexivity].
      apply IH; lia.
Qed.

Lemma local_maxima_from_bounds (fuel : nat) (x : list Q) (i i_max : nat) :
  Forall (fun m => (i <= m < i_max)%nat) (local_maxima_from fuel x i i_max)
  /\ StronglySorted lt (local_maxima_from fuel x i i_max).
Proof.
  revert i. induction fuel as [|f IH]; intros i; cbn [local_maxima_from].
  - split; constructor.
  - destruct (i <? i_max)%nat eqn:Hlt; [|split; constructor].
    apply Nat.ltb_lt in Hlt.
    destruct (Qlt_bool (item x (i - 1)) (item x i)); [|].
    + pose proof (plateau_end_bounds (length x) x i (S i) i_max) as [Hlo Hhi].
      specialize (Hhi Hlt).
      set (ia := plateau_end (length x) x i (S i) i_max) in *.
      destruct (Qlt_bool (item x ia) (item x i)).
      * destruct (IH (S ia)) as [Hb Hs].
        assert (Hm : (i <= (i + (ia - 1)) / 2 <= ia - 1)%nat).
        { split.
          - apply Nat.div_le_lower_bound; lia.
          - apply Nat.Div0.div_le_upper_bound; lia. }
        split.
        -- constructor; [cbv beta; lia|].
           eapply Forall_impl; [exact Hb|]. cbv beta. intros; lia.
        -- constructor; [exact Hs|].
           eapply Forall_impl; [exact Hb|]. cbv beta. intros; lia.
      * destruct (IH (S i)) as [Hb Hs]. split; [|exact Hs].
        eapply Forall_impl; [exact Hb|]. cbv beta. intros; lia.
    + destruct (IH (S i)) as [Hb Hs]. split; [|exact Hs].
      eapply Forall_impl; [exact Hb|]. cbv beta. intros; lia.
Qed.

(** Likewise for the outer loop. *)
Lemma local_maxima_from_fuel (f1 f2 : nat) (x : list Q) (i i_max : nat) :
  (i_max - i <= f1)%nat -> (i_max - i <= f2)%nat ->
  local_maxima_from f1 x i i_max = local_maxima_from f2 x i i_max.
Proof.
  revert f2 i. induction f1 as [|f1 IH]; intros f2 i H1 H2.
  - destruct f2 as [|f2]; simpl; [reflexivity|].
    destruct (i <? i_max)%nat eqn:Hlt; [|reflexivity].
    apply Nat.ltb_lt in Hlt. lia.
  - destruct f2 as [|f2]; simpl.
    + destruct (i <? i_max)%nat eqn:Hlt; [|reflexivity].
      apply Nat.ltb_lt in Hlt. lia.
    + destruct (i <? i_max)%nat eqn:Hlt; [|reflexivity].
      apply Nat.ltb_lt in Hlt.
      pose proof (plateau_end_bounds (length x) x i (S i) i_max) as [Hlo _].
      destruct (Qlt_bool (item x (i - 1)) (item x i)).
      * destruct (Qlt_bool _ (item x i)).
        -- f_equal. apply IH; lia.
        -- apply IH; lia.
      * apply IH; lia.
Qed.

(** The samples the inner loop steps over equal [x[i]]. *)
Lemma plateau_end_flat (fuel : nat) (x : list Q) (i i_ahead i_max k : nat) :
  (i_ahead <= k < plateau_end fuel x i i_ahead i_max)%nat ->
  (item x k == item x i)%Q.
Proof.
  revert i_ahead. induction fuel as [|f IH]; intros i_ahead; simpl; [lia|].
  destruct (i_ahead <? i_max)%nat; simpl; [|lia].
  destruct (Qeq_bool (item x i_ahead) (item x i)) eqn:E; [|lia].
  intros Hk. destruct (Nat.eq_dec k i_ahead) as [->|Hne].
  - apply Qeq_bool_iff, E.
  - apply (IH (S i_ahead)). lia.
Qed.

(** Soundness: every index reported is the midpoint of a run of equal
    samples that is entered by a rise and left by a fall. *)
Lemma local_maxima_from_sound (fuel : nat) (x : list Q) (i i_max m : nat) :
  (1 <= i)%nat ->
  In m (local_maxima_from fuel x i i_max) ->
  exists l r,
    (1 <= l <= m)%nat /\ (m <= r < i_max)%nat /\ m = ((l + r) / 2)%nat
    /\ (item x (l - 1) < item x l)%Q
    /\ (forall k, (l <= k <= r)%nat -> (item x k == item x l)%Q)
    /\ (item x (r + 1) < item x l)%Q.
Proof.
  revert i. induction fuel as [|f IH]; intros i Hi; cbn [local_maxima_from];
    [intros []|].
  destruct (i <? i_max)%nat eqn:Hlt; [|intros []]. apply Nat.ltb_lt in Hlt.
  destruct (Qlt_bool (item x (i - 1)) (item x i)) eqn:Hrise;
    [|apply IH; lia].
  pose proof (plateau_end_bounds (length x) x i (S i) i_max) as [Hlo Hhi].
  specialize (Hhi Hlt).
  pose proof (fun k => plateau_end_flat (length x) x i (S i) i_max k) as Hflat.
  set (ia := plateau_end (length x) x i (S i) i_max) in *.
  destruct (Qlt_bool (item x ia) (item x i)) eqn:Hfall; [|apply IH; lia].
  intros [<-|Hin]; [|apply (IH (S ia)); [lia|exact Hin]].
  exists i, (ia - 1)%nat.
  assert (Hm : (i <= (i + (ia - 1)) / 2 <= ia - 1)%nat).
  { split.
    - apply Nat.div_le_lower_bound; lia.
    - apply Nat.Div0.div_le_upper_bound; lia. }
  split; [lia|]. split; [lia|]. split; [reflexivity|].
  split; [apply Qlt_bool_iff, Hrise|]. split.
  - intros k Hk. destruct (Nat.eq_dec k i) as [->|Hne]; [reflexivity|].
    apply Hflat. lia.
  - replace (ia - 1 + 1)%nat with ia by lia. apply Qlt_bool_iff, Hfall.
Qed.

(** Completeness: a sample that is larger than both of its neighbours is
    reported. *)
Lemma local_maxima_from_complete (fuel : nat) (x : list Q) (i0 i i_max : nat) :
  (1 <= i0 <= i)%nat -> (i < i_max)%nat -> (i_max - i0 <= fuel)%nat ->
  (item x (i - 1) < item x i)%Q -> (item x (i + 1) < item x i)%Q ->
  In i (local_maxima_from fuel x i0 i_max).
Proof.
  intros Hi0 Hi Hfuel Hrise Hfall. revert i0 Hi0 Hfuel.
  induction fuel as [|f IH]; intros i0 Hi0 Hfuel; [lia|].
  cbn [local_maxima_from].
  replace (i0 <? i_max)%nat with true by (symmetry; apply Nat.ltb_lt; lia).
  destruct (Nat.eq_dec i0 i) as [->|Hne].
  - apply Qlt_bool_iff in Hrise. rewrite Hrise.
    assert (E : plateau_end (length x) x i (S i) i_max = S i).
    { destruct (length x) as [|n]; [reflexivity|]. simpl.
      destruct (S i <? i_max)%nat; simpl; [|reflexivity].
      destruct (Qeq_bool (item x (S i)) (item x i)) eqn:E; [|reflexivity].
      apply Qeq_bool_iff in E. replace (i + 1)%nat with (S i) in Hfall by lia.
      rewrite E in Hfall. exfalso. eapply Qlt_irrefl, Hfall. }
    rewrite E. replace (i + 1)%nat with (S i) in Hfall by lia.
    apply Qlt_bool_iff in Hfall. rewrite Hfall.
    left. replace (i + (S i - 1))%nat with (2 * i)%nat by lia.
    rewrite Nat.mul_comm. apply Nat.div_mul. lia.
  - destruct (Qlt_bool (item x (i0 - 1)) (item x i0)) eqn:Hrise0;
      [|apply IH; lia].
    pose proof (plateau_end_bounds (length x) x i0 (S i0) i_max) as [Hlo Hhi].
    pose proof (fun k => plateau_end_flat (length x) x i0 (S i0) i_max k) as Hflat.
    set (ia := plateau_end (length x) x i0 (S i0) i_max) in *.
    destruct (Qlt_bool (item x ia) (item x i0)) eqn:Hfall0; [|apply IH; lia].
    right. apply IH; [|lia].
    assert (Hprev : forall k, (i0 <= k < ia)%nat -> (item x k == item x i0)%Q).
    { intros k Hk. destruct (Nat.eq_dec k i0) as [->|]; [reflexivity|].
      apply Hflat. lia. }
    destruct (Nat.le_gt_cases i ia) as [Hle|Hgt]; [exfalso|lia].
    apply Qlt_bool_iff in Hfall0.
    destruct (Nat.eq_dec i ia) as [->|Hne'].
    + rewrite (Hprev (ia - 1)%nat) in Hrise by lia.
      eapply Qlt_irrefl, Qlt_trans; eauto.
    + rewrite (Hprev (i - 1)%nat), (Hprev i) in Hrise by lia.
      eapply Qlt_irrefl, Hrise.
Qed.

(** No maximum at the first or at the last sample, and the maxima come in
    increasing order. *)
Lemma local_maxima_interior (x : list Q) :
  Forall (fun m => (1 <= m < length x - 1)%nat) (_local_maxima_1d x).
Proof. apply local_maxima_from_bounds. Qed.

Lemma local_maxima_increasing (x : list Q) : StronglySorted lt (_local_maxima_1d x).
Proof. apply local_maxima_from_bounds. Qed.

(** What [_local_maxima_1d] reports: midpoints of flat tops, and among
    them every sample that exceeds both of its neighbours. *)
Lemma local_maxima_sound (x : list Q) (m : nat) :
  In m (_local_maxima_1d x) ->
  exists l r,
    (1 <= l <= m)%nat /\ (m <= r < length x - 1)%nat /\ m = ((l + r) / 2)%nat
    /\ (item x (l - 1) < item x l)%Q
    /\ (forall k, (l <= k <= r)%nat -> (item x k == item x l)%Q)
    /\ (item x (r + 1) < item x l)%Q.
Proof. apply local_maxima_from_sound. lia. Qed.

Lemma local_maxima_complete (x : list Q) (i : nat) :
  (1 <= i < length x - 1)%nat ->
  (item x (i - 1) < item x i)%Q -> (item x (i + 1) < item x i)%Q ->
  In i (_local_maxima_1d x).
Proof.
  intros Hi Hrise Hfall. apply local_maxima_from_complete; auto; lia.
Qed.

(** *** Selection by a mask *)

Lemma select_mask_cons (p : nat) (peaks : list nat) (b : bool) (keep : list bool) :
  select_mask (p :: peaks) (b :: keep)
  = if b then p :: select_mask peaks keep else select_mask peaks keep.
Proof. destruct b; reflexivity. Qed.

Lemma select_mask_In (peaks : list nat) (keep : list bool) (c : nat) :
  In c (select_mask peaks keep) -> In c peaks.
Proof.
  unfold select_mask. revert keep.
  induction peaks as [|p peaks IH]; intros [|b keep]; simpl; try tauto.
  destruct b; simpl; intros H.
  - destruct H as [H|H]; [left; exact H|right; eapply IH; exact H].
  - right. eapply IH. exact H.
Qed.

Lemma select_mask_increasing (peaks : list nat) (keep : list bool) :
  StronglySorted lt peaks -> StronglySorted lt (select_mask peaks keep).
Proof.
  intros Hs. revert keep.
  induction Hs as [|p peaks Hs IH Hall]; intros [|b keep];
    try (cbn; constructor).
  rewrite select_mask_cons.
  destruct b; [|apply IH].
  constructor; [apply IH|].
  apply List.Forall_forall. intros c Hc. apply select_mask_In in Hc.
  rewrite List.Forall_forall in Hall. apply Hall, Hc.
Qed.

Lemma select_mask_kept (peaks : list nat) (keep : list bool) (k : nat) :
  (k < length peaks)%nat -> nth k keep false = true ->
  In (nth k peaks O) (select_mask peaks keep).
Proof.
  revert keep k.
  induction peaks as [|p peaks IH]; intros keep k Hk Hn; simpl in Hk; [lia|].
  destruct keep as [|b keep]; [destruct k; discriminate|].
  rewrite select_mask_cons.
  destruct k as [|k]; simpl in Hn |- *.
  - subst b. left. reflexivity.
  - assert (In (nth k peaks O) (select_mask peaks keep)) by (apply IH; [lia|exact Hn]).
    destruct b; [right|]; assumption.
Qed.

(** *** Selection by distance *)

Lemma nth_flag_neighbors (peaks : list nat) (distance : Z) (j k : nat)
      (keep : list bool) :
  nth k (flag_neighbors peaks distance j keep) false
  = nth k keep false
    && ((k =? j)%nat || negb (Z.abs (position peaks k - position peaks j) <? distance)).
Proof.
  unfold flag_neighbors. rewrite !nth_lookup, list_lookup_imap.
  destruct (keep !! k) as [b|]; simpl; [|reflexivity].
  destruct (k =? j)%nat; simpl; [rewrite andb_true_r; reflexivity|].
  destruct (Z.abs _ <? distance); simpl;
    [rewrite andb_false_r|rewrite andb_true_r]; reflexivity.
Qed.

Section DistanceInvariant.
Variables (peaks : list nat) (distance : Z) (j0 : nat).

Lemma top_kept_step (keep : list bool) (j : nat) :
  top_kept peaks distance j0 keep ->
  top_kept peaks distance j0 (if nth j keep false then flag_neighbors peaks distance j keep else keep).
Proof.
  intros [Htop Hfar]. destruct (nth j keep false) eqn:Hj; [|split; assumption].
  split.
  - rewrite nth_flag_neighbors, Htop. simpl.
    destruct (Nat.eqb_spec j0 j) as [->|Hne]; [reflexivity|]. simpl.
    destruct (Hfar j Hj) as [->|Hd]; [congruence|].
    apply negb_true_iff, Z.ltb_ge. lia.
  - intros k Hk. rewrite nth_flag_neighbors in Hk.
    apply andb_true_iff in Hk. apply Hfar, Hk.
Qed.

Lemma top_kept_fold (order : list nat) (keep : list bool) :
  top_kept peaks distance j0 keep ->
  top_kept peaks distance j0 (fold_left (fun keep j => if nth j keep false
                                     then flag_neighbors peaks distance j keep
                                     else keep) order keep).
Proof.
  revert keep. induction order as [|j order IH]; intros keep H; simpl; [exact H|].
  apply IH, top_kept_step, H.
Qed.

Lemma top_kept_first :
  (j0 < length peaks)%nat ->
  top_kept peaks distance j0 (flag_neighbors peaks distance j0 (repeat true (length peaks))).
Proof.
  intros Hlt. split.
  - rewrite nth_flag_neighbors, Nat.eqb_refl, nth_repeat_lt by exact Hlt. reflexivity.
  - intros k Hk. rewrite nth_flag_neighbors in Hk.
    apply andb_true_iff in Hk. destruct Hk as [_ Hk].
    apply orb_true_iff in Hk. destruct Hk as [Hk|Hk].
    + left. apply Nat.eqb_eq, Hk.
    + right. apply negb_true_iff, Z.ltb_ge in Hk. exact Hk.
Qed.
End DistanceInvariant.

Lemma priority_lt_asym (priority : list Q) (i j : nat) :
  Qlt_bool (item priority i) (item priority j) = true ->
  Qlt_bool (item priority j) (item priority i) = false.
Proof.
  rewrite Qlt_bool_iff, Qlt_bool_false. apply Qlt_le_weak.
Qed.

Lemma priority_lt_trans (priority : list Q) (i j k : nat) :
  Qlt_bool (item priority i) (item priority j) = true ->
  Qlt_bool (item priority j) (item priority k) = true ->
  Qlt_bool (item priority i) (item priority k) = true.
Proof.
  rewrite !Qlt_bool_iff. apply Qlt_trans.
Qed.

Lemma argsort_perm (priority : list Q) :
  Permutation (argsort priority) (seq 0 (length priority)).
Proof. apply py_sorted_perm. Qed.

(** The index handled first has the greatest priority. *)
Lemma argsort_top (priority : list Q) :
  priority <> [] ->
  exists j0 rest,
    rev (argsort priority) = j0 :: rest
    /\ (j0 < length priority)%nat
    /\ forall j, (j < length priority)%nat ->
                 (item priority j <= item priority j0)%Q.
Proof.
  intros Hne.
  pose proof (argsort_perm priority) as Hperm.
  assert (Hsorted : StronglySorted
            (in_order (fun i j => Qlt_bool (item priority i) (item priority j)))
            (argsort priority)).
  { apply py_sorted_sorted.
    - intros i j. apply priority_lt_asym.
    - intros i j k. apply priority_lt_trans. }
  destruct (rev (argsort priority)) as [|j0 rest] eqn:E.
  - apply (f_equal (@rev nat)) in E. rewrite rev_involutive in E. simpl in E.
    rewrite E in Hperm. apply Permutation_length in Hperm.
    rewrite length_seq in Hperm. destruct priority; [congruence|discriminate].
  - exists j0, rest. split; [reflexivity|].
    assert (El : argsort priority = rev rest ++ [j0]).
    { rewrite <- (rev_involutive (argsort priority)), E. reflexivity. }
    rewrite El in Hperm, Hsorted.
    assert (Hin : forall j, (j < length priority)%nat -> In j (rev rest ++ [j0])).
    { intros j Hj. apply (Permutation_in _ (Permutation_sym Hperm)).
      apply in_seq. lia. }
    split.
    + assert (H0 : In j0 (seq 0 (length priority))).
      { apply (Permutation_in _ Hperm). apply in_or_app. right. left. reflexivity. }
      apply in_seq in H0. lia.
    + intros j Hj. apply sorted_last_greatest in Hsorted.
      destruct (in_app_or _ _ _ (Hin j Hj)) as [H|[<-|[]]].
      * rewrite List.Forall_forall in Hsorted. specialize (Hsorted j H).
        unfold in_order in Hsorted. apply Qlt_bool_false in Hsorted. exact Hsorted.
      * apply Qle_refl.
Qed.

Lemma select_by_peak_distance_top (peaks : list nat) (priority : list Q)
      (distance : Z) :
  length priority = length peaks -> peaks <> [] ->
  exists j0,
    (j0 < length peaks)%nat
    /\ (forall j, (j < length peaks)%nat -> (item priority j <= item priority j0)%Q)
    /\ nth j0 (_select_by_peak_distance peaks priority distance) false = true.
Proof.
  intros Hlen Hne.
  destruct (argsort_top priority) as (j0 & rest & E & Hj0 & Htop).
  { intros ->. destruct peaks; [congruence|discriminate]. }
  rewrite Hlen in Hj0, Htop.
  exists j0. split; [exact Hj0|]. split; [exact Htop|].
  unfold _select_by_peak_distance. rewrite E. simpl.
  rewrite nth_repeat_lt by exact Hj0.
  apply (top_kept_fold peaks distance j0 rest), top_kept_first, Hj0.
Qed.

(** *** find_peaks *)

Lemma find_peaks_sound (x : list Q) (height : Q) (distance : Z) (c : nat) :
  In c (find_peaks x height distance) ->
  In c (_local_maxima_1d x) /\ (height <= item x c)%Q.
Proof.
  unfold find_peaks. intros H. apply select_mask_In in H.
  unfold select_by_height in H. apply filter_In in H. destruct H as [H1 H2].
  split; [exact H1|]. apply Qle_bool_iff, H2.
Qed.

Lemma find_peaks_interior (x : list Q) (height : Q) (distance : Z) (c : nat) :
  In c (find_peaks x height distance) -> (1 <= c < length x - 1)%nat.
Proof.
  intros H. apply find_peaks_sound in H. destruct H as [H _].
  pose proof (local_maxima_interior x) as Hall.
  rewrite List.Forall_forall in Hall. apply Hall, H.
Qed.

Lemma filter_increasing (f : nat -> bool) (l : list nat) :
  StronglySorted lt l -> StronglySorted lt (List.filter f l).
Proof.
  induction 1 as [|a l Hs IH Hall]; simpl; [constructor|].
  destruct (f a); [|exact IH].
  constructor; [exact IH|].
  apply List.Forall_forall. intros c Hc. apply filter_In in Hc.
  rewrite List.Forall_forall in Hall. apply Hall, Hc.
Qed.

Lemma find_peaks_increasing (x : list Q) (height : Q) (distance : Z) :
  StronglySorted lt (find_peaks x height distance).
Proof.
  unfold find_peaks. apply select_mask_increasing, filter_increasing,
    local_maxima_increasing.
Qed.

(** When some local maximum reaches [height], a highest one survives the
    selection by distance. *)
Lemma find_peaks_keeps_highest (x : list Q) (height : Q) (distance : Z) (m0 : nat) :
  In m0 (_local_maxima_1d x) -> (height <= item x m0)%Q ->
  exists c,
    In c (find_peaks x height distance)
    /\ forall m, In m (_local_maxima_1d x) -> (height <= item x m)%Q ->
                 (item x m <= item x c)%Q.
Proof.
  intros Hm0 Hh0. unfold find_peaks.
  set (peaks := select_by_height x height (_local_maxima_1d x)).
  assert (Hin : forall m, In m (_local_maxima_1d x) -> (height <= item x m)%Q ->
                          In m peaks).
  { intros m Hm Hh. apply filter_In. split; [exact Hm|]. apply Qle_bool_iff, Hh. }
  destruct (select_by_peak_distance_top peaks (map (item x) peaks) distance)
    as (j0 & Hj0 & Htop & Hkeep).
  { apply length_map. }
  { intros E. specialize (Hin m0 Hm0 Hh0). rewrite E in Hin. destruct Hin. }
  exists (nth j0 peaks O). split.
  - apply select_mask_kept; assumption.
  - intros m Hm Hh. destruct (In_nth _ _ O (Hin m Hm Hh)) as (j & Hj & <-).
    specialize (Htop j Hj). unfold item in Htop |- *.
    rewrite (nth_indep _ 0%Q (item x O)) in Htop by (rewrite length_map; exact Hj).
    rewrite (nth_indep _ 0%Q (item x O) (n := j0)) in Htop
      by (rewrite length_map; exact Hj0).
    rewrite !map_nth in Htop. exact Htop.
Qed.

(** *** argmax *)

Lemma argmax_from_spec (L : list Q) (l pre : list Q) (best_i : nat) :
  L = pre ++ l -> (best_i < length pre)%nat ->
  (forall k, (k < length pre)%nat -> (nth k L 0 <= nth best_i L 0)%Q) ->
  (forall k, (k < best_i)%nat -> (nth k L 0 < nth best_i L 0)%Q) ->
  let r := argmax_from best_i (nth best_i L 0%Q) (length pre) l in
  (r < length L)%nat
  /\ (forall k, (k < length L)%nat -> (nth k L 0 <= nth r L 0)%Q)
  /\ (forall k, (k < r)%nat -> (nth k L 0 < nth r L 0)%Q).
Proof.
  revert pre best_i. induction l as [|a l IH]; intros pre best_i EL Hb Hle Hlt; simpl.
  - rewrite app_nil_r in EL. subst L. auto.
  - assert (Ea : nth (length pre) L 0%Q = a) by (subst L; apply nth_middle).
    assert (EL' : L = (pre ++ [a]) ++ l) by (rewrite <- app_assoc; exact EL).
    assert (Elen : length (pre ++ [a]) = S (length pre))
      by (rewrite length_app; simpl; lia).
    destruct (Qlt_bool (nth best_i L 0%Q) a) eqn:Hcmp.
    + apply Qlt_bool_iff in Hcmp.
      specialize (IH (pre ++ [a]) (length pre) EL'). rewrite Elen, Ea in IH.
      apply IH.
      * lia.
      * intros k Hk. destruct (Nat.eq_dec k (length pre)) as [->|Hne].
        -- rewrite Ea. apply Qle_refl.
        -- apply Qlt_le_weak. eapply Qle_lt_trans; [apply Hle; lia|exact Hcmp].
      * intros k Hk. eapply Qle_lt_trans; [apply Hle; lia|exact Hcmp].
    + apply Qlt_bool_false in Hcmp.
      specialize (IH (pre ++ [a]) best_i EL'). rewrite Elen in IH.
      apply IH.
      * lia.
      * intros k Hk. destruct (Nat.eq_dec k (length pre)) as [->|Hne].
        -- rewrite Ea. exact Hcmp.
        -- apply Hle. lia.
      * exact Hlt.
Qed.

(** [argmax] points at a greatest element, the first of them. *)
Lemma argmax_spec (l : list Q) :
  l <> [] ->
  (argmax l < length l)%nat
  /\ (forall k, (k < length l)%nat -> (nth k l 0 <= nth (argmax l) l 0)%Q)
  /\ (forall k, (k < argmax l)%nat -> (nth k l 0 < nth (argmax l) l 0)%Q).
Proof.
  destruct l as [|a l]; [congruence|]. intros _.
  apply (argmax_from_spec (a :: l) l [a] O).
  - reflexivity.
  - simpl. lia.
  - intros k Hk. simpl in Hk. assert (k = O) as -> by lia. apply Qle_refl.
  - intros k Hk. lia.
Qed.

End ScipyFacts.

(** ** The peak picker *)

Module FingerprintingFacts.
Import Config Scipy ScipyFacts Fingerprinting.

Lemma increasing_nth (l : list nat) (r k : nat) :
  StronglySorted lt l -> (r <= k < length l)%nat -> (nth r l O <= nth k l O)%nat.
Proof.
  intros Hs. revert r k. induction Hs as [|a l Hs IH Hall]; intros r k Hrk.
  - simpl in Hrk. lia.
  - destruct r as [|r], k as [|k]; simpl in *; try lia.
    + rewrite List.Forall_forall in Hall.
      assert (a < nth k l O)%nat by (apply Hall, nth_In; lia). lia.
    + apply IH. lia.
Qed.

Lemma item_map_nth (x : list Q) (l : list nat) (k : nat) :
  (k < length l)%nat -> nth k (map (item x) l) 0%Q = item x (nth k l O).
Proof.
  intros Hk. rewrite (nth_indep _ 0%Q (item x O)) by (rewrite length_map; exact Hk).
  apply map_nth.
Qed.

(** What one time frame of one band contributes: nothing when
    [find_peaks] reports no candidate, else the candidate of greatest
    amplitude, the lowest bin among equals. *)
Lemma strongest_peak_at_spec (band_spectrogram : Spectrogram)
      (freq_offset time_idx : nat) :
  let time_slice := time_slice_of band_spectrogram time_idx in
  let candidates := find_peaks time_slice MIN_PEAK_AMPLITUDE PEAK_NEIGHBORHOOD_SIZE in
  (candidates = [] /\ strongest_peak_at band_spectrogram freq_offset time_idx = [])
  \/ exists c,
       strongest_peak_at band_spectrogram freq_offset time_idx
       = [mkPeak (Z.of_nat (c + freq_offset)) (Z.of_nat time_idx) (item time_slice c)]
       /\ In c candidates
       /\ (forall c', In c' candidates -> (item time_slice c' <= item time_slice c)%Q)
       /\ (forall c', In c' candidates ->
                      (item time_slice c' == item time_slice c)%Q -> (c <= c')%nat).
Proof.
  intros time_slice candidates. unfold strongest_peak_at.
  fold time_slice. fold candidates.
  pose proof (find_peaks_increasing time_slice MIN_PEAK_AMPLITUDE
                PEAK_NEIGHBORHOOD_SIZE) as Hinc.
  fold candidates in Hinc. clearbody candidates.
  destruct candidates as [|c0 cs]; [left; auto|right].
  cbv match.
  assert (Hcons : c0 :: cs <> []) by discriminate.
  set (cands := c0 :: cs) in *. clearbody cands. clear c0 cs.
  rename cands into candidates.
  set (amplitudes := map (item time_slice) candidates).
  assert (Hne : amplitudes <> []).
  { unfold amplitudes. destruct candidates; [congruence|discriminate]. }
  destruct (argmax_spec amplitudes Hne) as (Hr & Hmax & Hfirst).
  assert (Hlen : length amplitudes = length candidates) by apply length_map.
  rewrite Hlen in Hr, Hmax.
  exists (nth (argmax amplitudes) candidates O).
  assert (Eamp : nth (argmax amplitudes) amplitudes 0%Q
                 = item time_slice (nth (argmax amplitudes) candidates O))
    by (apply item_map_nth, Hr).
  split; [rewrite Eamp; reflexivity|].
  split; [apply nth_In, Hr|].
  split.
  - intros c' Hc'. destruct (In_nth _ _ O Hc') as (k & Hk & <-).
    rewrite <- Eamp, <- (item_map_nth time_slice candidates k Hk). apply Hmax, Hk.
  - intros c' Hc' Heq. destruct (In_nth _ _ O Hc') as (k & Hk & <-).
    destruct (Nat.lt_ge_cases k (argmax amplitudes)) as [Hlt|Hge].
    + specialize (Hfirst k Hlt). unfold amplitudes in Hfirst at 1 3.
      rewrite (item_map_nth time_slice candidates k Hk) in Hfirst.
      fold amplitudes in Hfirst. rewrite Eamp in Hfirst.
      rewrite Heq in Hfirst. exfalso. eapply Qlt_irrefl, Hfirst.
    + apply increasing_nth; [exact Hinc|lia].
Qed.

Lemma strongest_peak_at_time (band_spectrogram : Spectrogram)
      (freq_offset time_idx : nat) (p : SpectralPeak) :
  In p (strongest_peak_at band_spectrogram freq_offset time_idx) ->
  time_frame p = Z.of_nat time_idx.
Proof.
  destruct (strongest_peak_at_spec band_spectrogram freq_offset time_idx)
    as [[_ ->]|(c & -> & _)]; simpl; [tauto|].
  intros [<-|[]]. reflexivity.
Qed.

Lemma strongest_peak_at_le_1 (band_spectrogram : Spectrogram)
      (freq_offset time_idx : nat) :
  (length (strongest_peak_at band_spectrogram freq_offset time_idx) <= 1)%nat.
Proof.
  destruct (strongest_peak_at_spec band_spectrogram freq_offset time_idx)
    as [[_ ->]|(c & -> & _)]; simpl; lia.
Qed.

Lemma strongest_peak_at_frame (band_spectrogram : Spectrogram)
      (freq_offset t t' : nat) :
  List.filter (fun p => time_frame p =? Z.of_nat t)
              (strongest_peak_at band_spectrogram freq_offset t')
  = if bool_decide (t' = t)
    then strongest_peak_at band_spectrogram freq_offset t else [].
Proof.
  case_bool_decide as Ht.
  - subst t'. apply forallb_filter_id, forallb_forall.
    intros p Hp. apply strongest_peak_at_time in Hp. apply Z.eqb_eq, Hp.
  - destruct (strongest_peak_at_spec band_spectrogram freq_offset t')
      as [[_ ->]|(c & -> & _)]; simpl; [reflexivity|].
    destruct (Z.eqb_spec (Z.of_nat t') (Z.of_nat t)); [lia|reflexivity].
Qed.

(** The peaks of a band that lie in time frame [t] are those of the
    iteration for [t]. *)
Lemma peaks_of_frame (band_spectrogram : Spectrogram) (freq_offset t start n : nat) :
  List.filter (fun p => time_frame p =? Z.of_nat t)
              (flat_map (strongest_peak_at band_spectrogram freq_offset) (seq start n))
  = if bool_decide (start <= t < start + n)%nat
    then strongest_peak_at band_spectrogram freq_offset t else [].
Proof.
  revert start. induction n as [|n IH]; intros start.
  - cbn [seq flat_map List.filter]. case_bool_decide; [lia|reflexivity].
  - cbn [seq flat_map]. rewrite List.filter_app, IH, strongest_peak_at_frame.
    repeat case_bool_decide; try lia; try reflexivity.
    + subst. apply app_nil_r.
Qed.

Lemma find_peaks_in_band_frame (band_spectrogram : Spectrogram) (freq_offset t : nat) :
  List.filter (fun p => time_frame p =? Z.of_nat t)
              (_find_peaks_in_band band_spectrogram freq_offset)
  = if bool_decide (t < n_frames band_spectrogram)%nat
    then strongest_peak_at band_spectrogram freq_offset t else [].
Proof.
  unfold _find_peaks_in_band. rewrite peaks_of_frame.
  repeat case_bool_decide; try lia; reflexivity.
Qed.

(** *** The sort key of [extract_peaks] *)

Lemma peak_key_lt_iff (p q : SpectralPeak) :
  peak_key_lt p q = true
  <-> time_frame p < time_frame q
      \/ (time_frame p = time_frame q /\ (- amplitude p < - amplitude q)%Q).
Proof.
  unfold peak_key_lt.
  rewrite orb_true_iff, andb_true_iff, Z.ltb_lt, Z.eqb_eq, Qlt_bool_iff. tauto.
Qed.

Lemma peak_key_lt_asym (p q : SpectralPeak) :
  peak_key_lt p q = true -> peak_key_lt q p = false.
Proof.
  intros H. apply peak_key_lt_iff in H.
  apply not_true_is_false. intros H'. apply peak_key_lt_iff in H'.
  destruct H as [H|[H1 H2]], H' as [H'|[H1' H2']]; try lia.
  eapply Qlt_irrefl, Qlt_trans; eauto.
Qed.

Lemma peak_key_lt_trans (p q r : SpectralPeak) :
  peak_key_lt p q = true -> peak_key_lt q r = true -> peak_key_lt p r = true.
Proof.
  rewrite !peak_key_lt_iff.
  intros [H|[H1 H2]] [H'|[H1' H2']]; try (left; lia).
  right. split; [lia|]. eapply Qlt_trans; eauto.
Qed.

Lemma in_order_peak_order (p q : SpectralPeak) :
  in_order peak_key_lt p q -> peak_order p q.
Proof.
  unfold in_order, peak_order. intros H.
  destruct (Z.lt_trichotomy (time_frame p) (time_frame q)) as [Hlt|[Heq|Hgt]].
  - left. exact Hlt.
  - right. split; [exact Heq|].
    destruct (Qlt_le_dec (amplitude p) (amplitude q)) as [Ha|Ha]; [|exact Ha].
    assert (peak_key_lt q p = true); [|congruence].
    apply peak_key_lt_iff. right. split; [lia|].
    apply Qopp_lt_compat. exact Ha.
  - assert (peak_key_lt q p = true); [|congruence].
    apply peak_key_lt_iff. left. lia.
Qed.

Lemma strongly_sorted_impl {A : Type} (R S : A -> A -> Prop) (l : list A) :
  (forall x y, R x y -> S x y) -> StronglySorted R l -> StronglySorted S l.
Proof.
  intros Himp. induction 1 as [|a l Hs IH Hall]; constructor; [exact IH|].
  eapply Forall_impl; [exact Hall|]. apply Himp.
Qed.

Lemma extract_peaks_sorted (self : AudioFingerprinter) (spectrogram : Spectrogram) :
  StronglySorted peak_order (extract_peaks self spectrogram).
Proof.
  apply (strongly_sorted_impl (in_order peak_key_lt)); [apply in_order_peak_order|].
  apply py_sorted_sorted.
  - apply peak_key_lt_asym.
  - apply peak_key_lt_trans.
Qed.

Lemma extract_peaks_perm (self : AudioFingerprinter) (spectrogram : Spectrogram) :
  Permutation (extract_peaks self spectrogram) (band_peaks self spectrogram).
Proof. apply py_sorted_perm. Qed.

(** *** Where hashes come from *)

Lemma find_targets_from_In (anchor_peak : SpectralPeak)
      (candidate_peaks : list SpectralPeak) (max_targets taken : Z) (p : SpectralPeak) :
  In p (find_targets_from anchor_peak candidate_peaks max_targets taken) ->
  In p candidate_peaks
  /\ HASH_TIME_DELTA_MIN <= time_frame p - time_frame anchor_peak <= HASH_TIME_DELTA_MAX.
Proof.
  revert taken. induction candidate_peaks as [|q rest IH]; intros taken; simpl; [tauto|].
  destruct (Z.ltb_spec (time_frame q - time_frame anchor_peak) HASH_TIME_DELTA_MIN).
  - intros H'. apply IH in H'. tauto.
  - destruct (Z.gtb_spec (time_frame q - time_frame anchor_peak) HASH_TIME_DELTA_MAX);
      [simpl; tauto|].
    destruct (taken + 1 >=? max_targets); simpl.
    + intros [<-|[]]. split; [tauto|lia].
    + intros [<-|H']; [split; [tauto|lia]|]. apply IH in H'. tauto.
Qed.

Lemma create_hash_fields (anchor target : SpectralPeak) (h : AudioHash) :
  _create_hash anchor target = Some h ->
  anchor_freq h = frequency_bin anchor
  /\ target_freq h = frequency_bin target
  /\ time_offset h = time_frame anchor
  /\ time_delta h = time_frame target - time_frame anchor.
Proof.
  unfold _create_hash. destruct (negb _); [discriminate|].
  intros [= <-]. simpl. auto.
Qed.

Lemma create_hash_in_window (anchor target : SpectralPeak) :
  HASH_TIME_DELTA_MIN <= time_frame target - time_frame anchor <= HASH_TIME_DELTA_MAX ->
  exists h, _create_hash anchor target = Some h.
Proof.
  intros H. unfold _create_hash.
  replace (negb _) with false; [eauto|].
  symmetry. apply negb_false_iff, andb_true_iff. split; apply Z.leb_le; lia.
Qed.

Lemma hashes_of_anchor_In (anchor_peak : SpectralPeak)
      (later_peaks : list SpectralPeak) (h : AudioHash) :
  In h (hashes_of_anchor anchor_peak later_peaks) ->
  exists target, In target later_peaks /\ _create_hash anchor_peak target = Some h.
Proof.
  unfold hashes_of_anchor, _find_target_peaks. intros H.
  apply in_flat_map in H. destruct H as (target & Ht & Hh).
  apply find_targets_from_In in Ht. exists target. split; [tauto|].
  destruct (_create_hash anchor_peak target); [|destruct Hh].
  destruct Hh as [->|[]]. reflexivity.
Qed.

Lemma hashes_from_In (peaks_by_time : list SpectralPeak) (h : AudioHash) :
  In h (hashes_from peaks_by_time) ->
  exists anchor target,
    In anchor peaks_by_time /\ In target peaks_by_time
    /\ _create_hash anchor target = Some h.
Proof.
  induction peaks_by_time as [|a later IH]; simpl; [tauto|].
  intros H. apply in_app_or in H. destruct H as [H|H].
  - apply hashes_of_anchor_In in H. destruct H as (t & Ht & Hc).
    exists a, t. auto.
  - destruct (IH H) as (a' & t & Ha & Ht & Hc). exists a', t. auto.
Qed.

Lemma generate_hashes_In (peaks : list SpectralPeak) (h : AudioHash) :
  In h (generate_hashes peaks) ->
  exists anchor target,
    In anchor peaks /\ In target peaks /\ _create_hash anchor target = Some h.
Proof.
  unfold generate_hashes. intros H.
  destruct (hashes_from_In _ _ H) as (a & t & Ha & Ht & Hc).
  exists a, t. split; [|split; [|exact Hc]].
  - eapply Permutation_in; [apply py_sorted_perm|exact Ha].
  - eapply Permutation_in; [apply py_sorted_perm|exact Ht].
Qed.

(** *** Band edges *)

Lemma band_slice_rows (spectrogram : Spectrogram) (low_bin high_bin t : nat) :
  (length (time_slice_of (band_slice spectrogram low_bin high_bin) t)
   <= high_bin - low_bin)%nat.
Proof.
  unfold time_slice_of, band_slice. simpl.
  rewrite length_map, length_firstn. lia.
Qed.

Lemma find_peaks_in_band_inside (spectrogram : Spectrogram) (low_bin high_bin : nat)
      (p : SpectralPeak) :
  In p (_find_peaks_in_band (band_slice spectrogram low_bin high_bin) low_bin) ->
  strictly_inside (low_bin, high_bin) (frequency_bin p).
Proof.
  unfold _find_peaks_in_band. intros H.
  apply in_flat_map in H. destruct H as (t & _ & Hp).
  destruct (strongest_peak_at_spec (band_slice spectrogram low_bin high_bin) low_bin t)
    as [[_ E]|(c & E & Hc & _)]; rewrite E in Hp; [destruct Hp|].
  destruct Hp as [<-|[]].
  apply find_peaks_interior in Hc.
  pose proof (band_slice_rows spectrogram low_bin high_bin t).
  unfold strictly_inside. simpl. lia.
Qed.

Lemma extract_peaks_inside (self : AudioFingerprinter) (spectrogram : Spectrogram)
      (p : SpectralPeak) :
  In p (extract_peaks self spectrogram) ->
  Exists (fun band => strictly_inside band (frequency_bin p)) (band_indices self).
Proof.
  intros H. apply (Permutation_in _ (extract_peaks_perm self spectrogram)) in H.
  unfold band_peaks in H. apply in_flat_map in H.
  destruct H as ([low high] & Hband & Hp). simpl in Hp.
  apply List.Exists_exists. exists (low, high). split; [exact Hband|].
  apply find_peaks_in_band_inside with (spectrogram := spectrogram). exact Hp.
Qed.

End FingerprintingFacts.

(** ** Peaks that survive the selection by distance *)

Module IsolatedPeakFacts.
Import Config Scipy ScipyFacts Fingerprinting FingerprintingFacts.

Lemma strongly_sorted_app_r {A : Type} (R : A -> A -> Prop) (l1 l2 : list A) :
  StronglySorted R (l1 ++ l2) -> StronglySorted R l2.
Proof.
  induction l1 as [|a l1 IH]; cbn [app]; [tauto|].
  intros H. apply StronglySorted_inv in H. apply IH, H.
Qed.

Lemma increasing_NoDup (l : list nat) : StronglySorted lt l -> List.NoDup l.
Proof.
  induction 1 as [|a l _ IH Hall]; constructor; [|exact IH].
  intros Hin. rewrite List.Forall_forall in Hall. specialize (Hall a Hin). lia.
Qed.

Section Isolated.
Variables (peaks : list nat) (distance : Z) (k : nat).

(** A step for a peak that is far from [k] leaves the flag of [k] alone. *)
Lemma kept_far_step (keep : list bool) (j : nat) :
  nth k keep false = true ->
  j = k \/ distance <= Z.abs (position peaks k - position peaks j) ->
  nth k (if nth j keep false then flag_neighbors peaks distance j keep else keep) false
  = true.
Proof.
  intros Hk Hfar. destruct (nth j keep false); [|exact Hk].
  rewrite nth_flag_neighbors, Hk. cbn [andb].
  destruct Hfar as [->|Hfar]; [now rewrite Nat.eqb_refl|].
  apply orb_true_iff. right. apply negb_true_iff, Z.ltb_ge, Hfar.
Qed.

Lemma kept_far_fold (order : list nat) (keep : list bool) :
  nth k keep false = true ->
  Forall (fun j => j = k \/ distance <= Z.abs (position peaks k - position peaks j))
         order ->
  nth k (fold_left (fun keep j => if nth j keep false
                                  then flag_neighbors peaks distance j keep
                                  else keep) order keep) false
  = true.
Proof.
  intros Hk Hall. revert keep Hk.
  induction Hall as [|j order Hj _ IH]; intros keep Hk; cbn [fold_left]; [exact Hk|].
  apply IH, kept_far_step; assumption.
Qed.

Lemma top_kept_at (keep : list bool) :
  nth k keep false = true ->
  top_kept peaks distance k (flag_neighbors peaks distance k keep).
Proof.
  intros Hk. split.
  - rewrite nth_flag_neighbors, Hk, Nat.eqb_refl. reflexivity.
  - intros i Hi. rewrite nth_flag_neighbors in Hi.
    apply andb_true_iff in Hi. destruct Hi as [_ Hi].
    apply orb_true_iff in Hi. destruct Hi as [Hi|Hi].
    + left. apply Nat.eqb_eq, Hi.
    + right. apply negb_true_iff, Z.ltb_ge in Hi. exact Hi.
Qed.
End Isolated.

(** A peak survives the selection by distance when every other peak
    closer than [distance] has a lower priority. *)
Lemma select_by_peak_distance_isolated (peaks : list nat) (priority : list Q)
      (distance : Z) (k : nat) :
  length priority = length peaks -> (k < length peaks)%nat ->
  (forall j, (j < length peaks)%nat -> j <> k ->
             Z.abs (position peaks k - position peaks j) < distance ->
             (item priority j < item priority k)%Q) ->
  nth k (_select_by_peak_distance peaks priority distance) false = true.
Proof.
  intros Hlen Hk Hlower.
  pose proof (argsort_perm priority) as Hperm.
  assert (Hsorted : StronglySorted
            (in_order (fun i j => Qlt_bool (item priority i) (item priority j)))
            (argsort priority)).
  { apply py_sorted_sorted.
    - intros i j. apply priority_lt_asym.
    - intros i j l. apply priority_lt_trans. }
  assert (Hin : In k (argsort priority)).
  { apply (Permutation_in _ (Permutation_sym Hperm)). apply in_seq. lia. }
  destruct (in_split _ _ Hin) as (l1 & l2 & Hsplit).
  unfold _select_by_peak_distance. rewrite Hsplit in *.
  rewrite rev_app_distr. cbn [rev]. rewrite fold_left_app, fold_left_app.
  cbn [fold_left].
  apply strongly_sorted_app_r, StronglySorted_inv in Hsorted.
  destruct Hsorted as [_ Hafter].
  set (keep1 := fold_left _ (rev l2) _).
  assert (Hkeep1 : nth k keep1 false = true).
  { apply kept_far_fold; [apply nth_repeat_lt, Hk|].
    apply List.Forall_forall. intros j Hj. apply in_rev in Hj.
    destruct (Nat.eq_dec j k) as [->|Hne]; [now left|right].
    destruct (Z.le_gt_cases distance (Z.abs (position peaks k - position peaks j)))
      as [Hfar|Hnear]; [exact Hfar|exfalso].
    assert (Hj' : (j < length peaks)%nat).
    { assert (Hj'' : In j (seq 0 (length priority))).
      { apply (Permutation_in _ Hperm). apply in_or_app. right. right. exact Hj. }
      apply in_seq in Hj''. lia. }
    specialize (Hlower j Hj' Hne ltac:(lia)).
    rewrite List.Forall_forall in Hafter. specialize (Hafter j Hj).
    unfold in_order in Hafter. apply Qlt_bool_false in Hafter.
    apply (Qlt_irrefl (item priority k)). eapply Qle_lt_trans; eassumption. }
  rewrite Hkeep1.
  apply (top_kept_fold peaks distance k (rev l1)), top_kept_at, Hkeep1.
Qed.

Lemma find_peaks_keeps_isolated (x : list Q) (height : Q) (distance : Z) (m : nat) :
  In m (_local_maxima_1d x) -> (height <= item x m)%Q ->
  (forall m', In m' (_local_maxima_1d x) -> (height <= item x m')%Q -> m' <> m ->
              Z.abs (Z.of_nat m' - Z.of_nat m) < distance ->
              (item x m' < item x m)%Q) ->
  In m (find_peaks x height distance).
Proof.
  intros Hm Hh Hlower. unfold find_peaks.
  set (peaks := select_by_height x height (_local_maxima_1d x)).
  assert (Hpeaks : forall c, In c peaks <->
                             In c (_local_maxima_1d x) /\ (height <= item x c)%Q).
  { intros c. unfold peaks, select_by_height. rewrite filter_In, Qle_bool_iff. tauto. }
  assert (Hnd : List.NoDup peaks).
  { apply increasing_NoDup, filter_increasing, local_maxima_increasing. }
  destruct (In_nth _ _ O (proj2 (Hpeaks m) (conj Hm Hh))) as (k & Hk & Ek).
  rewrite <- Ek. apply select_mask_kept; [exact Hk|].
  assert (Hitem : forall j, (j < length peaks)%nat ->
                            item (map (item x) peaks) j = item x (nth j peaks O)).
  { intros j Hj. apply item_map_nth, Hj. }
  apply select_by_peak_distance_isolated; [apply length_map|exact Hk|].
  intros j Hj Hne Hnear. rewrite (Hitem j Hj), (Hitem k Hk), Ek.
  assert (Hjin : In (nth j peaks O) peaks) by (apply nth_In, Hj).
  apply Hpeaks in Hjin. destruct Hjin as [Hjm Hjh].
  apply Hlower; [exact Hjm|exact Hjh| |].
  - intros E. apply Hne. rewrite <- Ek in E.
    exact (proj1 (NoDup_nth peaks O) Hnd j k Hj Hk E).
  - unfold position in Hnear. rewrite Ek in Hnear. lia.
Qed.

End IsolatedPeakFacts.

(** ** Claims about the peak picker *)

(** C6.  For every spectrogram: (a) each band contributes at most one peak
    to each time frame; (b) when the column of the band at frame [t] has a
    local maximum that reaches [MIN_PEAK_AMPLITUDE], the band contributes
    exactly one peak to that frame: a local maximum reaching the floor
    whose amplitude is the greatest among all of them, and the lowest bin
    among the candidates of [find_peaks] of that amplitude; in particular
    (b') a bin of the column that exceeds both of its neighbours and
    reaches the floor makes the band emit exactly one peak, at least as
    strong; (c) the merged list is a rearrangement of the peaks of all
    bands, sorted by time frame ascending and, within a frame, by amplitude
    descending; (d) the lowest bin wins a tie when the maxima that share the
    greatest amplitude lie at least [PEAK_NEIGHBORHOOD_SIZE] bins above it:
    the band then emits exactly that maximum; (e) the peak of every band of
    the fingerprinter is in the merged list.  Between tied maxima that are
    closer than [PEAK_NEIGHBORHOOD_SIZE] bins, the selection by distance
    of [find_peaks] decides, and it need not keep the lowest bin. *)
Theorem peak_picker_one_per_band_and_frame :
  forall (self : Fingerprinting.AudioFingerprinter)
         (spectrogram : Fingerprinting.Spectrogram),
    (forall low_bin high_bin t,
        (length (List.filter
                   (fun p => (Fingerprinting.time_frame p =? Z.of_nat t)%Z)
                   (Fingerprinting._find_peaks_in_band
                      (Fingerprinting.band_slice spectrogram low_bin high_bin) low_bin))
         <= 1)%nat)
    /\ (forall low_bin high_bin t m,
           let band := Fingerprinting.band_slice spectrogram low_bin high_bin in
           let time_slice := Fingerprinting.time_slice_of band t in
           (t < Fingerprinting.n_frames spectrogram)%nat ->
           In m (Scipy._local_maxima_1d time_slice) ->
           (Config.MIN_PEAK_AMPLITUDE <= Scipy.item time_slice m)%Q ->
           exists c,
             List.filter (fun p => (Fingerprinting.time_frame p =? Z.of_nat t)%Z)
                         (Fingerprinting._find_peaks_in_band band low_bin)
             = [Fingerprinting.mkPeak (Z.of_nat (c + low_bin)) (Z.of_nat t)
                                      (Scipy.item time_slice c)]
             /\ In c (Scipy._local_maxima_1d time_slice)
             /\ (Config.MIN_PEAK_AMPLITUDE <= Scipy.item time_slice c)%Q
             /\ (forall m', In m' (Scipy._local_maxima_1d time_slice) ->
                            (Config.MIN_PEAK_AMPLITUDE <= Scipy.item time_slice m')%Q ->
                            (Scipy.item time_slice m' <= Scipy.item time_slice c)%Q)
             /\ (forall c', In c' (Scipy.find_peaks time_slice Config.MIN_PEAK_AMPLITUDE
                                                    Config.PEAK_NEIGHBORHOOD_SIZE) ->
                            (Scipy.item time_slice c' == Scipy.item time_slice c)%Q ->
                            (c <= c')%nat))
    /\ (forall low_bin high_bin t i,
           let band := Fingerprinting.band_slice spectrogram low_bin high_bin in
           let time_slice := Fingerprinting.time_slice_of band t in
           (t < Fingerprinting.n_frames spectrogram)%nat ->
           (1 <= i < length time_slice - 1)%nat ->
           (Scipy.item time_slice (i - 1) < Scipy.item time_slice i)%Q ->
           (Scipy.item time_slice (i + 1) < Scipy.item time_slice i)%Q ->
           (Config.MIN_PEAK_AMPLITUDE <= Scipy.item time_slice i)%Q ->
           exists p,
             List.filter (fun p => (Fingerprinting.time_frame p =? Z.of_nat t)%Z)
                         (Fingerprinting._find_peaks_in_band band low_bin)
             = [p]
             /\ (Scipy.item time_slice i <= Fingerprinting.amplitude p)%Q)
    /\ StronglySorted Fingerprinting.peak_order
                      (Fingerprinting.extract_peaks self spectrogram)
    /\ Permutation (Fingerprinting.extract_peaks self spectrogram)
                   (Fingerprinting.band_peaks self spectrogram)
    /\ (forall low_bin high_bin t m,
           let band := Fingerprinting.band_slice spectrogram low_bin high_bin in
           let time_slice := Fingerprinting.time_slice_of band t in
           (t < Fingerprinting.n_frames spectrogram)%nat ->
           In m (Scipy._local_maxima_1d time_slice) ->
           (Config.MIN_PEAK_AMPLITUDE <= Scipy.item time_slice m)%Q ->
           (forall m', In m' (Scipy._local_maxima_1d time_slice) ->
                       (Config.MIN_PEAK_AMPLITUDE <= Scipy.item time_slice m')%Q ->
                       (Scipy.item time_slice m' <= Scipy.item time_slice m)%Q
                       /\ ((Scipy.item time_slice m' == Scipy.item time_slice m)%Q ->
                           m' <> m ->
                           Config.PEAK_NEIGHBORHOOD_SIZE
                           <= Z.of_nat m' - Z.of_nat m)) ->
           List.filter (fun p => (Fingerprinting.time_frame p =? Z.of_nat t)%Z)
                       (Fingerprinting._find_peaks_in_band band low_bin)
           = [Fingerprinting.mkPeak (Z.of_nat (m + low_bin)) (Z.of_nat t)
                                    (Scipy.item time_slice m)])
    /\ (forall band t m,
           let time_slice :=
             Fingerprinting.time_slice_of
               (Fingerprinting.band_slice spectrogram (fst band) (snd band)) t in
           In band (Fingerprinting.band_indices self) ->
           (t < Fingerprinting.n_frames spectrogram)%nat ->
           In m (Scipy._local_maxima_1d time_slice) ->
           (Config.MIN_PEAK_AMPLITUDE <= Scipy.item time_slice m)%Q ->
           exists c,
             In (Fingerprinting.mkPeak (Z.of_nat (c + fst band)) (Z.of_nat t)
                                       (Scipy.item time_slice c))
                (Fingerprinting.extract_peaks self spectrogram)
             /\ In c (Scipy._local_maxima_1d time_slice)
             /\ (Config.MIN_PEAK_AMPLITUDE <= Scipy.item time_slice c)%Q
             /\ forall m', In m' (Scipy._local_maxima_1d time_slice) ->
                           (Config.MIN_PEAK_AMPLITUDE <= Scipy.item time_slice m')%Q ->
                           (Scipy.item time_slice m' <= Scipy.item time_slice c)%Q).
Proof.
  intros self spectrogram.
  assert (Hone : forall low_bin high_bin t m,
    let band := Fingerprinting.band_slice spectrogram low_bin high_bin in
    let time_slice := Fingerprinting.time_slice_of band t in
    (t < Fingerprinting.n_frames spectrogram)%nat ->
    In m (Scipy._local_maxima_1d time_slice) ->
    (Config.MIN_PEAK_AMPLITUDE <= Scipy.item time_slice m)%Q ->
    exists c,
      List.filter (fun p => (Fingerprinting.time_frame p =? Z.of_nat t)%Z)
                  (Fingerprinting._find_peaks_in_band band low_bin)
      = [Fingerprinting.mkPeak (Z.of_nat (c + low_bin)) (Z.of_nat t)
                               (Scipy.item time_slice c)]
      /\ In c (Scipy._local_maxima_1d time_slice)
      /\ (Config.MIN_PEAK_AMPLITUDE <= Scipy.item time_slice c)%Q
      /\ (forall m', In m' (Scipy._local_maxima_1d time_slice) ->
                     (Config.MIN_PEAK_AMPLITUDE <= Scipy.item time_slice m')%Q ->
                     (Scipy.item time_slice m' <= Scipy.item time_slice c)%Q)
      /\ (forall c', In c' (Scipy.find_peaks time_slice Config.MIN_PEAK_AMPLITUDE
                                             Config.PEAK_NEIGHBORHOOD_SIZE) ->
                     (Scipy.item time_slice c' == Scipy.item time_slice c)%Q ->
                     (c <= c')%nat));
    [|split; [|split; [exact Hone|split; [|split; [|split; [|split]]]]]].
  - intros low_bin high_bin t m band time_slice Ht Hm Hfloor.
    rewrite FingerprintingFacts.find_peaks_in_band_frame.
    rewrite bool_decide_eq_true_2 by exact Ht.
    destruct (ScipyFacts.find_peaks_keeps_highest time_slice Config.MIN_PEAK_AMPLITUDE
                Config.PEAK_NEIGHBORHOOD_SIZE m Hm Hfloor) as (c0 & Hc0 & Hhigh).
    destruct (FingerprintingFacts.strongest_peak_at_spec band low_bin t)
      as [[E _]|(c & E & Hc & Hmax & Htie)].
    + fold time_slice in E. rewrite E in Hc0. destruct Hc0.
    + fold time_slice in E, Hc, Hmax, Htie.
      exists c. split; [exact E|].
      destruct (ScipyFacts.find_peaks_sound _ _ _ _ Hc) as [Hloc Hfl].
      split; [exact Hloc|]. split; [exact Hfl|]. split; [|exact Htie].
      intros m' Hm' Hfl'. eapply Qle_trans; [apply Hhigh; assumption|].
      apply Hmax, Hc0.
  - intros low_bin high_bin t.
    rewrite FingerprintingFacts.find_peaks_in_band_frame.
    case_bool_decide; [apply FingerprintingFacts.strongest_peak_at_le_1|simpl; lia].
  - intros low_bin high_bin t i band time_slice Ht Hi Hrise Hfall Hfloor.
    destruct (Hone low_bin high_bin t i Ht
                (ScipyFacts.local_maxima_complete time_slice i Hi Hrise Hfall) Hfloor)
      as (c & E & Hloc & _ & Hmax & _).
    eexists. split; [exact E|].
    simpl. apply Hmax; [|exact Hfloor].
    apply ScipyFacts.local_maxima_complete; assumption.
  - apply FingerprintingFacts.extract_peaks_sorted.
  - apply FingerprintingFacts.extract_peaks_perm.
  - intros low_bin high_bin t m band time_slice Ht Hm Hfloor Htop.
    destruct (Hone low_bin high_bin t m Ht Hm Hfloor)
      as (c & E & Hloc & Hfl & Hmax & Htie).
    fold band time_slice in E.
    assert (Hsurvives : In m (Scipy.find_peaks time_slice Config.MIN_PEAK_AMPLITUDE
                                               Config.PEAK_NEIGHBORHOOD_SIZE)).
    { apply IsolatedPeakFacts.find_peaks_keeps_isolated; [exact Hm|exact Hfloor|].
      intros m' Hm' Hfl' Hne Hnear.
      destruct (Htop m' Hm' Hfl') as [Hle Hapart].
      destruct (Qle_lt_or_eq _ _ Hle) as [Hlt|Heq]; [exact Hlt|].
      specialize (Hapart Heq Hne). lia. }
    assert (Hsame : (Scipy.item time_slice m == Scipy.item time_slice c)%Q).
    { apply Qle_antisym; [apply Hmax; assumption|].
      apply (proj1 (Htop c Hloc Hfl)). }
    assert (Hcm : c = m).
    { pose proof (Htie m Hsurvives Hsame) as Hle.
      destruct (Nat.eq_dec c m) as [->|Hne]; [reflexivity|].
      pose proof (proj2 (Htop c Hloc Hfl) (Qeq_sym _ _ Hsame) Hne) as Hapart.
      unfold Config.PEAK_NEIGHBORHOOD_SIZE in Hapart. lia. }
    rewrite E, Hcm. reflexivity.
  - intros [low_bin high_bin] t m time_slice Hband Ht Hm Hfloor.
    cbn [fst snd] in *.
    destruct (Hone low_bin high_bin t m Ht Hm Hfloor)
      as (c & E & Hloc & Hfl & Hmax & _).
    exists c. split; [|auto].
    apply (Permutation_in
             _ (Permutation_sym
                  (FingerprintingFacts.extract_peaks_perm self spectrogram))).
    unfold Fingerprinting.band_peaks. apply in_flat_map.
    exists (low_bin, high_bin). split; [exact Hband|]. cbn [fst snd].
    assert (Hin : In (Fingerprinting.mkPeak (Z.of_nat (c + low_bin)) (Z.of_nat t)
                                            (Scipy.item time_slice c))
                     (List.filter
                        (fun p => (Fingerprinting.time_frame p =? Z.of_nat t)%Z)
                        (Fingerprinting._find_peaks_in_band
                           (Fingerprinting.band_slice spectrogram low_bin high_bin)
                           low_bin))).
    { rewrite E. left. reflexivity. }
    apply filter_In in Hin. exact (proj1 Hin).
Qed.

(** The claim as the specification words it, at [tied_spectrogram]: the
    maxima in bins 30 and 32 share the greatest amplitude, and the band
    emits bin 32, not the lowest bin. *)
Lemma lowest_bin_does_not_win_every_tie :
  ~ (forall c,
        In c (Scipy._local_maxima_1d Examples.tied_slice) ->
        (Config.MIN_PEAK_AMPLITUDE <= Scipy.item Examples.tied_slice c)%Q ->
        (forall m, In m (Scipy._local_maxima_1d Examples.tied_slice) ->
                   (Config.MIN_PEAK_AMPLITUDE <= Scipy.item Examples.tied_slice m)%Q ->
                   (Scipy.item Examples.tied_slice m <= Scipy.item Examples.tied_slice c)%Q
                   /\ ((Scipy.item Examples.tied_slice m
                        == Scipy.item Examples.tied_slice c)%Q ->
                       (c <= m)%nat)) ->
        Fingerprinting._find_peaks_in_band
          (Fingerprinting.band_slice Examples.tied_spectrogram 28 47) 28
        = [Fingerprinting.mkPeak (Z.of_nat (c + 28)) 0
                                 (Scipy.item Examples.tied_slice c)]).
Proof.
  intros H. specialize (H 2%nat).
  assert (Hmaxima : Scipy._local_maxima_1d Examples.tied_slice = [2; 4]%nat)
    by (vm_compute; reflexivity).
  rewrite Hmaxima in H.
  assert (Hemitted : Fingerprinting._find_peaks_in_band
                       (Fingerprinting.band_slice Examples.tied_spectrogram 28 47) 28
                     = [Fingerprinting.mkPeak 32 0 1])
    by (vm_compute; reflexivity).
  rewrite Hemitted in H.
  assert (Habsurd : [Fingerprinting.mkPeak 32 0 1]
                    = [Fingerprinting.mkPeak (Z.of_nat (2 + 28)) 0
                                             (Scipy.item Examples.tied_slice 2)]).
  { apply H.
    - left. reflexivity.
    - vm_compute. discriminate.
    - intros m [<-|[<-|[]]] _; split; try (vm_compute; discriminate); intros _; lia. }
  vm_compute in Habsurd. discriminate Habsurd.
Qed.

Example tied_maxima_keep_the_higher_bin :
  Fingerprinting._find_peaks_in_band
    (Fingerprinting.band_slice Examples.tied_spectrogram 28 47) 28
  = [Fingerprinting.mkPeak 32 0 1].
Proof. vm_compute. reflexivity. Qed.

Lemma peak_picker_one_per_band_and_frame_witness :
  exists c,
    List.filter (fun p => Fingerprinting.time_frame p =? 0)
                (Fingerprinting._find_peaks_in_band
                   (Fingerprinting.band_slice Examples.tone_spectrogram 28 47) 28)
    = [Fingerprinting.mkPeak (Z.of_nat (c + 28)) 0 (Scipy.item Examples.tone_slice c)]
    /\ In c (Scipy._local_maxima_1d Examples.tone_slice)
    /\ (Config.MIN_PEAK_AMPLITUDE <= Scipy.item Examples.tone_slice c)%Q
    /\ (forall m', In m' (Scipy._local_maxima_1d Examples.tone_slice) ->
                   (Config.MIN_PEAK_AMPLITUDE <= Scipy.item Examples.tone_slice m')%Q ->
                   (Scipy.item Examples.tone_slice m' <= Scipy.item Examples.tone_slice c)%Q)
    /\ (forall c', In c' (Scipy.find_peaks Examples.tone_slice Config.MIN_PEAK_AMPLITUDE
                                           Config.PEAK_NEIGHBORHOOD_SIZE) ->
                   (Scipy.item Examples.tone_slice c' == Scipy.item Examples.tone_slice c)%Q ->
                   (c <= c')%nat).
Proof.
  apply (proj1 (proj2 (peak_picker_one_per_band_and_frame
                         (Fingerprinting.new_fingerprinter 22050 2048 512)
                         Examples.tone_spectrogram))
               28%nat 47%nat 0%nat 2%nat).
  - simpl. lia.
  - vm_compute. left. reflexivity.
  - vm_compute. discriminate.
Defined.

(** C10.  For every spectrogram and every band [(low_bin, high_bin)], each
    peak the band emits lies strictly between [low_bin] and
    [high_bin - 1]; hence every peak of [extract_peaks], and the anchor and
    the target bin of every hash made from them, is strictly inside one of
    the configured bands. *)
Theorem band_edges_never_peak :
  forall (self : Fingerprinting.AudioFingerprinter)
         (spectrogram : Fingerprinting.Spectrogram),
    (forall low_bin high_bin,
        Forall (fun p => Fingerprinting.strictly_inside
                           (low_bin, high_bin) (Fingerprinting.frequency_bin p))
               (Fingerprinting._find_peaks_in_band
                  (Fingerprinting.band_slice spectrogram low_bin high_bin) low_bin))
    /\ Forall (fun p => Exists (fun band => Fingerprinting.strictly_inside
                                             band (Fingerprinting.frequency_bin p))
                               (Fingerprinting.band_indices self))
              (Fingerprinting.extract_peaks self spectrogram)
    /\ Forall (fun h => Exists (fun band => Fingerprinting.strictly_inside
                                             band (Fingerprinting.anchor_freq h))
                               (Fingerprinting.band_indices self)
                        /\ Exists (fun band => Fingerprinting.strictly_inside
                                                 band (Fingerprinting.target_freq h))
                                  (Fingerprinting.band_indices self))
              (Fingerprinting.generate_hashes
                 (Fingerprinting.extract_peaks self spectrogram)).
Proof.
  intros self spectrogram. split; [|split].
  - intros low_bin high_bin. apply List.Forall_forall. intros p Hp.
    eapply FingerprintingFacts.find_peaks_in_band_inside, Hp.
  - apply List.Forall_forall. intros p Hp.
    eapply FingerprintingFacts.extract_peaks_inside, Hp.
  - apply List.Forall_forall. intros h Hh.
    apply FingerprintingFacts.generate_hashes_In in Hh.
    destruct Hh as (a & t & Ha & Ht & Hc).
    apply FingerprintingFacts.create_hash_fields in Hc.
    destruct Hc as (-> & -> & _).
    split; eapply FingerprintingFacts.extract_peaks_inside; eassumption.
Qed.

(** With the default parameters the bands are bins 28..46, 47..92, 93..139
    and 140..185, and none of the eight edge bins is ever a peak. *)
Example default_band_indices :
  Fingerprinting.band_indices (Fingerprinting.new_fingerprinter 22050 2048 512)
  = [(28, 47); (47, 93); (93, 140); (140, 186)]%nat.
Proof. vm_compute. reflexivity. Qed.

Example default_band_edges_never_peak :
  forall (spectrogram : Fingerprinting.Spectrogram) (p : Fingerprinting.SpectralPeak),
    In p (Fingerprinting.extract_peaks
            (Fingerprinting.new_fingerprinter 22050 2048 512) spectrogram) ->
    ~ In (Fingerprinting.frequency_bin p) [28; 46; 47; 92; 93; 139; 140; 185].
Proof.
  intros spectrogram p Hp Hedge.
  apply FingerprintingFacts.extract_peaks_inside in Hp.
  rewrite default_band_indices in Hp.
  apply List.Exists_exists in Hp. destruct Hp as (band & Hband & Hin).
  unfold Fingerprinting.strictly_inside in Hin. simpl in Hband, Hedge.
  repeat (destruct Hband as [<-|Hband]; [simpl in Hin; lia|]). destruct Hband.
Qed.

(** The steady partial of [Examples.tone_spectrogram] is picked up once per
    frame, at bin 30, and the two peaks make one hash. *)
Example tone_peaks :
  Fingerprinting.extract_peaks (Fingerprinting.new_fingerprinter 22050 2048 512)
                               Examples.tone_spectrogram
  = [Fingerprinting.mkPeak 30 0 1; Fingerprinting.mkPeak 30 1 1].
Proof. vm_compute. reflexivity. Qed.

Example tone_hashes :
  Fingerprinting.generate_hashes
    [Fingerprinting.mkPeak 30 0 1; Fingerprinting.mkPeak 30 1 1]
  = [Fingerprinting.mkHash "f010529254cc9b31" 0 30 30 1].
Proof. vm_compute. reflexivity. Qed.

(** ** Claims about hash generation *)

Lemma ascending_by_time_sorted (l : list Fingerprinting.SpectralPeak) :
  Fingerprinting.ascending_by_time l = true ->
  StronglySorted
    (in_order (fun p q => Fingerprinting.time_frame p <? Fingerprinting.time_frame q)) l.
Proof.
  intros H. apply Sorted_StronglySorted.
  - intros p q r. unfold in_order. rewrite !Z.ltb_ge. lia.
  - induction l as [|p l IH]; [constructor|].
    destruct l as [|q rest]; [repeat constructor|].
    change (Fingerprinting.ascending_by_time (p :: q :: rest))
      with ((Fingerprinting.time_frame p <=? Fingerprinting.time_frame q)
            && Fingerprinting.ascending_by_time (q :: rest)) in H.
    apply andb_true_iff in H. destruct H as [H1 H2].
    constructor; [apply IH, H2|].
    constructor. unfold in_order. apply Z.ltb_ge. apply Z.leb_le in H1. exact H1.
Qed.

(** C5.  [_create_hash] gives equal [hash_value]s to any two peak pairs
    with equal anchor bin, target bin and time delta, wherever the peaks
    lie in time and whatever their amplitudes; and two runs of
    [fingerprint_audio] on the same audio, for which the STFT returns the
    same matrix, agree: the same multiset of hashes, or the same
    exception. *)
Theorem fingerprinting_deterministic :
  (forall a1 t1 a2 t2 : Fingerprinting.SpectralPeak,
      Fingerprinting.frequency_bin a1 = Fingerprinting.frequency_bin a2 ->
      Fingerprinting.frequency_bin t1 = Fingerprinting.frequency_bin t2 ->
      Fingerprinting.time_frame t1 - Fingerprinting.time_frame a1
      = Fingerprinting.time_frame t2 - Fingerprinting.time_frame a2 ->
      option_map Fingerprinting.hash_value (Fingerprinting._create_hash a1 t1)
      = option_map Fingerprinting.hash_value (Fingerprinting._create_hash a2 t2))
  /\ (forall first_stft second_stft self audio,
         first_stft self audio = second_stft self audio ->
         Fingerprinting.same_fingerprint
           (Fingerprinting.fingerprint_audio first_stft self audio)
           (Fingerprinting.fingerprint_audio second_stft self audio)).
Proof.
  split.
  - intros a1 t1 a2 t2 Ha Ht Hd. unfold Fingerprinting._create_hash.
    rewrite Ha, Ht, Hd. destruct (negb _); reflexivity.
  - intros stft1 stft2 self audio E. unfold Fingerprinting.fingerprint_audio.
    rewrite E.
    destruct (bind_outcome _ _); simpl; reflexivity.
Qed.

Lemma fingerprinting_deterministic_witness :
  option_map Fingerprinting.hash_value
             (Fingerprinting._create_hash Examples.anchor_1 Examples.target_1)
  = option_map Fingerprinting.hash_value
               (Fingerprinting._create_hash Examples.anchor_2 Examples.target_2).
Proof.
  apply (proj1 fingerprinting_deterministic
               Examples.anchor_1 Examples.target_1 Examples.anchor_2 Examples.target_2);
    reflexivity.
Defined.

(** The key of the pair above and its digest, as Python computes them. *)
Example create_hash_example :
  Fingerprinting._create_hash Examples.anchor_1 Examples.target_1
  = Some (Fingerprinting.mkHash "d2eefa2ab3e7214f" 0 28 47 1).
Proof. vm_compute. reflexivity. Qed.

(** C3.  [generate_hashes] applies no cap: on the constellation
    [Examples.dense_peaks] it returns 10016 hashes, more than
    [MAX_FINGERPRINTS_PER_TRACK]. *)
Theorem fingerprint_cap_not_enforced :
  Z.of_nat (length (Fingerprinting.generate_hashes Examples.dense_peaks)) = 10016
  /\ Config.MAX_FINGERPRINTS_PER_TRACK < 10016.
Proof.
  split; [|reflexivity].
  unfold Fingerprinting.generate_hashes.
  rewrite py_sorted_ascending.
  - reflexivity.
  - apply ascending_by_time_sorted. vm_compute. reflexivity.
Qed.

(** ** The two stores *)

Module DatabaseFacts.
Import Config Fingerprinting Database.

Lemma fold_max_ge (seq0 : Z) (l : list Z) :
  seq0 <= fold_right Z.max seq0 l /\ Forall (fun x => x <= fold_right Z.max seq0 l) l.
Proof.
  induction l as [|x l [IH1 IH2]]; simpl.
  - split; [lia|constructor].
  - split; [lia|]. constructor; [lia|].
    eapply Forall_impl; [exact IH2|]. simpl. intros; lia.
Qed.

Lemma next_rowid_fresh (db : FingerprintDatabase) :
  sqlite_sequence db < next_rowid db
  /\ Forall (fun r => id r < next_rowid db) (songs db).
Proof.
  unfold next_rowid.
  destruct (fold_max_ge (sqlite_sequence db) (map id (songs db))) as [H1 H2].
  split; [lia|]. rewrite Forall_map in H2.
  eapply Forall_impl; [exact H2|]. simpl. intros; lia.
Qed.

Lemma next_rowid_consistent (db : FingerprintDatabase) :
  consistent db -> next_rowid db = sqlite_sequence db + 1.
Proof.
  intros (_ & _ & Hb). unfold next_rowid. f_equal.
  induction Hb as [|r l Hr _ IH]; simpl; [reflexivity|]. rewrite IH. lia.
Qed.

(** What a call of [add_song] does to the stores, by the point at which it
    stops. *)
Lemma add_song_spec (db : FingerprintDatabase) (io : Backends)
      (title artist path : string) (fingerprints : list AudioHash)
      (album : option string) (duration : option Q) (file_size : option Z) :
  let res := add_song db io title artist path fingerprints album duration file_size in
  (sqlite_ok io = false /\ res = (db, Raised "OperationalError"))
  \/ (sqlite_ok io = true
      /\ songs (fst res)
         = List.filter (fun r => negb (bool_decide (file_path r = path))) (songs db)
           ++ [new_row db title artist path fingerprints album duration file_size]
      /\ sqlite_sequence (fst res) = next_rowid db
      /\ fingerprint_stats (fst res) = fingerprint_stats db
      /\ ((snd res = Returned (next_rowid db)
           /\ redis_client (fst res) = with_postings db (next_rowid db) fingerprints
           /\ (redis_ok io = true \/ redis_client db = None \/ fingerprints = []))
          \/ (snd res = Raised "ConnectionError"
              /\ redis_ok io = false
              /\ redis_client (fst res) = redis_client db
              /\ redis_client db <> None /\ fingerprints <> []))).
Proof.
  unfold add_song, with_postings. destruct (sqlite_ok io); simpl; [right|left; auto].
  split; [reflexivity|].
  destruct (redis_client db) as [store|] eqn:Hredis; simpl.
  - destruct fingerprints as [|fp fps]; simpl.
    + do 3 (split; [reflexivity|]). left. auto.
    + unfold _store_fingerprints_redis. simpl.
      destruct (redis_ok io); simpl.
      * do 3 (split; [reflexivity|]). left. auto.
      * do 3 (split; [reflexivity|]). right. repeat split; auto; discriminate.
  - destruct fingerprints; simpl; rewrite ?Hredis;
      (do 3 (split; [reflexivity|])); left; auto.
Qed.

(** *** The postings index *)

Lemma lrange_lpush (store : gmap string (list StoredOccurrence))
      (k key : string) (v : StoredOccurrence) :
  lrange_all (lpush store k v) key
  = if decide (k = key) then v :: lrange_all store k else lrange_all store key.
Proof.
  unfold lrange_all, lpush. rewrite lookup_insert.
  destruct (decide (k = key)); reflexivity.
Qed.

Lemma queued_pushes_In (sid : Z) (fingerprints : list AudioHash)
      (store : gmap string (list StoredOccurrence)) (key : string)
      (occurrence : StoredOccurrence) :
  In occurrence (lrange_all (queued_pushes sid fingerprints store) key) ->
  In occurrence (lrange_all store key) \/ song_id occurrence = sid.
Proof.
  unfold queued_pushes. revert store.
  induction fingerprints as [|fp fps IH]; intros store; simpl; [auto|].
  intros H. apply IH in H. destruct H as [H|H]; [|auto].
  rewrite lrange_lpush in H. destruct (decide (hash_key (hash_value fp) = key)) as [<-|].
  - destruct H as [<-|H]; [right; reflexivity|left; exact H].
  - left. exact H.
Qed.

Lemma queued_pushes_keeps (sid : Z) (fingerprints : list AudioHash)
      (store : gmap string (list StoredOccurrence)) (key : string)
      (occurrence : StoredOccurrence) :
  In occurrence (lrange_all store key) ->
  In occurrence (lrange_all (queued_pushes sid fingerprints store) key).
Proof.
  unfold queued_pushes. revert store.
  induction fingerprints as [|fp fps IH]; intros store H; simpl; [exact H|].
  apply IH. rewrite lrange_lpush.
  destruct (decide (hash_key (hash_value fp) = key)) as [<-|]; [right|]; exact H.
Qed.

(** After the commit, every hash of the song has its posting. *)
Lemma queued_pushes_all (sid : Z) (fingerprints : list AudioHash)
      (store : gmap string (list StoredOccurrence)) (fp : AudioHash) :
  In fp fingerprints ->
  In (mkStored sid (time_offset fp) (anchor_freq fp) (target_freq fp) (time_delta fp))
     (lrange_all (queued_pushes sid fingerprints store) (hash_key (hash_value fp))).
Proof.
  revert store. induction fingerprints as [|fp' fps IH]; intros store; simpl; [tauto|].
  intros [->|H].
  - apply queued_pushes_keeps. rewrite lrange_lpush.
    rewrite decide_True by reflexivity. left. reflexivity.
  - apply IH, H.
Qed.

(** *** The metadata table *)

Lemma find_id_None (l : list SongRow) (sid : Z) :
  find (fun r => id r =? sid) l = None <-> Forall (fun r => id r <> sid) l.
Proof.
  induction l as [|r l IH]; simpl.
  - split; [constructor|reflexivity].
  - destruct (Z.eqb_spec (id r) sid) as [E|E].
    + split; [discriminate|]. intros H. inversion H; subst. congruence.
    + rewrite IH. split.
      * intros H. constructor; assumption.
      * intros H. inversion H; assumption.
Qed.

Lemma find_id_Some (l : list SongRow) (sid : Z) (r : SongRow) :
  find (fun r => id r =? sid) l = Some r -> In r l /\ id r = sid.
Proof.
  intros H. apply find_some in H. destruct H as [H1 H2].
  split; [exact H1|]. apply Z.eqb_eq, H2.
Qed.

Lemma NoDup_map_filter {A B : Type} (f : A -> B) (g : A -> bool) (l : list A) :
  List.NoDup (map f l) -> List.NoDup (map f (List.filter g l)).
Proof.
  induction l as [|a l IH]; simpl; intros H; [constructor|].
  inversion H as [|? ? Hnotin Hnd]; subst.
  destruct (g a); simpl; [|apply IH, Hnd].
  constructor; [|apply IH, Hnd].
  intros Hin. apply Hnotin. apply in_map_iff in Hin.
  destruct Hin as (x & Hx & Hin). apply filter_In in Hin.
  apply in_map_iff. exists x. tauto.
Qed.

Lemma NoDup_snoc {A : Type} (l : list A) (x : A) :
  List.NoDup l -> ~ In x l -> List.NoDup (l ++ [x]).
Proof.
  intros Hnd Hnotin.
  apply (Permutation.Permutation_NoDup (l := x :: l)).
  - apply Permutation_cons_append.
  - constructor; assumption.
Qed.

Lemma consistent_new (redis_reachable : bool) :
  consistent (new_database redis_reachable)
  /\ postings_bounded (new_database redis_reachable).
Proof.
  split.
  - repeat split; constructor.
  - intros sid (store & key & occ & Hs & Hin & _).
    unfold new_database in Hs. simpl in Hs.
    destruct redis_reachable; [|discriminate].
    injection Hs as <-. unfold lrange_all in Hin. rewrite lookup_empty in Hin.
    destruct Hin.
Qed.

Lemma consistent_add_song (db : FingerprintDatabase) (io : Backends)
      (title artist path : string) (fingerprints : list AudioHash)
      (album : option string) (duration : option Q) (file_size : option Z) :
  consistent db ->
  consistent (fst (add_song db io title artist path fingerprints
                            album duration file_size)).
Proof.
  intros (Hp & Hi & Hb).
  destruct (add_song_spec db io title artist path fingerprints album duration file_size)
    as [[_ ->]|(_ & Hsongs & Hseq & _)]; [repeat split; assumption|].
  destruct (next_rowid_fresh db) as [Hfresh1 Hfresh2].
  unfold consistent. rewrite Hsongs, Hseq, !map_app. simpl.
  split; [|split].
  - apply NoDup_snoc; [apply NoDup_map_filter, Hp|].
    intros Hin. apply in_map_iff in Hin. destruct Hin as (r & Hr & Hin).
    apply filter_In in Hin. destruct Hin as [_ Hin].
    apply negb_true_iff, bool_decide_eq_false in Hin. congruence.
  - apply NoDup_snoc; [apply NoDup_map_filter, Hi|].
    intros Hin. apply in_map_iff in Hin. destruct Hin as (r & Hr & Hin).
    apply filter_In in Hin. destruct Hin as [Hin _].
    rewrite List.Forall_forall in Hfresh2. specialize (Hfresh2 r Hin). lia.
  - apply Forall_app. split.
    + apply List.Forall_forall. intros r Hr. apply filter_In in Hr.
      rewrite List.Forall_forall in Hfresh2. specialize (Hfresh2 r (proj1 Hr)). lia.
    + constructor; [simpl; lia|constructor].
Qed.

Lemma postings_bounded_add_song (db : FingerprintDatabase) (io : Backends)
      (title artist path : string) (fingerprints : list AudioHash)
      (album : option string) (duration : option Q) (file_size : option Z) :
  postings_bounded db ->
  postings_bounded (fst (add_song db io title artist path fingerprints
                                  album duration file_size)).
Proof.
  intros Hb.
  destruct (add_song_spec db io title artist path fingerprints album duration file_size)
    as [[_ ->]|(_ & _ & Hseq & _ & Hredis)]; [exact Hb|].
  destruct (next_rowid_fresh db) as [Hfresh _].
  intros sid (store & key & occ & Hs & Hin & Hsid). rewrite Hseq.
  assert (Hold : forall st, redis_client db = Some st ->
                            In occ (lrange_all st key) -> sid <= next_rowid db).
  { intros st Hst Hocc.
    assert (sid <= sqlite_sequence db); [|lia].
    apply Hb. exists st, key, occ. auto. }
  destruct Hredis as [(_ & Hr & _)|(_ & _ & Hr & _)]; rewrite Hr in Hs.
  - unfold with_postings in Hs.
    destruct (redis_client db) as [st|] eqn:Hst; [|discriminate].
    destruct fingerprints as [|fp fps].
    + injection Hs as <-. eapply Hold; eauto.
    + injection Hs as <-.
      apply (queued_pushes_In (next_rowid db) (fp :: fps) st) in Hin.
      destruct Hin as [Hin|Hin]; [eapply Hold; eauto|lia].
  - eapply Hold; eauto.
Qed.

Lemma remove_song_spec (db : FingerprintDatabase) (io : Backends) (sid : Z) :
  let res := remove_song db io sid in
  (snd res = false /\ fst res = db)
  \/ (snd res = true
      /\ sqlite_ok io = true
      /\ (exists r, get_song_metadata db sid = Some r)
      /\ songs (fst res) = List.filter (fun r => negb (id r =? sid)) (songs db)
      /\ sqlite_sequence (fst res) = sqlite_sequence db
      /\ redis_client (fst res) = redis_client db).
Proof.
  unfold remove_song. destruct (sqlite_ok io); simpl; [|left; auto].
  destruct (get_song_metadata db sid) as [r|]; simpl; [right|left; auto].
  repeat split; eauto.
Qed.

Lemma consistent_remove_song (db : FingerprintDatabase) (io : Backends) (sid : Z) :
  consistent db -> consistent (fst (remove_song db io sid)).
Proof.
  intros (Hp & Hi & Hb).
  destruct (remove_song_spec db io sid) as [[_ ->]|(_ & _ & _ & Hsongs & Hseq & _)];
    [repeat split; assumption|].
  unfold consistent. rewrite Hsongs, Hseq. split; [|split].
  - apply NoDup_map_filter, Hp.
  - apply NoDup_map_filter, Hi.
  - apply List.Forall_forall. intros r Hr. apply filter_In in Hr.
    rewrite List.Forall_forall in Hb. apply Hb, Hr.
Qed.

Lemma postings_bounded_remove_song (db : FingerprintDatabase) (io : Backends) (sid : Z) :
  postings_bounded db -> postings_bounded (fst (remove_song db io sid)).
Proof.
  intros Hb.
  destruct (remove_song_spec db io sid) as [[_ ->]|(_ & _ & _ & _ & Hseq & Hredis)];
    [exact Hb|].
  intros s (store & key & occ & Hs & Hin & Hsid). rewrite Hseq.
  apply Hb. exists store, key, occ. rewrite <- Hredis. auto.
Qed.

(** Every state a history leads to from fresh stores is consistent. *)
Lemma consistent_run (ops : list Op) (db : FingerprintDatabase) :
  consistent db -> postings_bounded db ->
  consistent (run ops db) /\ postings_bounded (run ops db).
Proof.
  unfold run. revert db. induction ops as [|op ops IH]; intros db Hc Hb; simpl; [auto|].
  apply IH; destruct op; simpl.
  - apply consistent_add_song, Hc.
  - apply consistent_remove_song, Hc.
  - apply postings_bounded_add_song, Hb.
  - apply postings_bounded_remove_song, Hb.
Qed.

(** *** Insert or replace *)

Lemma find_path_Some (l : list SongRow) (path : string) (r : SongRow) :
  find (fun r => bool_decide (file_path r = path)) l = Some r ->
  In r l /\ file_path r = path.
Proof.
  intros H. apply find_some in H. destruct H as [H1 H2].
  split; [exact H1|]. apply bool_decide_eq_true in H2. exact H2.
Qed.

Lemma find_path_None (l : list SongRow) (path : string) :
  find (fun r => bool_decide (file_path r = path)) l = None ->
  List.filter (fun r => negb (bool_decide (file_path r = path))) l = l.
Proof.
  intros H. apply forallb_filter_id, forallb_forall. intros r Hr.
  apply negb_true_iff. exact (find_none _ _ H r Hr).
Qed.

Lemma filter_other_paths_absent (l : list SongRow) (path : string) :
  ~ In path (map file_path l) ->
  List.filter (fun r => negb (bool_decide (file_path r = path))) l = l.
Proof.
  intros H. apply forallb_filter_id, forallb_forall. intros r Hr.
  apply negb_true_iff, bool_decide_eq_false. intros E. apply H.
  apply in_map_iff. exists r. auto.
Qed.

(** Under the UNIQUE constraint, replacing deletes exactly one row. *)
Lemma filter_other_paths_length (l : list SongRow) (path : string) (r0 : SongRow) :
  List.NoDup (map file_path l) -> In r0 l -> file_path r0 = path ->
  S (length (List.filter (fun r => negb (bool_decide (file_path r = path))) l))
  = length l.
Proof.
  induction l as [|a l IH]; simpl; intros Hnd Hin Hpath; [destruct Hin|].
  inversion Hnd as [|? ? Hnotin Hnd']; subst.
  destruct (bool_decide (file_path a = file_path r0)) eqn:E; simpl.
  - apply bool_decide_eq_true in E. rewrite E in Hnotin.
    rewrite filter_other_paths_absent by exact Hnotin. reflexivity.
  - apply bool_decide_eq_false in E. destruct Hin as [->|Hin]; [congruence|].
    f_equal. apply IH; auto.
Qed.

Lemma find_app_None {A : Type} (f : A -> bool) (l1 l2 : list A) :
  find f l1 = None -> find f (l1 ++ l2) = find f l2.
Proof.
  induction l1 as [|a l1 IH]; simpl; [reflexivity|].
  destruct (f a); [discriminate|exact IH].
Qed.

Lemma find_path_filtered (l : list SongRow) (path : string) :
  find (fun r => bool_decide (file_path r = path))
       (List.filter (fun r => negb (bool_decide (file_path r = path))) l) = None.
Proof.
  induction l as [|a l IH]; simpl; [reflexivity|].
  destruct (bool_decide (file_path a = path)) eqn:E; simpl; [exact IH|].
  rewrite E. exact IH.
Qed.

Lemma NoDup_map_inj {A B : Type} (f : A -> B) (l : list A) (x y : A) :
  List.NoDup (map f l) -> In x l -> In y l -> f x = f y -> x = y.
Proof.
  induction l as [|a l IH]; simpl; intros Hnd Hx Hy E; [destruct Hx|].
  inversion Hnd as [|? ? Hnotin Hnd']; subst.
  destruct Hx as [->|Hx], Hy as [->|Hy]; auto.
  - exfalso. apply Hnotin. rewrite E. apply in_map, Hy.
  - exfalso. apply Hnotin. rewrite <- E. apply in_map, Hx.
Qed.

(** Ingesting a path that is already in the table. *)
Lemma add_song_existing_path (db : FingerprintDatabase)
      (title artist path : string) (fingerprints : list AudioHash)
      (album : option string) (duration : option Q) (file_size : option Z)
      (row0 : SongRow) :
  consistent db ->
  get_song_by_path db path = Some row0 ->
  let res := add_song db healthy title artist path fingerprints
                      album duration file_size in
  snd res = Returned (next_rowid db)
  /\ id row0 < next_rowid db
  /\ length (songs (fst res)) = length (songs db)
  /\ get_song_metadata (fst res) (id row0) = None
  /\ get_song_by_path (fst res) path
     = Some (new_row db title artist path fingerprints album duration file_size).
Proof.
  intros (Hp & Hi & Hb) Hfind res.
  apply find_path_Some in Hfind. destruct Hfind as [Hin0 Hpath0].
  destruct (next_rowid_fresh db) as [_ Hfresh].
  rewrite List.Forall_forall in Hfresh.
  destruct (add_song_spec db healthy title artist path fingerprints
                          album duration file_size)
    as [[Hno _]|(_ & Hsongs & _ & _ & Hres)]; [discriminate|].
  fold res in Hsongs, Hres.
  split; [|split; [|split; [|split]]].
  - destruct Hres as [(Hr & _)|(_ & Hno & _)]; [exact Hr|discriminate].
  - apply Hfresh, Hin0.
  - rewrite Hsongs, length_app. simpl.
    rewrite <- (filter_other_paths_length (songs db) path row0 Hp Hin0 Hpath0). lia.
  - unfold get_song_metadata. rewrite Hsongs. apply find_id_None, Forall_app. split.
    + apply List.Forall_forall. intros r Hr E. apply filter_In in Hr.
      destruct Hr as [Hr Hne].
      assert (r = row0) by (eapply NoDup_map_inj; eauto). subst r.
      apply negb_true_iff, bool_decide_eq_false in Hne. congruence.
    + constructor; [|constructor]. simpl. specialize (Hfresh row0 Hin0). lia.
  - unfold get_song_by_path. rewrite Hsongs.
    rewrite find_app_None by apply find_path_filtered. simpl.
    rewrite bool_decide_eq_true_2 by reflexivity. reflexivity.
Qed.

(** Ingesting a path that is not yet in the table. *)
Lemma add_song_new_path (db : FingerprintDatabase)
      (title artist path : string) (fingerprints : list AudioHash)
      (album : option string) (duration : option Q) (file_size : option Z) :
  get_song_by_path db path = None ->
  let res := add_song db healthy title artist path fingerprints
                      album duration file_size in
  snd res = Returned (next_rowid db)
  /\ length (songs (fst res)) = S (length (songs db))
  /\ get_song_by_path (fst res) path
     = Some (new_row db title artist path fingerprints album duration file_size).
Proof.
  intros Hfind res.
  destruct (add_song_spec db healthy title artist path fingerprints
                          album duration file_size)
    as [[Hno _]|(_ & Hsongs & _ & _ & Hres)]; [discriminate|].
  fold res in Hsongs, Hres.
  rewrite (find_path_None _ _ Hfind) in Hsongs.
  split; [|split].
  - destruct Hres as [(Hr & _)|(_ & Hno & _)]; [exact Hr|discriminate].
  - rewrite Hsongs, length_app. simpl. lia.
  - unfold get_song_by_path. rewrite Hsongs.
    rewrite find_app_None by exact Hfind. simpl.
    rewrite bool_decide_eq_true_2 by reflexivity. reflexivity.
Qed.

(** *** Removal *)

Lemma remove_song_tombstones (db : FingerprintDatabase) (io : Backends) (sid : Z) :
  consistent db -> snd (remove_song db io sid) = true ->
  tombstoned (fst (remove_song db io sid)) sid
  /\ redis_client (fst (remove_song db io sid)) = redis_client db.
Proof.
  intros (_ & _ & Hb) Hok.
  destruct (remove_song_spec db io sid)
    as [[Hno _]|(_ & _ & (r & Hr) & Hsongs & Hseq & Hredis)]; [congruence|].
  split; [|exact Hredis]. split.
  - rewrite Hseq. apply find_id_Some in Hr. destruct Hr as [Hin <-].
    rewrite List.Forall_forall in Hb. apply Hb, Hin.
  - unfold get_song_metadata. rewrite Hsongs. apply find_id_None.
    apply List.Forall_forall. intros r' Hr'. apply filter_In in Hr'.
    destruct Hr' as [_ Hne]. apply negb_true_iff, Z.eqb_neq in Hne. exact Hne.
Qed.

(** AUTOINCREMENT never hands an id out twice: a tombstone stays. *)
Lemma tombstoned_apply_op (db : FingerprintDatabase) (op : Op) (sid : Z) :
  tombstoned db sid -> tombstoned (apply_op db op) sid.
Proof.
  intros [Hle Hgone]. unfold get_song_metadata in Hgone.
  apply find_id_None in Hgone. rewrite List.Forall_forall in Hgone.
  destruct op as [io title artist path fps album duration file_size|io sid']; simpl.
  - destruct (add_song_spec db io title artist path fps album duration file_size)
      as [[_ ->]|(_ & Hsongs & Hseq & _)].
    + split; [exact Hle|]. apply find_id_None, List.Forall_forall, Hgone.
    + destruct (next_rowid_fresh db) as [Hfresh _].
      split; [rewrite Hseq; lia|].
      unfold get_song_metadata. rewrite Hsongs. apply find_id_None, Forall_app. split.
      * apply List.Forall_forall. intros r Hr. apply filter_In in Hr. apply Hgone, Hr.
      * constructor; [simpl; lia|constructor].
  - destruct (remove_song_spec db io sid')
      as [[_ ->]|(_ & _ & _ & Hsongs & Hseq & _)].
    + split; [exact Hle|]. apply find_id_None, List.Forall_forall, Hgone.
    + split; [rewrite Hseq; exact Hle|].
      unfold get_song_metadata. rewrite Hsongs. apply find_id_None.
      apply List.Forall_forall. intros r Hr. apply filter_In in Hr. apply Hgone, Hr.
Qed.

Lemma tombstoned_run (ops : list Op) (db : FingerprintDatabase) (sid : Z) :
  tombstoned db sid -> tombstoned (run ops db) sid.
Proof.
  unfold run. revert db. induction ops as [|op ops IH]; intros db H; simpl; [exact H|].
  apply IH, tombstoned_apply_op, H.
Qed.

(** *** What a successful insert leaves behind *)

Lemma add_song_row_visible (db : FingerprintDatabase) (io : Backends)
      (title artist path : string) (fingerprints : list AudioHash)
      (album : option string) (duration : option Q) (file_size : option Z) :
  sqlite_ok io = true ->
  let res := add_song db io title artist path fingerprints album duration file_size in
  let row := new_row db title artist path fingerprints album duration file_size in
  get_song_by_path (fst res) path = Some row
  /\ get_song_metadata (fst res) (next_rowid db) = Some row.
Proof.
  intros Hok res row.
  destruct (add_song_spec db io title artist path fingerprints album duration file_size)
    as [[Hno _]|(_ & Hsongs & _)]; [congruence|].
  fold res in Hsongs. unfold get_song_by_path, get_song_metadata. rewrite Hsongs.
  split.
  - rewrite find_app_None by apply find_path_filtered. simpl.
    rewrite bool_decide_eq_true_2 by reflexivity. reflexivity.
  - rewrite find_app_None.
    + simpl. rewrite Z.eqb_refl. reflexivity.
    + apply find_id_None, List.Forall_forall. intros r Hr. apply filter_In in Hr.
      destruct (next_rowid_fresh db) as [_ Hfresh].
      rewrite List.Forall_forall in Hfresh. specialize (Hfresh r (proj1 Hr)). lia.
Qed.

End DatabaseFacts.

(** ** Claims about ingest into the stores *)

(** C1 as stated fails: the second ingest of a path is not rejected, it
    returns the new song id 2. *)
Lemma reingest_not_rejected :
  ~ (snd (Database.add_song Examples.one_song Database.healthy
                            "A440" "Test" Examples.a440_path [Examples.sample_hash]
                            None None None)
     = Raised "DuplicatePath"
     /\ length (Database.songs
                  (fst (Database.add_song Examples.one_song Database.healthy
                          "A440" "Test" Examples.a440_path [Examples.sample_hash]
                          None None None))) = 1%nat).
Proof.
  intros [H _]. vm_compute in H. discriminate H.
Qed.

Example reingest_returns_new_id :
  snd (Database.add_song Examples.one_song Database.healthy
                         "A440" "Test" Examples.a440_path [Examples.sample_hash]
                         None None None)
  = Returned 2.
Proof. vm_compute. reflexivity. Qed.

(** C1, amended.  In every state of the stores reached from fresh ones by a
    history of [add_song] and [remove_song] calls: a call of [add_song]
    (with working backends) for a [file_path] that already has a row is
    accepted; it returns a fresh song id, larger than the old one, the old
    id no longer resolves, the path resolves to the new row, and the number
    of rows is unchanged.  Hence two ingests of a path that was not in the
    table make it grow by exactly one row. *)
Theorem reingest_same_path_replaces :
  forall (redis_reachable : bool) (ops : list Database.Op)
         (title artist path : string) (fingerprints : list Fingerprinting.AudioHash)
         (album : option string) (duration : option Q) (file_size : option Z),
    let db := Database.run ops (Database.new_database redis_reachable) in
    let res := Database.add_song db Database.healthy title artist path fingerprints
                                 album duration file_size in
    (forall row0,
        Database.get_song_by_path db path = Some row0 ->
        snd res = Returned (Database.next_rowid db)
        /\ Database.id row0 < Database.next_rowid db
        /\ length (Database.songs (fst res)) = length (Database.songs db)
        /\ Database.get_song_metadata (fst res) (Database.id row0) = None
        /\ Database.get_song_by_path (fst res) path
           = Some (Database.new_row db title artist path fingerprints
                                    album duration file_size))
    /\ (Database.get_song_by_path db path = None ->
        forall title' artist' fingerprints' album' duration' file_size',
          let res' := Database.add_song (fst res) Database.healthy title' artist' path
                                        fingerprints' album' duration' file_size' in
          length (Database.songs (fst res)) = S (length (Database.songs db))
          /\ length (Database.songs (fst res')) = S (length (Database.songs db))
          /\ exists id1 id2,
               snd res = Returned id1 /\ snd res' = Returned id2 /\ id1 < id2
               /\ Database.get_song_metadata (fst res') id1 = None).
Proof.
  intros redis_reachable ops title artist path fingerprints album duration file_size
         db res.
  assert (Hc : Database.consistent db).
  { apply DatabaseFacts.consistent_run; apply DatabaseFacts.consistent_new. }
  split.
  - intros row0 Hrow0. apply DatabaseFacts.add_song_existing_path; assumption.
  - intros Habsent title' artist' fingerprints' album' duration' file_size' res'.
    destruct (DatabaseFacts.add_song_new_path db title artist path fingerprints
                album duration file_size Habsent) as (Hr & Hlen & Hfind).
    fold res in Hr, Hlen, Hfind.
    assert (Hc' : Database.consistent (fst res))
      by (apply DatabaseFacts.consistent_add_song, Hc).
    destruct (DatabaseFacts.add_song_existing_path (fst res) title' artist' path
                fingerprints' album' duration' file_size' _ Hc' Hfind)
      as (Hr' & Hlt & Hlen' & Hgone & _).
    fold res' in Hr', Hlen', Hgone. simpl in Hlt, Hgone.
    split; [exact Hlen|]. split; [congruence|].
    exists (Database.next_rowid db), (Database.next_rowid (fst res)). auto.
Qed.

Lemma reingest_same_path_replaces_witness :
  length (Database.songs Examples.one_song) = 1%nat
  /\ length (Database.songs
               (fst (Database.add_song Examples.one_song Database.healthy
                       "A440 (remaster)" "Test" Examples.a440_path []
                       None None None))) = 1%nat
  /\ exists id1 id2,
       snd (Database.add_song (Database.new_database true) Database.healthy
              "A440" "Test" Examples.a440_path [Examples.sample_hash] None None None)
       = Returned id1
       /\ snd (Database.add_song Examples.one_song Database.healthy
                 "A440 (remaster)" "Test" Examples.a440_path [] None None None)
          = Returned id2
       /\ id1 < id2
       /\ Database.get_song_metadata
            (fst (Database.add_song Examples.one_song Database.healthy
                    "A440 (remaster)" "Test" Examples.a440_path [] None None None))
            id1 = None.
Proof.
  apply (proj2 (reingest_same_path_replaces true [] "A440" "Test" Examples.a440_path
                  [Examples.sample_hash] None None None)).
  reflexivity.
Defined.

(** ** The matcher *)

Module MatchingFacts.
Import Config Fingerprinting Database Matching.

(** A match is reported only for a song whose metadata row is live. *)
Lemma analyze_song_match_live (db : FingerprintDatabase) (sid : Z)
      (occurrences : list Occurrence) (total : Z) (r : MatchResult) :
  _analyze_song_match db sid occurrences total = Some r ->
  match_song_id r = sid /\ exists row, get_song_metadata db sid = Some row.
Proof.
  unfold _analyze_song_match.
  destruct (Z.of_nat (length occurrences) <? MIN_MATCHING_HASHES); [discriminate|].
  destruct (_find_best_alignment _) as [[best_offset aligned_count]|]; [|discriminate].
  destruct (get_song_metadata db sid) as [row|]; [|discriminate].
  intros [= <-]. simpl. eauto.
Qed.

Lemma analyze_candidates_live (db : FingerprintDatabase)
      (raw_matches : list (Z * list Occurrence)) (total min_matches : Z)
      (r : MatchResult) :
  In r (analyze_candidates db raw_matches total min_matches) ->
  exists row, get_song_metadata db (match_song_id r) = Some row.
Proof.
  unfold analyze_candidates. intros H. apply in_flat_map in H.
  destruct H as ([sid occs] & _ & H).
  destruct (Z.of_nat (length occs) <? min_matches); [destruct H|].
  destruct (_analyze_song_match db sid occs total) as [r'|] eqn:E; [|destruct H].
  destruct (Rle_bool _ _); [|destruct H].
  destruct H as [<-|[]].
  apply analyze_song_match_live in E. destruct E as [-> E]. exact E.
Qed.

Lemma find_matches_live (db : FingerprintDatabase) (query_hashes : list AudioHash)
      (min_matches : Z) (r : MatchResult) :
  In r (find_matches db query_hashes min_matches) ->
  exists row, get_song_metadata db (match_song_id r) = Some row.
Proof.
  unfold find_matches. destruct query_hashes as [|q qs]; [intros []|].
  destruct (search_fingerprints db (q :: qs)) as [|m ms]; [intros []|].
  intros H. apply (Permutation_in _ (py_sorted_perm _ _)) in H.
  eapply analyze_candidates_live, H.
Qed.

Lemma identify_best_match_live (db : FingerprintDatabase)
      (query_hashes : list AudioHash) (r : MatchResult) :
  identify_best_match db query_hashes = Some r ->
  exists row, get_song_metadata db (match_song_id r) = Some row.
Proof.
  unfold identify_best_match.
  destruct (find_matches db query_hashes MIN_MATCHING_HASHES) as [|best rest] eqn:E;
    [discriminate|].
  intros [= <-]. apply (find_matches_live db query_hashes MIN_MATCHING_HASHES).
  rewrite E. left. reflexivity.
Qed.

(** *** The confidence score *)

Lemma ln_nonneg (x : R) : (1 <= x)%R -> (0 <= ln x)%R.
Proof.
  intros [H|<-].
  - rewrite <- ln_1. left. apply ln_increasing; lra.
  - rewrite ln_1. lra.
Qed.

Lemma ln_20_pos : (0 < ln 20)%R.
Proof. rewrite <- ln_1. apply ln_increasing; lra. Qed.

Lemma Rdiv_nonneg (x y : R) : (0 <= x)%R -> (0 < y)%R -> (0 <= x / y)%R.
Proof.
  intros Hx Hy. unfold Rdiv. apply Rmult_le_pos; [exact Hx|].
  left. apply Rinv_0_lt_compat, Hy.
Qed.

Lemma Rdiv_ge_half (x y : R) : (0 < y)%R -> (y <= 2 * x)%R -> (1 / 2 <= x / y)%R.
Proof.
  intros Hy H. apply Rmult_le_reg_r with (r := y); [exact Hy|].
  replace (x / y * y)%R with x by (field; lra). lra.
Qed.

Lemma Rdiv_lt_one (x y : R) : (0 < y)%R -> (x < y)%R -> (x / y < 1)%R.
Proof.
  intros Hy H. apply Rmult_lt_reg_r with (r := y); [exact Hy|].
  replace (x / y * y)%R with x by (field; lra). lra.
Qed.

Lemma Rmin_1_bounds (x : R) : (0 <= x)%R -> (0 <= Rmin 1 x <= 1)%R.
Proof. intros H. unfold Rmin. destruct (Rle_dec 1 x); lra. Qed.

Lemma Rmax_half_bounds (x : R) : (x <= 1)%R -> (1 / 2 <= Rmax (1 / 2) x <= 1)%R.
Proof. intros H. unfold Rmax. destruct (Rle_dec (1 / 2) x); lra. Qed.

(** The four weighted terms are never negative. *)
Lemma score_terms (a m q : Z) :
  0 <= a -> 0 < m -> 0 < q ->
  (0 <= IZR a / IZR m)%R
  /\ (0 <= Rmin 1 (ln (IZR (a + 1)) / ln 20) <= 1)%R
  /\ (0 <= Rmin 1 (IZR m / IZR q) <= 1)%R
  /\ (0 < IZR q / IZR m)%R.
Proof.
  intros Ha Hm Hq.
  assert (0 <= IZR a)%R by (apply IZR_le, Ha).
  assert (0 < IZR m)%R by (apply IZR_lt, Hm).
  assert (0 < IZR q)%R by (apply IZR_lt, Hq).
  assert (1 <= IZR (a + 1))%R by (apply IZR_le; lia).
  split; [apply Rdiv_nonneg; assumption|].
  split; [apply Rmin_1_bounds, Rdiv_nonneg; [apply ln_nonneg; assumption|apply ln_20_pos]|].
  split; [apply Rmin_1_bounds, Rdiv_nonneg; lra|].
  apply Rdiv_lt_0_compat; assumption.
Qed.

(** *** Counter and its mode *)

Lemma count_for_count_up (counts : list (Z * Z)) (x k : Z) :
  count_for (count_up counts x) k
  = count_for counts k + (if x =? k then 1 else 0).
Proof.
  unfold count_for. induction counts as [|[k0 c0] counts IH]; simpl.
  - destruct (x =? k); reflexivity.
  - destruct (Z.eqb_spec k0 x) as [->|Hne]; simpl.
    + destruct (Z.eqb_spec x k); simpl; lia.
    + destruct (Z.eqb_spec k0 k) as [->|Hne']; simpl.
      * destruct (Z.eqb_spec x k); [congruence|lia].
      * exact IH.
Qed.

Lemma count_for_fold (l : list Z) (counts : list (Z * Z)) (k : Z) :
  count_for (fold_left count_up l counts) k
  = count_for counts k + Z.of_nat (count_occ Z.eq_dec l k).
Proof.
  revert counts. induction l as [|x l IH]; intros counts; simpl; [lia|].
  rewrite IH, count_for_count_up.
  destruct (Z.eq_dec x k) as [->|Hne].
  - rewrite Z.eqb_refl. lia.
  - replace (x =? k) with false by (symmetry; apply Z.eqb_neq, Hne). lia.
Qed.

Lemma count_for_Counter (l : list Z) (k : Z) :
  count_for (Counter l) k = Z.of_nat (count_occ Z.eq_dec l k).
Proof. unfold Counter. rewrite count_for_fold. reflexivity. Qed.

Lemma keys_count_up (counts : list (Z * Z)) (x : Z) :
  List.NoDup (map fst counts) -> List.NoDup (map fst (count_up counts x)).
Proof.
  intros Hnd.
  assert (H : map fst (count_up counts x) = map fst counts
              \/ (~ In x (map fst counts)
                  /\ map fst (count_up counts x) = map fst counts ++ [x])).
  { clear Hnd. induction counts as [|[k0 c0] counts IH]; simpl.
    - right. split; [tauto|reflexivity].
    - destruct (Z.eqb_spec k0 x) as [->|Hne]; simpl; [left; reflexivity|].
      destruct IH as [->|[Hnotin ->]]; [left; reflexivity|].
      right. split; [|reflexivity]. intros [E|Hin]; [congruence|tauto]. }
  destruct H as [->|[Hnotin ->]]; [exact Hnd|].
  apply DatabaseFacts.NoDup_snoc; assumption.
Qed.

Lemma keys_Counter (l : list Z) : List.NoDup (map fst (Counter l)).
Proof.
  unfold Counter.
  assert (H : forall counts, List.NoDup (map fst counts) ->
                             List.NoDup (map fst (fold_left count_up l counts))).
  { induction l as [|x l IH]; intros counts Hnd; simpl; [exact Hnd|].
    apply IH, keys_count_up, Hnd. }
  apply H. constructor.
Qed.

Lemma count_for_entry (counts : list (Z * Z)) (k c : Z) :
  List.NoDup (map fst counts) -> In (k, c) counts -> count_for counts k = c.
Proof.
  unfold count_for. induction counts as [|[k0 c0] counts IH]; simpl; [tauto|].
  intros Hnd Hin. inversion Hnd as [|? ? Hnotin Hnd']; subst.
  destruct Hin as [[= -> ->]|Hin].
  - rewrite Z.eqb_refl. reflexivity.
  - destruct (Z.eqb_spec k0 k) as [->|Hne]; [|apply IH; assumption].
    exfalso. apply Hnotin. apply in_map_iff. exists (k, c). auto.
Qed.

Lemma count_for_bound (counts : list (Z * Z)) (k bound : Z) :
  0 <= bound -> (forall e, In e counts -> snd e <= bound) ->
  count_for counts k <= bound.
Proof.
  intros H0 Hall. unfold count_for.
  destruct (find _ counts) as [e|] eqn:E; [|exact H0].
  apply find_some in E. apply Hall, E.
Qed.

Lemma first_max_spec (best : Z * Z) (l : list (Z * Z)) :
  In (first_max best l) (best :: l)
  /\ forall e, In e (best :: l) -> snd e <= snd (first_max best l).
Proof.
  revert best. induction l as [|e0 l IH]; intros best; simpl.
  - split; [left; reflexivity|]. intros e [<-|[]]. lia.
  - destruct (Z.ltb_spec (snd best) (snd e0)) as [Hlt|Hge].
    + destruct (IH e0) as [Hin Hmax]. split.
      * right. exact Hin.
      * intros e [<-|He]; [|apply Hmax, He].
        specialize (Hmax e0 (or_introl eq_refl)). lia.
    + destruct (IH best) as [Hin Hmax]. split.
      * destruct Hin as [Hin|Hin]; [left; exact Hin|right; right; exact Hin].
      * intros e [<-|[<-|He]].
        -- apply Hmax. left. reflexivity.
        -- specialize (Hmax best (or_introl eq_refl)). lia.
        -- apply Hmax. right. exact He.
Qed.

(** [most_common(1)] of a non-empty list is a mode of it. *)
Lemma most_common_mode (l : list Z) :
  l <> [] ->
  exists best a, most_common_1 (Counter l) = Some (best, a) /\ is_mode l best a.
Proof.
  intros Hne. unfold most_common_1.
  destruct (Counter l) as [|e0 rest] eqn:E.
  - exfalso. destruct l as [|x l]; [congruence|].
    pose proof (count_for_Counter (x :: l) x) as H. rewrite E in H.
    unfold count_for in H. simpl in H.
    destruct (Z.eq_dec x x); [|congruence]. lia.
  - destruct (first_max_spec e0 rest) as [Hin Hmax].
    destruct (first_max e0 rest) as [best a] eqn:Ebest. simpl in Hmax.
    exists best, a. split; [reflexivity|].
    pose proof (keys_Counter l) as Hnd. rewrite E in Hnd.
    assert (Ha : a = Z.of_nat (count_occ Z.eq_dec l best)).
    { rewrite <- count_for_Counter, E. symmetry.
      apply count_for_entry; assumption. }
    split; [exact Ha|].
    intros v. rewrite <- count_for_Counter, E.
    apply count_for_bound; [lia|]. exact Hmax.
Qed.



End MatchingFacts.

(** C8.  Let a song [s] be removed ([remove_song] returns [True]) in a
    state reached from fresh stores, and let any further history of
    [add_song] and [remove_song] calls follow.  The removal leaves the
    postings index as it was, yet from then on [s] has no metadata row,
    no match of [find_matches] carries the id [s], and neither
    [identify_best_match] nor [identify_audio_file] returns [s]. *)
Theorem removed_song_never_identified :
  forall (redis_reachable : bool) (ops : list Database.Op)
         (io : Database.Backends) (s : Z) (later : list Database.Op),
    let db := Database.run ops (Database.new_database redis_reachable) in
    snd (Database.remove_song db io s) = true ->
    let db' := Database.run later (fst (Database.remove_song db io s)) in
    Database.redis_client (fst (Database.remove_song db io s))
    = Database.redis_client db
    /\ Database.get_song_metadata db' s = None
    /\ (forall query_hashes r,
           In r (Matching.find_matches db' query_hashes Config.MIN_MATCHING_HASHES) ->
           Matching.match_song_id r <> s)
    /\ (forall query_hashes r,
           Matching.identify_best_match db' query_hashes = Some r ->
           Matching.match_song_id r <> s)
    /\ (forall env fingerprinter audio_file r,
           ShazamSystem.identify_audio_file
             env (ShazamSystem.mkSystem fingerprinter db') audio_file = Some r ->
           Matching.match_song_id r <> s).
Proof.
  intros redis_reachable ops io s later db Hok db'.
  assert (Hc : Database.consistent db).
  { apply DatabaseFacts.consistent_run; apply DatabaseFacts.consistent_new. }
  destruct (DatabaseFacts.remove_song_tombstones db io s Hc Hok) as [Htomb Hredis].
  apply (DatabaseFacts.tombstoned_run later) in Htomb. fold db' in Htomb.
  destruct Htomb as [_ Hgone].
  assert (Hbest : forall query_hashes r,
             Matching.identify_best_match db' query_hashes = Some r ->
             Matching.match_song_id r <> s).
  { intros q r H E. apply MatchingFacts.identify_best_match_live in H.
    destruct H as [row H]. rewrite E in H. congruence. }
  split; [exact Hredis|]. split; [exact Hgone|]. split; [|split; [exact Hbest|]].
  - intros q r H E. apply MatchingFacts.find_matches_live in H.
    destruct H as [row H]. rewrite E in H. congruence.
  - intros env fingerprinter audio_file r.
    unfold ShazamSystem.identify_audio_file. simpl.
    destruct (ShazamSystem.preprocess env audio_file) as [[audio sr]|]; [|discriminate].
    destruct (Fingerprinting.fingerprint_audio _ _ _) as [[|q qs]|]; try discriminate.
    apply Hbest.
Qed.

Lemma removed_song_never_identified_witness :
  Database.redis_client Examples.after_removal
  = Database.redis_client Examples.both_ingested
  /\ Database.get_song_metadata Examples.after_removal 1 = None
  /\ (forall query_hashes r,
         In r (Matching.find_matches Examples.after_removal query_hashes
                                     Config.MIN_MATCHING_HASHES) ->
         Matching.match_song_id r <> 1)
  /\ (forall query_hashes r,
         Matching.identify_best_match Examples.after_removal query_hashes = Some r ->
         Matching.match_song_id r <> 1)
  /\ (forall env fingerprinter audio_file r,
         ShazamSystem.identify_audio_file
           env (ShazamSystem.mkSystem fingerprinter Examples.after_removal) audio_file
         = Some r ->
         Matching.match_song_id r <> 1).
Proof.
  apply (removed_song_never_identified true Examples.two_ingests Database.healthy 1 []).
  vm_compute. reflexivity.
Defined.

(** The postings of the removed song are still in the index. *)
Example removed_song_postings_remain :
  Database.has_posting Examples.after_removal 1.
Proof.
  eexists _, (Database.hash_key "d2eefa2ab3e7214f"), (Database.mkStored 1 0 28 47 1).
  split; [reflexivity|]. split; [|reflexivity].
  vm_compute. right. left. reflexivity.
Qed.

(** ** The orchestrator *)

Module ShazamSystemFacts.
Import Config Fingerprinting Database ShazamSystem.

(** An ingest either stops before it reaches the stores, or it is one call
    of [Database.add_song] with the hashes of the file. *)
Lemma add_song_to_database_cases (env : Environment) (self : System) (io : Backends)
      (audio_file title artist : string) (album : option string) :
  let res := add_song_to_database env self io audio_file title artist album in
  (res = (self, None))
  \/ exists audio sr fingerprints,
       preprocess env audio_file = Returned (audio, sr)
       /\ fingerprint_audio (compute_spectrogram env) (fingerprinter self) audio
          = Returned fingerprints
       /\ fingerprints <> []
       /\ let r := add_song (database self) io title artist
                            (path_resolve env audio_file) fingerprints album
                            (Some (inject_Z (Z.of_nat (length audio)) / inject_Z sr)%Q)
                            (getsize env audio_file) in
          fst res = mkSystem (fingerprinter self) (fst r)
          /\ snd res = match snd r with
                       | Returned song_id => Some song_id
                       | Raised _ => None
                       end.
Proof.
  unfold add_song_to_database, add_song_body.
  destruct (preprocess env audio_file) as [[audio sr]|e] eqn:Hpre; [|left; reflexivity].
  destruct (fingerprint_audio _ _ audio) as [[|fp fps]|e] eqn:Hfp;
    try (left; reflexivity).
  right. exists audio, sr, (fp :: fps).
  split; [reflexivity|]. split; [exact Hfp|]. split; [discriminate|].
  destruct (add_song _ _ _ _ _ _ _ _ _) as [db' [song_id|e]]; simpl; auto.
Qed.

End ShazamSystemFacts.

(** C2 as stated fails: when the connection to Redis drops as the postings
    are committed, the ingest fails and the metadata row of the song is
    already there. *)
Lemma failed_ingest_leaves_metadata_row :
  ~ (snd (ShazamSystem.add_song_to_database
            Examples.studio (ShazamSystem.new_system true) Examples.redis_down
            Examples.a440_path "A440" "Test" None) = None ->
     Database.get_song_by_path
       (ShazamSystem.database
          (fst (ShazamSystem.add_song_to_database
                  Examples.studio (ShazamSystem.new_system true) Examples.redis_down
                  Examples.a440_path "A440" "Test" None)))
       Examples.a440_path = None).
Proof.
  intros H.
  assert (E : snd (ShazamSystem.add_song_to_database
                     Examples.studio (ShazamSystem.new_system true) Examples.redis_down
                     Examples.a440_path "A440" "Test" None) = None)
    by (vm_compute; reflexivity).
  specialize (H E). vm_compute in H. discriminate H.
Qed.

Example failed_ingest_outcome :
  snd Examples.failed_ingest = None
  /\ map Database.id
         (Database.songs (ShazamSystem.database (fst Examples.failed_ingest))) = [1]
  /\ Database.redis_client (ShazamSystem.database (fst Examples.failed_ingest))
     = Some ∅.
Proof. vm_compute. auto. Qed.

(** C2, amended.  Take an ingest in any state reached from fresh stores.
    When loading or preprocessing raises, when fingerprinting raises or
    yields no hash, or when the SQLite insert raises, the ingest fails and
    both stores are exactly as they were.  In general a failed ingest
    either left both stores as they were, or failed at the posting commit:
    SQLite had accepted the row, Redis raised, the index is as it was and
    holds no posting of the new song id, and the metadata row of the file
    is committed.  If the ingest succeeds, it returns the new song id, the
    row of the file is committed with the number of its hashes, and, when
    Redis is connected, every one of its hashes has its posting. *)
Theorem ingest_atomic_up_to_metadata_commit :
  forall (env : ShazamSystem.Environment) (redis_reachable : bool)
         (ops : list Database.Op) (fingerprinter : Fingerprinting.AudioFingerprinter)
         (io : Database.Backends) (audio_file title artist : string)
         (album : option string),
    let db := Database.run ops (Database.new_database redis_reachable) in
    let res := ShazamSystem.add_song_to_database
                 env (ShazamSystem.mkSystem fingerprinter db) io
                 audio_file title artist album in
    let path := ShazamSystem.path_resolve env audio_file in
    let db' := ShazamSystem.database (fst res) in
    ((forall e, ShazamSystem.preprocess env audio_file = Raised e ->
                snd res = None /\ db' = db)
     /\ (forall audio sr e,
            ShazamSystem.preprocess env audio_file = Returned (audio, sr) ->
            Fingerprinting.fingerprint_audio
              (ShazamSystem.compute_spectrogram env) fingerprinter audio = Raised e ->
            snd res = None /\ db' = db)
     /\ (forall audio sr,
            ShazamSystem.preprocess env audio_file = Returned (audio, sr) ->
            Fingerprinting.fingerprint_audio
              (ShazamSystem.compute_spectrogram env) fingerprinter audio = Returned [] ->
            snd res = None /\ db' = db)
     /\ (Database.sqlite_ok io = false -> snd res = None /\ db' = db))
    /\ (snd res = None ->
     db' = db
     \/ (Database.sqlite_ok io = true /\ Database.redis_ok io = false
         /\ Database.redis_client db' = Database.redis_client db
         /\ ~ Database.has_posting db' (Database.next_rowid db)
         /\ exists row,
              Database.get_song_metadata db' (Database.next_rowid db) = Some row
              /\ Database.get_song_by_path db' path = Some row))
    /\ (forall song_id,
           snd res = Some song_id ->
           song_id = Database.next_rowid db
           /\ exists audio sr fingerprints row,
                ShazamSystem.preprocess env audio_file = Returned (audio, sr)
                /\ Fingerprinting.fingerprint_audio
                     (ShazamSystem.compute_spectrogram env) fingerprinter audio
                   = Returned fingerprints
                /\ fingerprints <> []
                /\ Database.get_song_metadata db' song_id = Some row
                /\ Database.get_song_by_path db' path = Some row
                /\ Database.fingerprint_count row = Z.of_nat (length fingerprints)
                /\ forall store fp,
                     Database.redis_client db' = Some store ->
                     In fp fingerprints ->
                     In (Database.mkStored song_id
                           (Fingerprinting.time_offset fp) (Fingerprinting.anchor_freq fp)
                           (Fingerprinting.target_freq fp) (Fingerprinting.time_delta fp))
                        (Database.lrange_all
                           store (Database.hash_key (Fingerprinting.hash_value fp)))).
Proof.
  intros env redis_reachable ops fingerprinter io audio_file title artist album
         db res path db'.
  assert (Hb : Database.postings_bounded db).
  { apply DatabaseFacts.consistent_run; apply DatabaseFacts.consistent_new. }
  destruct (DatabaseFacts.next_rowid_fresh db) as [Hfresh _].
  split.
  { unfold db', res, ShazamSystem.add_song_to_database, ShazamSystem.add_song_body.
    simpl. split; [|split; [|split]].
    - intros e He. rewrite He. split; reflexivity.
    - intros audio sr e Hpre Hfp. rewrite Hpre, Hfp. split; reflexivity.
    - intros audio sr Hpre Hfp. rewrite Hpre, Hfp. split; reflexivity.
    - intros Hno.
      destruct (ShazamSystem.preprocess env audio_file) as [[audio sr]|e];
        [|split; reflexivity].
      destruct (Fingerprinting.fingerprint_audio _ _ audio) as [[|fp fps]|e];
        try (split; reflexivity).
      unfold Database.add_song. rewrite Hno. split; reflexivity. }
  destruct (ShazamSystemFacts.add_song_to_database_cases
              env (ShazamSystem.mkSystem fingerprinter db) io
              audio_file title artist album)
    as [E|(audio & sr & fps & Hpre & Hfp & Hne & Hfst & Hsnd)].
  - fold res in E. split.
    + intros _. left. unfold db'. rewrite E. reflexivity.
    + intros song_id H. rewrite E in H. discriminate.
  - fold res in Hfst, Hsnd. simpl in Hfst, Hsnd, Hfp.
    set (duration := Some (inject_Z (Z.of_nat (length audio)) / inject_Z sr)%Q) in *.
    set (file_size := ShazamSystem.getsize env audio_file) in *.
    fold path in Hfst, Hsnd.
    assert (Edb : db' = fst (Database.add_song db io title artist path fps
                                               album duration file_size))
      by (unfold db'; rewrite Hfst; reflexivity).
    pose proof (DatabaseFacts.add_song_spec db io title artist path fps
                  album duration file_size) as Hspec.
    pose proof (DatabaseFacts.add_song_row_visible db io title artist path fps
                  album duration file_size) as Hrow.
    cbv zeta in Hspec, Hrow. rewrite <- Edb in Hspec, Hrow.
    destruct Hspec as [[Hno Hres]|(Hok & _ & Hseq & _ & Hredis)].
    + split.
      * intros _. left. rewrite Edb, Hres. reflexivity.
      * intros song_id H. rewrite Hsnd, Hres in H. discriminate.
    + specialize (Hrow Hok). destruct Hrow as [Hbypath Hbyid].
      destruct Hredis as [(Hr & Hcli & _)|(Hr & Hdown & Hcli & _)];
        rewrite Hr in Hsnd.
      * split; [intros H; rewrite Hsnd in H; discriminate|].
        intros song_id H. rewrite Hsnd in H. injection H as <-.
        split; [reflexivity|].
        exists audio, sr, fps, (Database.new_row db title artist path fps
                                                 album duration file_size).
        repeat (split; [assumption || reflexivity|]).
        intros store fp Hstore Hin. rewrite Hcli in Hstore.
        unfold Database.with_postings in Hstore.
        destruct (Database.redis_client db) as [st|]; [|discriminate].
        destruct fps as [|fp0 fps0]; [congruence|].
        injection Hstore as <-.
        exact (DatabaseFacts.queued_pushes_all (Database.next_rowid db)
                 (fp0 :: fps0) st fp Hin).
      * split; [|intros song_id H; rewrite Hsnd in H; discriminate].
        intros _. right. repeat (split; [assumption|]). split.
        -- intros (store & key & occ & Hs & Hin & Hsid).
           assert (Database.next_rowid db <= Database.sqlite_sequence db); [|lia].
           apply Hb. exists store, key, occ. rewrite <- Hcli. auto.
        -- eauto.
Qed.

Lemma ingest_atomic_up_to_metadata_commit_witness :
  ShazamSystem.database (fst Examples.failed_ingest)
  = Database.run [] (Database.new_database true)
  \/ (Database.sqlite_ok Examples.redis_down = true
      /\ Database.redis_ok Examples.redis_down = false
      /\ Database.redis_client (ShazamSystem.database (fst Examples.failed_ingest))
         = Database.redis_client (Database.run [] (Database.new_database true))
      /\ ~ Database.has_posting
             (ShazamSystem.database (fst Examples.failed_ingest))
             (Database.next_rowid (Database.run [] (Database.new_database true)))
      /\ exists row,
           Database.get_song_metadata
             (ShazamSystem.database (fst Examples.failed_ingest))
             (Database.next_rowid (Database.run [] (Database.new_database true)))
           = Some row
           /\ Database.get_song_by_path
                (ShazamSystem.database (fst Examples.failed_ingest))
                (ShazamSystem.path_resolve Examples.studio Examples.a440_path)
              = Some row).
Proof.
  apply (proj1 (proj2 (ingest_atomic_up_to_metadata_commit
                         Examples.studio true []
                         (Fingerprinting.new_fingerprinter 22050 2048 512)
                         Examples.redis_down Examples.a440_path "A440" "Test" None))).
  vm_compute. reflexivity.
Defined.

(** ** Claims about preprocessing *)

(** C9 as stated fails: the empty stream is handed back, no error is
    raised. *)
Lemma empty_input_not_rejected :
  AudioProcessing.preprocess_audio
    true Examples.no_resample_poly Examples.no_resample
    (AudioProcessing.new_processor Config.SAMPLE_RATE)
    (AudioProcessing.Samples []) 22050
  <> Raised "EmptyInput".
Proof. vm_compute. discriminate. Qed.

(** C9, amended.  [preprocess_audio] raises for no input.  For the empty
    one-dimensional input it returns the empty stream whenever no
    resampling takes place (the rate is the engine's, or scipy is
    missing), and also when resampling is attempted and no resampler turns
    the empty stream into samples. *)
Theorem preprocess_audio_never_raises :
  forall (have_scipy : bool)
         (resample_poly : list Q -> Z -> Z -> outcome (list Q))
         (resample : list Q -> Z -> outcome (list Q))
         (self : AudioProcessing.AudioProcessor) (sr : Z),
    (forall audio, exists out,
        AudioProcessing.preprocess_audio have_scipy resample_poly resample self audio sr
        = Returned out)
    /\ (sr = AudioProcessing.sample_rate self \/ have_scipy = false ->
        AudioProcessing.preprocess_audio have_scipy resample_poly resample self
                                         (AudioProcessing.Samples []) sr
        = Returned [])
    /\ ((forall up down y, resample_poly [] up down = Returned y -> y = []) ->
        (forall num y, resample [] num = Returned y -> y = []) ->
        AudioProcessing.preprocess_audio have_scipy resample_poly resample self
                                         (AudioProcessing.Samples []) sr
        = Returned []).
Proof.
  intros have_scipy resample_poly resample self sr.
  assert (Hslice : forall max_samples,
             (if Z.of_nat (length (@nil Q)) >? max_samples
              then AudioProcessing.slice_to [] max_samples else []) = []).
  { intros m. destruct (_ >? _); [|reflexivity].
    unfold AudioProcessing.slice_to. destruct (0 <=? m); apply firstn_nil. }
  split; [|split].
  - intros audio. unfold AudioProcessing.preprocess_audio. eexists. reflexivity.
  - intros H. unfold AudioProcessing.preprocess_audio.
    replace (negb (sr =? AudioProcessing.sample_rate self) && have_scipy) with false.
    + rewrite Hslice. reflexivity.
    + destruct H as [->| ->].
      * rewrite Z.eqb_refl. reflexivity.
      * rewrite andb_false_r. reflexivity.
  - intros Hpoly Hres. unfold AudioProcessing.preprocess_audio.
    destruct (negb (sr =? AudioProcessing.sample_rate self) && have_scipy).
    + destruct (resample_poly [] _ _) as [y|e] eqn:E1.
      * apply Hpoly in E1. subst y. rewrite Hslice. reflexivity.
      * destruct (sr =? 0); [rewrite Hslice; reflexivity|].
        destruct (resample [] _) as [y|e'] eqn:E2.
        -- apply Hres in E2. subst y. rewrite Hslice. reflexivity.
        -- rewrite Hslice. reflexivity.
    + rewrite Hslice. reflexivity.
Qed.

Lemma preprocess_audio_never_raises_witness :
  AudioProcessing.preprocess_audio
    true Examples.no_resample_poly Examples.no_resample
    (AudioProcessing.new_processor 22050) (AudioProcessing.Samples []) 22050
  = Returned [].
Proof.
  apply (proj1 (proj2 (preprocess_audio_never_raises
                         true Examples.no_resample_poly Examples.no_resample
                         (AudioProcessing.new_processor 22050) 22050))).
  left. reflexivity.
Defined.

(** ** Claims about the matcher *)

(** C4 as stated fails: for a bucket of 3 entries, all aligned, and a query
    of a single hash, the code grants the bonus [max(1/2, 1/3) = 1/2] where
    the stated formula has [min(1, 1/3) = 1/3]. *)
Lemma confidence_differs_from_stated_formula :
  Matching._calculate_confidence 3 3 1 <> Matching.spec_confidence 3 3 1.
Proof.
  unfold Matching._calculate_confidence, Matching.spec_confidence, Matching.clamp01.
  change (3 =? 0) with false. change (1 =? 0) with false. change (3 >? 1) with true.
  cbv [orb].
  destruct (MatchingFacts.score_terms 3 3 1 ltac:(lia) ltac:(lia) ltac:(lia))
    as (_ & Hraw & _ & _).
  set (raw := Rmin 1 (ln (IZR (3 + 1)) / ln 20)) in *.
  replace (Rmin 1 (3 / 1)) with 1%R by (symmetry; apply Rmin_left; lra).
  replace (Rmax (1 / 2) (1 / 3)) with (1 / 2)%R by (symmetry; apply Rmax_left; lra).
  replace (Rmin 1 (1 / 3)) with (1 / 3)%R by (symmetry; apply Rmin_right; lra).
  rewrite (Rmin_right 1 (4 / 10 * (3 / 3) + 3 / 10 * raw + 2 / 10 * 1 + 1 / 10 * (1 / 2)))
    by lra.
  rewrite (Rmin_right 1 (4 / 10 * (3 / 3) + 3 / 10 * raw + 2 / 10 * 1 + 1 / 10 * (1 / 3)))
    by lra.
  rewrite Rmax_right by lra. lra.
Qed.

(** C4, amended.  For bucket size [m > 0], query hash count [q > 0] and
    aligned count [a >= 0], the confidence is
    [0.4*(a/m) + 0.3*min(1, log(a+1)/log(20)) + 0.2*min(1, m/q) + 0.1*u]
    with [u = max(1/2, q/m)] if [m > q], else [u = 1], clamped to
    [[0, 1]]; it lies in [[0, 1]]; and it is the stated formula (with
    [u = min(1, q/m)]) whenever [m <= 2*q]. *)
Theorem confidence_formula :
  forall a m q : Z,
    0 < m -> 0 < q -> 0 <= a ->
    Matching._calculate_confidence a m q = Matching.floored_confidence a m q
    /\ (0 <= Matching._calculate_confidence a m q <= 1)%R
    /\ (m <= 2 * q ->
        Matching._calculate_confidence a m q = Matching.spec_confidence a m q).
Proof.
  intros a m q Hm Hq Ha.
  destruct (MatchingFacts.score_terms a m q Ha Hm Hq) as (Hal & Hraw & Hcov & Hqm).
  assert (HM : (0 < IZR m)%R) by (apply IZR_lt, Hm).
  unfold Matching._calculate_confidence, Matching.floored_confidence,
    Matching.spec_confidence, Matching.clamp01.
  replace (m =? 0) with false by (symmetry; apply Z.eqb_neq; lia).
  replace (q =? 0) with false by (symmetry; apply Z.eqb_neq; lia).
  cbv [orb].
  set (al := (IZR a / IZR m)%R) in *.
  set (raw := Rmin 1 (ln (IZR (a + 1)) / ln 20)) in *.
  set (cov := Rmin 1 (IZR m / IZR q)) in *.
  destruct (Z.gtb_spec m q) as [Hgt|Hle].
  - assert (Hlt1 : (IZR q / IZR m < 1)%R)
      by (apply MatchingFacts.Rdiv_lt_one; [exact HM|apply IZR_lt, Hgt]).
    destruct (MatchingFacts.Rmax_half_bounds (IZR q / IZR m) ltac:(lra)) as [Hu1 Hu2].
    set (u := Rmax (1 / 2) (IZR q / IZR m)) in *.
    assert (Hpos : (0 <= 4 / 10 * al + 3 / 10 * raw + 2 / 10 * cov + 1 / 10 * u)%R)
      by nra.
    assert (Hbound : (0 <= Rmin 1 (4 / 10 * al + 3 / 10 * raw + 2 / 10 * cov
                                   + 1 / 10 * u) <= 1)%R)
      by (apply MatchingFacts.Rmin_1_bounds, Hpos).
    split; [rewrite Rmax_right by lra; reflexivity|]. split; [exact Hbound|].
    intros H2.
    assert (Hhalf : (1 / 2 <= IZR q / IZR m)%R).
    { apply MatchingFacts.Rdiv_ge_half; [exact HM|].
      rewrite <- mult_IZR. apply IZR_le, H2. }
    unfold u in *. rewrite Rmax_right in * by exact Hhalf.
    rewrite (Rmin_right 1 (IZR q / IZR m)) by lra.
    rewrite Rmax_right by lra. reflexivity.
  - assert (Hpos : (0 <= 4 / 10 * al + 3 / 10 * raw + 2 / 10 * cov + 1 / 10 * 1)%R)
      by nra.
    assert (Hbound : (0 <= Rmin 1 (4 / 10 * al + 3 / 10 * raw + 2 / 10 * cov
                                   + 1 / 10 * 1) <= 1)%R)
      by (apply MatchingFacts.Rmin_1_bounds, Hpos).
    split; [rewrite Rmax_right by lra; reflexivity|]. split; [exact Hbound|].
    intros _. rewrite Rmax_right by lra. reflexivity.
Qed.

Lemma confidence_formula_witness :
  Matching._calculate_confidence 3 3 1 = Matching.floored_confidence 3 3 1
  /\ (0 <= Matching._calculate_confidence 3 3 1 <= 1)%R
  /\ (3 <= 2 * 1 ->
      Matching._calculate_confidence 3 3 1 = Matching.spec_confidence 3 3 1).
Proof.
  apply (confidence_formula 3 3 1); lia.
Defined.



(** Four of the five clustered offsets fall into the bin of 10 frames: the
    gate (threshold 3/10) lets the alignment pass.  The scattered bucket
    has a mode of one in seven and is rejected. *)
Example clustered_offsets_accepted :
  Matching._find_best_alignment Examples.clustered_offsets = Some (10, 4).
Proof. vm_compute. reflexivity. Qed.

Example scattered_offsets_rejected :
  Matching._find_best_alignment Examples.scattered_offsets = None.
Proof. vm_compute. reflexivity. Qed.

Example py_round_halves :
  Matching.py_round (5 # 2) = 2 /\ Matching.py_round (7 # 2) = 4
  /\ Matching.py_round (- 5 # 2) = -2 /\ Matching.py_round (12 # 5) = 2.
Proof. vm_compute. auto. Qed.

(* ================================================================== *)
(** * Further properties of the engine *)

(** ** Auxiliary lemmas *)

Module TargetZoneFacts.
Import Config Fingerprinting FingerprintingFacts.

Lemma find_targets_from_length (anchor_peak : SpectralPeak)
      (candidate_peaks : list SpectralPeak) (max_targets taken : Z) :
  Z.of_nat (length (find_targets_from anchor_peak candidate_peaks max_targets taken))
  <= Z.max 1 (max_targets - taken).
Proof.
  revert taken.
  induction candidate_peaks as [|peak rest IH]; intros taken; cbn [find_targets_from].
  - cbn. lia.
  - cbv zeta.
    destruct (time_frame peak - time_frame anchor_peak <? HASH_TIME_DELTA_MIN).
    + apply IH.
    + destruct (time_frame peak - time_frame anchor_peak >? HASH_TIME_DELTA_MAX).
      * cbn. lia.
      * rewrite Z.geb_leb.
        destruct (Z.leb_spec max_targets (taken + 1)).
        -- cbn. lia.
        -- cbn [length]. specialize (IH (taken + 1)). lia.
Qed.

Lemma filter_beyond_window (anchor_peak peak : SpectralPeak) (rest : list SpectralPeak) :
  HASH_TIME_DELTA_MAX < time_frame peak - time_frame anchor_peak ->
  Forall (fun q => time_frame peak <= time_frame q) rest ->
  List.filter (in_window anchor_peak) rest = [].
Proof.
  intros Hfar Hall.
  induction Hall as [|q rest Hq _ IH]; [reflexivity|].
  cbn [List.filter]. unfold in_window at 1. cbv zeta.
  replace (time_frame q - time_frame anchor_peak <=? HASH_TIME_DELTA_MAX) with false
    by (symmetry; apply Z.leb_gt; lia).
  rewrite andb_false_r. exact IH.
Qed.

Lemma find_targets_from_sorted (anchor_peak : SpectralPeak)
      (candidate_peaks : list SpectralPeak) (max_targets taken : Z) :
  StronglySorted (fun p q => time_frame p <= time_frame q) candidate_peaks ->
  find_targets_from anchor_peak candidate_peaks max_targets taken
  = firstn (Z.to_nat (Z.max 1 (max_targets - taken)))
           (List.filter (in_window anchor_peak) candidate_peaks).
Proof.
  intros Hsorted. revert taken.
  induction Hsorted as [|peak rest Hrest IH Hle]; intros taken.
  - cbn. now rewrite firstn_nil.
  - cbn [find_targets_from List.filter]. unfold in_window at 1. cbv zeta.
    destruct (Z.ltb_spec (time_frame peak - time_frame anchor_peak) HASH_TIME_DELTA_MIN)
      as [Hlow|Hlow].
    + replace (HASH_TIME_DELTA_MIN <=? time_frame peak - time_frame anchor_peak)
        with false by (symmetry; apply Z.leb_gt; lia).
      cbn [andb]. apply IH.
    + replace (HASH_TIME_DELTA_MIN <=? time_frame peak - time_frame anchor_peak)
        with true by (symmetry; apply Z.leb_le; lia).
      cbn [andb]. rewrite Z.gtb_ltb.
      destruct (Z.ltb_spec HASH_TIME_DELTA_MAX (time_frame peak - time_frame anchor_peak))
        as [Hfar|Hnear].
      * replace (time_frame peak - time_frame anchor_peak <=? HASH_TIME_DELTA_MAX)
          with false by (symmetry; apply Z.leb_gt; lia).
        rewrite (filter_beyond_window anchor_peak peak rest Hfar Hle).
        now rewrite firstn_nil.
      * replace (time_frame peak - time_frame anchor_peak <=? HASH_TIME_DELTA_MAX)
          with true by (symmetry; apply Z.leb_le; lia).
        rewrite Z.geb_leb.
        destruct (Z.leb_spec max_targets (taken + 1)) as [Hfull|Hroom].
        -- replace (Z.to_nat (Z.max 1 (max_targets - taken))) with 1%nat by lia.
           reflexivity.
        -- replace (Z.to_nat (Z.max 1 (max_targets - taken)))
             with (S (Z.to_nat (Z.max 1 (max_targets - (taken + 1))))) by lia.
           cbn [firstn]. f_equal. apply IH.
Qed.

Lemma hashes_of_anchor_length (anchor_peak : SpectralPeak)
      (later_peaks : list SpectralPeak) :
  Z.of_nat (length (hashes_of_anchor anchor_peak later_peaks)) <= HASH_FAN_VALUE.
Proof.
  unfold hashes_of_anchor, _find_target_peaks.
  pose proof (find_targets_from_length anchor_peak later_peaks HASH_FAN_VALUE 0) as Hlen.
  set (targets := find_targets_from anchor_peak later_peaks HASH_FAN_VALUE 0) in *.
  assert (Hflat : (length (flat_map (fun target_peak =>
                      match _create_hash anchor_peak target_peak with
                      | Some hash_obj => [hash_obj]
                      | None => []
                      end) targets) <= length targets)%nat).
  { clear Hlen. induction targets as [|t ts IH]; [cbn; lia|].
    cbn [flat_map]. rewrite length_app.
    destruct (_create_hash anchor_peak t); cbn [length]; lia. }
  unfold HASH_FAN_VALUE in *. lia.
Qed.

Lemma hashes_from_length (peaks_by_time : list SpectralPeak) :
  Z.of_nat (length (hashes_from peaks_by_time))
  <= HASH_FAN_VALUE * Z.of_nat (length peaks_by_time).
Proof.
  induction peaks_by_time as [|anchor later IH]; [cbn; lia|].
  cbn [hashes_from]. rewrite length_app.
  pose proof (hashes_of_anchor_length anchor later).
  cbn [length]. unfold HASH_FAN_VALUE in *. lia.
Qed.

Lemma find_targets_from_none (anchor_peak : SpectralPeak)
      (candidate_peaks : list SpectralPeak) (max_targets taken : Z) :
  Forall (fun p => time_frame p - time_frame anchor_peak < HASH_TIME_DELTA_MIN)
         candidate_peaks ->
  find_targets_from anchor_peak candidate_peaks max_targets taken = [].
Proof.
  induction 1 as [|p rest Hp _ IH]; [reflexivity|].
  cbn [find_targets_from]. cbv zeta.
  replace (time_frame p - time_frame anchor_peak <? HASH_TIME_DELTA_MIN) with true
    by (symmetry; apply Z.ltb_lt; exact Hp).
  exact IH.
Qed.

Lemma hashes_from_same_frame (peaks_by_time : list SpectralPeak) (t : Z) :
  Forall (fun p => time_frame p = t) peaks_by_time ->
  hashes_from peaks_by_time = [].
Proof.
  induction 1 as [|anchor later Ha Hlater IH]; [reflexivity|].
  cbn [hashes_from]. rewrite IH, app_nil_r.
  unfold hashes_of_anchor, _find_target_peaks.
  rewrite find_targets_from_none; [reflexivity|].
  eapply Forall_impl; [exact Hlater|].
  intros p Hp. cbn beta in Hp. rewrite Hp, Ha. unfold HASH_TIME_DELTA_MIN. lia.
Qed.

End TargetZoneFacts.

Module DigestFacts.
Import SHA256.

Lemma hex_of_length (digits : nat) (x : Z) : String.length (hex_of digits x) = digits.
Proof. induction digits as [|k IH]; cbn [hex_of String.length]; congruence. Qed.

Lemma append_length (s t : string) :
  String.length (s +:+ t) = (String.length s + String.length t)%nat.
Proof.
  induction s as [|c s IH]; [reflexivity|].
  change (String.length (String c (s +:+ t)) = S (String.length s + String.length t)).
  cbn [String.length]. now rewrite IH.
Qed.

Lemma compress_length (h block : list Z) :
  length h = 8%nat -> length (compress h block) = 8%nat.
Proof.
  intros Hh. unfold compress. cbv zeta.
  rewrite length_map, length_combine, Hh. reflexivity.
Qed.

Lemma digest_words_length (msg : list Z) : length (digest_words msg) = 8%nat.
Proof.
  unfold digest_words. cbv zeta.
  generalize (blocks (length (words_of_bytes (length (pad msg)) (pad msg)))
                     (words_of_bytes (length (pad msg)) (pad msg))).
  assert (Hinit : length initial_state = 8%nat) by reflexivity.
  revert Hinit. generalize initial_state.
  intros h Hh bs. revert h Hh.
  induction bs as [|b bs IH]; intros h Hh; cbn [fold_left]; [exact Hh|].
  apply IH, compress_length, Hh.
Qed.

Lemma hexdigest_length (data : list Z) : String.length (hexdigest data) = 64%nat.
Proof.
  unfold hexdigest.
  pose proof (digest_words_length data) as Hlen.
  assert (Hall : forall ws,
             String.length (fold_right (fun w acc => hex_of 8 w +:+ acc) EmptyString ws)
             = (8 * length ws)%nat).
  { induction ws as [|w ws IH]; [reflexivity|].
    cbn [fold_right length]. rewrite append_length, hex_of_length, IH. lia. }
  rewrite Hall, Hlen. reflexivity.
Qed.

Lemma substring_prefix_length (n : nat) (s : string) :
  (n <= String.length s)%nat -> String.length (substring 0 n s) = n.
Proof.
  revert s. induction n as [|n IH]; intros s Hn.
  - destruct s; reflexivity.
  - destruct s as [|c s]; cbn in Hn; [lia|].
    cbn [substring String.length]. rewrite IH by lia. reflexivity.
Qed.

Lemma hex_digit_alphabet (d : Z) :
  0 <= d < 16 -> In (hex_digit d) (list_ascii_of_string "0123456789abcdef").
Proof.
  intros Hd.
  assert (Hcases : d = 0 \/ d = 1 \/ d = 2 \/ d = 3 \/ d = 4 \/ d = 5 \/ d = 6 \/ d = 7
                   \/ d = 8 \/ d = 9 \/ d = 10 \/ d = 11 \/ d = 12 \/ d = 13
                   \/ d = 14 \/ d = 15) by lia.
  repeat (destruct Hcases as [-> | Hcases]; [vm_compute; tauto|]).
  subst d. vm_compute. tauto.
Qed.
End DigestFacts.

Module DigestAlphabet.
Import SHA256 DigestFacts.

Lemma chars_append (s t : string) :
  list_ascii_of_string (s +:+ t) = list_ascii_of_string s ++ list_ascii_of_string t.
Proof.
  induction s as [|c s IH]; [reflexivity|].
  change (c :: list_ascii_of_string (s +:+ t)
          = c :: (list_ascii_of_string s ++ list_ascii_of_string t)).
  now rewrite IH.
Qed.

Lemma hex_of_alphabet (digits : nat) (x : Z) (c : ascii) :
  In c (list_ascii_of_string (hex_of digits x)) ->
  In c (list_ascii_of_string "0123456789abcdef").
Proof.
  induction digits as [|k IH]; cbn [hex_of list_ascii_of_string]; [intros []|].
  intros [<- | Hin]; [|exact (IH Hin)].
  apply hex_digit_alphabet. apply Z.mod_pos_bound. lia.
Qed.

Lemma hexdigest_alphabet (data : list Z) (c : ascii) :
  In c (list_ascii_of_string (hexdigest data)) ->
  In c (list_ascii_of_string "0123456789abcdef").
Proof.
  unfold hexdigest. generalize (digest_words data).
  induction l as [|w ws IH]; cbn [fold_right]; [intros []|].
  rewrite chars_append, in_app_iff.
  intros [Hin | Hin]; [exact (hex_of_alphabet _ _ _ Hin)|exact (IH Hin)].
Qed.

Lemma substring_prefix_chars (n : nat) (s : string) (c : ascii) :
  In c (list_ascii_of_string (substring 0 n s)) -> In c (list_ascii_of_string s).
Proof.
  revert s. induction n as [|n IH]; intros s.
  - destruct s; intros [].
  - destruct s as [|a s]; [intros []|].
    cbn [substring list_ascii_of_string].
    intros [<- | Hin]; [now left|right; exact (IH _ Hin)].
Qed.
End DigestAlphabet.

Module ConstellationFacts.
Import Config Scipy ScipyFacts Fingerprinting FingerprintingFacts.

Lemma create_hash_Some (anchor target : SpectralPeak) (h : AudioHash) :
  _create_hash anchor target = Some h ->
  in_window anchor target = true
  /\ hash_value h
     = substring 0 16
         (SHA256.hexdigest
            (SHA256.encode (hash_string_of (frequency_bin anchor) (frequency_bin target)
                                           (time_frame target - time_frame anchor)))).
Proof.
  unfold _create_hash, in_window. cbv zeta.
  destruct ((HASH_TIME_DELTA_MIN <=? time_frame target - time_frame anchor)
            && (time_frame target - time_frame anchor <=? HASH_TIME_DELTA_MAX));
    cbn [negb]; [|discriminate].
  intros [= <-]. split; reflexivity.
Qed.

Lemma in_window_iff (anchor target : SpectralPeak) :
  in_window anchor target = true
  <-> HASH_TIME_DELTA_MIN <= time_frame target - time_frame anchor <= HASH_TIME_DELTA_MAX.
Proof.
  unfold in_window. cbv zeta. rewrite andb_true_iff, !Z.leb_le. tauto.
Qed.

Lemma hash_value_shape (anchor target : SpectralPeak) (h : AudioHash) :
  _create_hash anchor target = Some h ->
  String.length (hash_value h) = 16%nat
  /\ forall c, In c (list_ascii_of_string (hash_value h)) ->
               In c (list_ascii_of_string "0123456789abcdef").
Proof.
  intros Hh. destruct (create_hash_Some _ _ _ Hh) as [_ ->]. split.
  - apply DigestFacts.substring_prefix_length.
    rewrite DigestFacts.hexdigest_length. lia.
  - intros c Hc. apply DigestAlphabet.substring_prefix_chars in Hc.
    exact (DigestAlphabet.hexdigest_alphabet _ _ Hc).
Qed.

(** Where a peak of a band comes from. *)
Lemma find_peaks_in_band_cell (spectrogram : Spectrogram) (low_bin high_bin : nat)
      (p : SpectralPeak) :
  In p (_find_peaks_in_band (band_slice spectrogram low_bin high_bin) low_bin) ->
  exists t b,
    (t < n_frames spectrogram)%nat
    /\ (low_bin <= b < high_bin)%nat
    /\ (b < length (rows spectrogram))%nat
    /\ p = mkPeak (Z.of_nat b) (Z.of_nat t) (nth t (nth b (rows spectrogram) []) 0%Q)
    /\ (MIN_PEAK_AMPLITUDE <= amplitude p)%Q.
Proof.
  unfold _find_peaks_in_band. rewrite in_flat_map.
  intros (t & Ht & Hp). apply in_seq in Ht. cbn [band_slice n_frames] in Ht.
  pose proof (strongest_peak_at_spec (band_slice spectrogram low_bin high_bin) low_bin t)
    as Hspec.
  cbv zeta in Hspec.
  destruct Hspec as [[_ Hnil] | (c & Heq & Hc & _)].
  { rewrite Hnil in Hp. destruct Hp. }
  rewrite Heq in Hp. destruct Hp as [<- | []].
  pose proof (find_peaks_interior _ _ _ _ Hc) as Hint.
  pose proof (find_peaks_sound _ _ _ _ Hc) as [_ Hheight].
  set (band := firstn (high_bin - low_bin) (skipn low_bin (rows spectrogram))) in *.
  assert (Hslice : time_slice_of (band_slice spectrogram low_bin high_bin) t
                   = map (fun r => nth t r 0%Q) band) by reflexivity.
  rewrite Hslice in *. rewrite length_map in Hint.
  assert (Hband : (length band <= high_bin - low_bin)%nat
                  /\ (length band <= length (rows spectrogram) - low_bin)%nat).
  { unfold band. rewrite length_firstn, length_skipn. lia. }
  assert (Hcell : item (map (fun r => nth t r 0%Q) band) c
                  = nth t (nth (c + low_bin) (rows spectrogram) []) 0%Q).
  { unfold item.
    transitivity (nth t (nth c band []) 0%Q).
    - rewrite <- (map_nth (fun r => nth t r 0%Q)). f_equal. destruct t; reflexivity.
    - unfold band. rewrite nth_firstn.
      replace (c <? high_bin - low_bin)%nat with true
        by (symmetry; apply Nat.ltb_lt; lia).
      rewrite nth_skipn. f_equal. f_equal. lia. }
  exists t, (c + low_bin)%nat. repeat split; try lia.
  - now rewrite Hcell.
  - exact Hheight.
Qed.

Lemma extract_peaks_In (self : AudioFingerprinter) (spectrogram : Spectrogram)
      (p : SpectralPeak) :
  In p (extract_peaks self spectrogram) ->
  exists band, In band (band_indices self)
    /\ In p (_find_peaks_in_band (band_slice spectrogram (fst band) (snd band))
                                 (fst band)).
Proof.
  intros Hin.
  apply (Permutation_in _ (extract_peaks_perm self spectrogram)) in Hin.
  unfold band_peaks in Hin. apply in_flat_map in Hin. exact Hin.
Qed.

Lemma find_peaks_in_band_length (band_spectrogram : Spectrogram) (freq_offset : nat) :
  (length (_find_peaks_in_band band_spectrogram freq_offset)
   <= n_frames band_spectrogram)%nat.
Proof.
  unfold _find_peaks_in_band.
  enough (Hgen : forall start n,
             (length (flat_map (strongest_peak_at band_spectrogram freq_offset)
                               (seq start n)) <= n)%nat) by apply Hgen.
  clear.
  intros start n. revert start.
  induction n as [|n IH]; intros start; cbn [seq flat_map]; [cbn; lia|].
  rewrite length_app.
  pose proof (strongest_peak_at_le_1 band_spectrogram freq_offset start).
  specialize (IH (S start)). lia.
Qed.

Lemma searchsorted_le_length (a : list Q) (v : Q) : (searchsorted a v <= length a)%nat.
Proof.
  induction a as [|x a IH]; cbn [searchsorted length]; [lia|].
  destruct (Qlt_bool x v); lia.
Qed.

Lemma searchsorted_monotone (a : list Q) (v w : Q) :
  (v <= w)%Q -> (searchsorted a v <= searchsorted a w)%nat.
Proof.
  intros Hvw. induction a as [|x a IH]; cbn [searchsorted]; [lia|].
  destruct (Qlt_bool x v) eqn:Hv; [|lia].
  apply Qlt_bool_iff in Hv.
  replace (Qlt_bool x w) with true
    by (symmetry; apply Qlt_bool_iff; eapply Qlt_le_trans; eassumption).
  lia.
Qed.

Lemma searchsorted_spec (a : list Q) (v : Q) (k : nat) :
  StronglySorted Qle a -> (k < length a)%nat ->
  (k < searchsorted a v)%nat <-> (nth k a 0 < v)%Q.
Proof.
  intros Hsorted. revert k.
  induction Hsorted as [|x a _ IH Hall]; intros k Hk; [cbn in Hk; lia|].
  cbn [searchsorted].
  destruct (Qlt_bool x v) eqn:Hx.
  - apply Qlt_bool_iff in Hx.
    destruct k as [|k]; cbn [nth]; [split; [intros _; exact Hx|lia]|].
    cbn [length] in Hk. rewrite <- (IH k) by lia. lia.
  - apply Qlt_bool_false in Hx. split; [lia|]. intros Hlt. exfalso.
    destruct k as [|k]; cbn [nth] in Hlt.
    + apply (Qlt_irrefl v). eapply Qle_lt_trans; eassumption.
    + cbn [length] in Hk. rewrite List.Forall_forall in Hall.
      assert (Hin : In (nth k a 0%Q) a) by (apply nth_In; lia).
      specialize (Hall _ Hin).
      apply (Qlt_irrefl v). eapply Qle_lt_trans; [exact Hx|].
      eapply Qle_lt_trans; eassumption.
Qed.

End ConstellationFacts.

Module IndexFacts.
Import Config Fingerprinting Database DatabaseFacts.

Lemma queued_pushes_lrange (sid : Z) (fingerprints : list AudioHash)
      (store : gmap string (list StoredOccurrence)) (key : string) :
  lrange_all (queued_pushes sid fingerprints store) key
  = rev (map (posting_of sid)
             (List.filter (fun fp => bool_decide (hash_key (hash_value fp) = key))
                          fingerprints))
    ++ lrange_all store key.
Proof.
  revert store. induction fingerprints as [|fp fps IH]; intros store; [reflexivity|].
  change (queued_pushes sid (fp :: fps) store)
    with (queued_pushes sid fps (lpush store (hash_key (hash_value fp))
                                       (posting_of sid fp))).
  rewrite IH, lrange_lpush. cbn [List.filter].
  destruct (decide (hash_key (hash_value fp) = key)) as [E|NE].
  - rewrite bool_decide_eq_true_2 by exact E.
    cbn [map rev]. rewrite <- app_assoc. cbn [app]. rewrite E. reflexivity.
  - rewrite bool_decide_eq_false_2 by exact NE. reflexivity.
Qed.

Lemma hash_key_inj (a b : string) : hash_key a = hash_key b -> a = b.
Proof. unfold hash_key. intros H. injection H as H. exact H. Qed.

Lemma occurrences_of_append_match (matches : list (Z * list Occurrence))
      (k sid : Z) (o : Occurrence) :
  occurrences_of (append_match matches k o) sid
  = occurrences_of matches sid ++ (if k =? sid then [o] else []).
Proof.
  unfold occurrences_of.
  induction matches as [|[k0 occs] rest IH]; cbn [append_match find fst snd].
  - destruct (k =? sid); reflexivity.
  - destruct (Z.eqb_spec k0 k) as [->|Hne]; cbn [find fst snd].
    + destruct (k =? sid); [reflexivity|now rewrite app_nil_r].
    + destruct (Z.eqb_spec k0 sid) as [->|Hne'].
      * replace (k =? sid) with false by (symmetry; apply Z.eqb_neq; congruence).
        now rewrite app_nil_r.
      * exact IH.
Qed.

Lemma keys_append_match (matches : list (Z * list Occurrence)) (k : Z) (o : Occurrence) :
  map fst (append_match matches k o) = map fst matches
  \/ (~ In k (map fst matches)
      /\ map fst (append_match matches k o) = map fst matches ++ [k]).
Proof.
  induction matches as [|[k0 occs] rest IH]; cbn [append_match map fst].
  - right. split; [intros []|reflexivity].
  - destruct (Z.eqb_spec k0 k) as [->|Hne]; cbn [map fst]; [left; reflexivity|].
    destruct IH as [->|[Hnotin ->]]; [left; reflexivity|].
    right. split; [|reflexivity]. intros [E|Hin]; [congruence|tauto].
Qed.

Lemma well_keyed_append_match (matches : list (Z * list Occurrence))
      (k : Z) (o : Occurrence) :
  well_keyed matches -> well_keyed (append_match matches k o).
Proof.
  intros [Hnd Hne]. split.
  - destruct (keys_append_match matches k o) as [->|[Hnotin ->]]; [exact Hnd|].
    apply NoDup_snoc; assumption.
  - clear Hnd. induction Hne as [|[k0 occs] rest Hhd Hrest IH]; cbn [append_match].
    + constructor; [cbn; lia|constructor].
    + destruct (k0 =? k).
      * constructor; [|assumption]. cbn [snd] in *. rewrite length_app. cbn. lia.
      * constructor; assumption.
Qed.

(** The inner loop of [search_fingerprints] over the list of one key. *)
Lemma scan_key (sid query_time : Z) (found : list StoredOccurrence)
      (matches : list (Z * list Occurrence)) :
  let matches' :=
    fold_left (fun matches occurrence_data =>
                 append_match matches (song_id occurrence_data)
                              (mkOccurrence occurrence_data query_time))
              found matches in
  (well_keyed matches -> well_keyed matches')
  /\ occurrences_of matches' sid
     = occurrences_of matches sid
       ++ map (fun occurrence_data => mkOccurrence occurrence_data query_time)
              (List.filter (fun occurrence_data => song_id occurrence_data =? sid) found).
Proof.
  cbv zeta. revert matches.
  induction found as [|o found IH]; intros matches; cbn [fold_left List.filter].
  - split; [tauto|now rewrite app_nil_r].
  - destruct (IH (append_match matches (song_id o) (mkOccurrence o query_time)))
      as [IHk IHo].
    split.
    + intros Hk. apply IHk, well_keyed_append_match, Hk.
    + rewrite IHo, occurrences_of_append_match, <- app_assoc.
      destruct (song_id o =? sid); reflexivity.
Qed.

Lemma search_fold (db : FingerprintDatabase)
      (store : gmap string (list StoredOccurrence)) (sid : Z)
      (query_hashes : list AudioHash) (matches : list (Z * list Occurrence)) :
  redis_client db = Some store ->
  let matches' :=
    fold_left
      (fun matches query_hash =>
         fold_left
           (fun matches occurrence_data =>
              append_match matches (song_id occurrence_data)
                           (mkOccurrence occurrence_data (time_offset query_hash)))
           (lrange_all store (hash_key (hash_value query_hash)))
           matches)
      query_hashes matches in
  (well_keyed matches -> well_keyed matches')
  /\ occurrences_of matches' sid
     = occurrences_of matches sid ++ flat_map (hits db sid) query_hashes.
Proof.
  intros Hstore. cbv zeta. revert matches.
  induction query_hashes as [|q qs IH]; intros matches; cbn [fold_left flat_map].
  - split; [tauto|now rewrite app_nil_r].
  - pose proof (scan_key sid (time_offset q)
                         (lrange_all store (hash_key (hash_value q))) matches) as Hscan.
    cbv zeta in Hscan. destruct Hscan as [Hk Ho].
    match goal with
    | |- context [fold_left ?f qs ?m] => destruct (IH m) as [IHk IHo]
    end.
    split.
    + intros Hm. apply IHk, Hk, Hm.
    + rewrite IHo, Ho, <- app_assoc. unfold hits at 2, postings. rewrite Hstore.
      reflexivity.
Qed.

Lemma search_fingerprints_spec (db : FingerprintDatabase) (query_hashes : list AudioHash) :
  well_keyed (search_fingerprints db query_hashes)
  /\ forall sid,
       occurrences_of (search_fingerprints db query_hashes) sid
       = flat_map (hits db sid) query_hashes.
Proof.
  assert (Hempty : well_keyed []) by (split; constructor).
  unfold search_fingerprints.
  destruct (redis_client db) as [store|] eqn:Hstore.
  - split.
    + exact (proj1 (search_fold db store 0 query_hashes [] Hstore) Hempty).
    + intros sid. exact (proj2 (search_fold db store sid query_hashes [] Hstore)).
  - split; [exact Hempty|].
    intros sid. unfold occurrences_of. cbn [find].
    induction query_hashes as [|q qs IH]; [reflexivity|].
    cbn [flat_map]. rewrite <- IH. unfold hits, postings. rewrite Hstore. reflexivity.
Qed.

Lemma occurrences_of_In (matches : list (Z * list Occurrence)) (sid : Z) :
  occurrences_of matches sid <> [] ->
  In (sid, occurrences_of matches sid) matches.
Proof.
  unfold occurrences_of.
  destruct (find (fun entry => fst entry =? sid) matches) as [[k occs]|] eqn:Hfind;
    [|congruence].
  intros _. apply find_some in Hfind. destruct Hfind as [Hin Hk].
  cbn [fst snd] in *. apply Z.eqb_eq in Hk. subst k. exact Hin.
Qed.

Lemma occurrences_of_entry (matches : list (Z * list Occurrence)) (sid : Z)
      (occs : list Occurrence) :
  List.NoDup (map fst matches) -> In (sid, occs) matches ->
  occurrences_of matches sid = occs.
Proof.
  unfold occurrences_of.
  induction matches as [|[k0 o0] rest IH]; intros Hnd Hin; [destruct Hin|].
  cbn [find fst snd map] in *. inversion Hnd as [|? ? Hnotin Hnd']; subst.
  destruct Hin as [[= -> ->]|Hin].
  - now rewrite Z.eqb_refl.
  - destruct (Z.eqb_spec k0 sid) as [->|Hne]; [|exact (IH Hnd' Hin)].
    exfalso. apply Hnotin. apply (in_map fst) in Hin. exact Hin.
Qed.

Lemma find_filter_Some {A : Type} (f g : A -> bool) (l : list A) (r : A) :
  find f l = Some r -> g r = true -> find f (List.filter g l) = Some r.
Proof.
  induction l as [|x l IH]; cbn [find List.filter]; [discriminate|].
  destruct (f x) eqn:Hf.
  - intros [= ->] Hg. rewrite Hg. cbn [find]. now rewrite Hf.
  - intros Hr Hg. destruct (g x); [cbn [find]; rewrite Hf|]; exact (IH Hr Hg).
Qed.

Lemma find_filter_agree {A : Type} (f g : A -> bool) (l : list A) :
  (forall x, f x = true -> g x = true) ->
  find f (List.filter g l) = find f l.
Proof.
  intros Himp. induction l as [|x l IH]; cbn [find List.filter]; [reflexivity|].
  destruct (f x) eqn:Hf.
  - rewrite (Himp x Hf). cbn [find]. now rewrite Hf.
  - destruct (g x); [cbn [find]; rewrite Hf|]; exact IH.
Qed.

Lemma find_app_Some {A : Type} (f : A -> bool) (l1 l2 : list A) (r : A) :
  find f l1 = Some r -> find f (l1 ++ l2) = Some r.
Proof.
  induction l1 as [|x l1 IH]; cbn [find app]; [discriminate|].
  destruct (f x); [tauto|exact IH].
Qed.

Lemma redis_none_apply_op (db : FingerprintDatabase) (op : Op) :
  redis_client db = None -> redis_client (apply_op db op) = None.
Proof.
  intros Hnone. destruct op as [io t a p fps al du fs|io sid]; cbn [apply_op].
  - destruct (add_song_spec db io t a p fps al du fs)
      as [[_ ->]|(_ & _ & _ & _ & Hredis)]; [exact Hnone|].
    destruct Hredis as [(_ & -> & _)|(_ & _ & -> & _)]; [|exact Hnone].
    unfold with_postings. now rewrite Hnone.
  - destruct (remove_song_spec db io sid) as [[_ ->]|(_ & _ & _ & _ & _ & ->)];
      exact Hnone.
Qed.

Lemma redis_none_run (ops : list Op) (db : FingerprintDatabase) :
  redis_client db = None -> redis_client (run ops db) = None.
Proof.
  revert db. induction ops as [|op ops IH]; intros db Hnone; [exact Hnone|].
  cbn [run fold_left]. apply IH, redis_none_apply_op, Hnone.
Qed.

End IndexFacts.

Module StatsFacts.
Import Config Fingerprinting Database DatabaseFacts.

Lemma filter_keeps_all {A : Type} (d : A -> bool) (l : list A) :
  (forall y, In y l -> d y = false) -> List.filter (fun x => negb (d x)) l = l.
Proof.
  induction l as [|x l IH]; intros Hall; [reflexivity|].
  cbn [List.filter]. rewrite (Hall x (or_introl eq_refl)). cbn [negb].
  f_equal. apply IH. intros y Hy. apply Hall. now right.
Qed.

(** Deleting the rows that satisfy [d], when exactly one row does. *)
Lemma drop_one_row {A K : Type} (key : A -> K) (d : A -> bool) (w : A -> Z)
      (l : list A) (r : A) :
  List.NoDup (map key l) -> In r l -> d r = true ->
  (forall x, In x l -> d x = true -> key x = key r) ->
  fold_right Z.add 0 (map w (List.filter (fun x => negb (d x)) l))
  = fold_right Z.add 0 (map w l) - w r
  /\ S (length (List.filter (fun x => negb (d x)) l)) = length l.
Proof.
  induction l as [|x l IH]; intros Hnd Hin Hd Hkey; [destruct Hin|].
  cbn [map] in Hnd. inversion Hnd as [|? ? Hnotin Hnd']; subst.
  destruct Hin as [->|Hin].
  - cbn [List.filter]. rewrite Hd. cbn [negb].
    rewrite filter_keeps_all.
    + cbn [map fold_right length]. split; lia.
    + intros y Hy. destruct (d y) eqn:Hdy; [|reflexivity].
      exfalso. apply Hnotin. rewrite <- (Hkey y (or_intror Hy) Hdy).
      apply in_map, Hy.
  - assert (Hdx : d x = false).
    { destruct (d x) eqn:Hdx; [|reflexivity].
      exfalso. apply Hnotin. rewrite (Hkey x (or_introl eq_refl) Hdx).
      apply in_map, Hin. }
    cbn [List.filter]. rewrite Hdx. cbn [negb map fold_right length].
    destruct (IH Hnd' Hin Hd) as [IHsum IHlen].
    { intros y Hy. apply Hkey. now right. }
    rewrite IHsum, IHlen. split; lia.
Qed.

Lemma sum_snoc (w : SongRow -> Z) (l : list SongRow) (r : SongRow) :
  fold_right Z.add 0 (map w (l ++ [r])) = fold_right Z.add 0 (map w l) + w r.
Proof.
  induction l as [|x l IH]; cbn [app map fold_right]; [lia|]. rewrite IH. lia.
Qed.

Lemma get_database_stats_counts (db : FingerprintDatabase) (io : Backends) :
  sqlite_ok io = true ->
  exists stats,
    get_database_stats db io = Returned stats
    /\ total_songs stats = Z.of_nat (length (songs db))
    /\ total_fingerprints stats = fold_right Z.add 0 (map fingerprint_count (songs db))
    /\ redis_keys stats
       = match redis_client db with
         | Some store => Some (if redis_ok io then Z.of_nat (size store) else 0)
         | None => None
         end.
Proof.
  intros Hok. unfold get_database_stats. rewrite Hok. cbn [negb]. cbv zeta.
  eexists. split; [reflexivity|]. cbn [total_songs total_fingerprints redis_keys].
  split; [reflexivity|]. split; [|reflexivity].
  unfold sql_sum. destruct (map fingerprint_count (songs db)) as [|c cs]; [reflexivity|].
  destruct (Z.eqb_spec (fold_right Z.add 0 (c :: cs)) 0) as [E|_]; [|reflexivity].
  now rewrite E.
Qed.

End StatsFacts.

Module SequenceFacts.
Import Config Fingerprinting Database DatabaseFacts.

Lemma sequence_apply_op (db : FingerprintDatabase) (op : Op) :
  sqlite_sequence db <= sqlite_sequence (apply_op db op).
Proof.
  destruct op as [io t a p fps al du fs|io sid]; cbn [apply_op].
  - destruct (add_song_spec db io t a p fps al du fs)
      as [[_ ->]|(_ & _ & -> & _)]; [cbn; lia|].
    destruct (next_rowid_fresh db) as [Hfresh _]. lia.
  - destruct (remove_song_spec db io sid) as [[_ ->]|(_ & _ & _ & _ & -> & _)]; lia.
Qed.

Lemma sequence_run (ops : list Op) (db : FingerprintDatabase) :
  sqlite_sequence db <= sqlite_sequence (run ops db).
Proof.
  revert db. induction ops as [|op ops IH]; intros db; cbn [run fold_left]; [lia|].
  pose proof (sequence_apply_op db op). specialize (IH (apply_op db op)).
  unfold run in IH. lia.
Qed.

Lemma add_song_returned (db : FingerprintDatabase) (io : Backends)
      (title artist path : string) (fingerprints : list AudioHash)
      (album : option string) (duration : option Q) (file_size : option Z) (sid : Z) :
  snd (add_song db io title artist path fingerprints album duration file_size)
  = Returned sid ->
  sid = next_rowid db
  /\ sqlite_sequence (fst (add_song db io title artist path fingerprints
                                    album duration file_size))
     = sid.
Proof.
  destruct (add_song_spec db io title artist path fingerprints album duration file_size)
    as [[_ ->]|(_ & _ & Hseq & _ & Hres)]; [discriminate|].
  cbv zeta in *.
  destruct Hres as [(-> & _)|(-> & _)]; [|discriminate].
  intros [= <-]. split; [reflexivity|exact Hseq].
Qed.

End SequenceFacts.

Module AlignmentFacts.
Import Config Fingerprinting Database Matching MatchingFacts.

Lemma quantize_spec (offset : Z) :
  quantize offset = 5 * ((offset + 2) / 5).
Proof.
  unfold quantize, py_round, TIME_ALIGNMENT_TOLERANCE. cbv zeta.
  set (x := (inject_Z offset / inject_Z 5)%Q).
  assert (Hf : Qfloor x = offset / 5).
  { unfold x. cbn. now rewrite Z.mul_1_r. }
  assert (Hr : (x - inject_Z (Qfloor x) == (offset mod 5) # 5)%Q).
  { rewrite Hf. unfold x, Qeq. cbn.
    change (Z.pos (1 * 5)) with 5. change (Z.pos (1 * 5 * 1)) with 5.
    clear Hf. clear x. Z.div_mod_to_equations. lia. }
  assert (Hlow : Qlt_bool (x - inject_Z (Qfloor x)) (1 # 2)
                 = (2 * (offset mod 5) <? 5)).
  { apply eq_true_iff_eq. rewrite Qlt_bool_iff, Z.ltb_lt, Hr.
    unfold Qlt. cbn. lia. }
  assert (Hhigh : Qlt_bool (1 # 2) (x - inject_Z (Qfloor x))
                  = (5 <? 2 * (offset mod 5))).
  { apply eq_true_iff_eq. rewrite Qlt_bool_iff, Z.ltb_lt, Hr.
    unfold Qlt. cbn. lia. }
  rewrite Hlow, Hhigh, Hf. clear Hlow Hhigh Hr Hf. clear x.
  destruct (Z.ltb_spec (2 * (offset mod 5)) 5);
    [|destruct (Z.ltb_spec 5 (2 * (offset mod 5)))];
    try destruct (Z.even (offset / 5));
    Z.div_mod_to_equations; lia.
Qed.

Lemma Counter_constant (b : Z) (l : list Z) (c : Z) :
  Forall (fun x => x = b) l ->
  fold_left count_up l [(b, c)] = [(b, c + Z.of_nat (length l))].
Proof.
  intros Hall. revert c.
  induction Hall as [|x l -> _ IH]; intros c; cbn [fold_left length].
  - now rewrite Z.add_0_r.
  - cbn [count_up]. rewrite Z.eqb_refl, IH. do 2 f_equal. lia.
Qed.

Lemma find_best_alignment_one_bin (time_offsets : list Z) (bin : Z) :
  time_offsets <> [] ->
  Forall (fun offset => quantize offset = bin) time_offsets ->
  _find_best_alignment time_offsets = Some (bin, Z.of_nat (length time_offsets)).
Proof.
  intros Hne Hall.
  unfold _find_best_alignment.
  destruct time_offsets as [|o os] eqn:Hoffsets; [congruence|].
  rewrite <- Hoffsets in *. cbv zeta.
  assert (Hcounter : Counter (map quantize time_offsets)
                     = [(bin, Z.of_nat (length time_offsets))]).
  { rewrite Hoffsets in *. cbn [map]. unfold Counter. cbn [fold_left count_up].
    apply List.Forall_cons_iff in Hall. destruct Hall as [Ho Hos]. rewrite Ho.
    rewrite (Counter_constant bin).
    - rewrite length_map. cbn [length]. do 2 f_equal. lia.
    - apply List.Forall_forall. intros x Hx. apply in_map_iff in Hx.
      destruct Hx as (y & <- & Hy).
      rewrite List.Forall_forall in Hos. exact (Hos y Hy). }
  rewrite Hcounter. cbn [most_common_1 first_max].
  set (n := Z.of_nat (length time_offsets)).
  assert (Hn : 0 < n) by (unfold n; rewrite Hoffsets; cbn [length]; lia).
  assert (Hone : (inject_Z n / inject_Z n == 1)%Q).
  { apply Qmult_inv_r. intros E. unfold Qeq in E. cbn in E. lia. }
  replace (Qlt_bool (inject_Z n / inject_Z n) _) with false; [reflexivity|].
  symmetry. apply Qlt_bool_false. rewrite Hone.
  destruct (Qlt_bool _ _); unfold Qle; cbn; lia.
Qed.

End AlignmentFacts.

Module RankingFacts.
Import Config Fingerprinting Database Matching MatchingFacts.

Lemma threshold_value : Q2R CONFIDENCE_THRESHOLD = (5 / 100)%R.
Proof. unfold CONFIDENCE_THRESHOLD, Q2R. cbn. lra. Qed.

Lemma confidence_floor (a m q : Z) :
  0 <= a -> 0 < m -> 0 < q ->
  (5 / 100 <= _calculate_confidence a m q)%R.
Proof.
  intros Ha Hm Hq. unfold _calculate_confidence.
  replace (m =? 0) with false by (symmetry; apply Z.eqb_neq; lia).
  replace (q =? 0) with false by (symmetry; apply Z.eqb_neq; lia).
  cbn [orb]. cbv zeta.
  destruct (score_terms a m q Ha Hm Hq) as (Hal & [Hraw _] & [Hcov _] & _).
  assert (Hbonus : (1 / 2 <= if m >? q then Rmax (1 / 2) (IZR q / IZR m) else 1)%R).
  { destruct (m >? q); [apply Rmax_l|lra]. }
  apply Rmin_glb; lra.
Qed.

Lemma ln_monotone (x y : R) : (0 < x)%R -> (x <= y)%R -> (ln x <= ln y)%R.
Proof.
  intros Hx [Hlt | ->]; [|lra].
  left. apply ln_increasing; assumption.
Qed.

Lemma find_best_alignment_mode (time_offsets : list Z) (best a : Z) :
  _find_best_alignment time_offsets = Some (best, a) ->
  is_mode (map quantize time_offsets) best a.
Proof.
  unfold _find_best_alignment.
  destruct time_offsets as [|o os] eqn:Hoffsets; [discriminate|].
  rewrite <- Hoffsets. cbv zeta.
  destruct (most_common_mode (map quantize time_offsets)) as (b & c & Hmc & Hmode).
  { rewrite Hoffsets. discriminate. }
  rewrite Hmc.
  destruct (Qlt_bool _ _); [discriminate|].
  intros [= <- <-]. exact Hmode.
Qed.

Lemma mode_bounds (l : list Z) (best a : Z) :
  l <> [] -> is_mode l best a -> 1 <= a <= Z.of_nat (length l) /\ In best l.
Proof.
  intros Hne [Ha Hmax].
  assert (Hle : (count_occ Z.eq_dec l best <= length l)%nat) by apply count_occ_bound.
  destruct l as [|x l]; [congruence|].
  pose proof (Hmax x) as Hx. cbn [count_occ] in Hx.
  destruct (Z.eq_dec x x); [|congruence].
  split; [lia|].
  apply (count_occ_In Z.eq_dec). lia.
Qed.

Lemma analyze_song_match_fields (db : FingerprintDatabase) (sid : Z)
      (occurrences : list Occurrence) (total : Z) (r : MatchResult) :
  _analyze_song_match db sid occurrences total = Some r ->
  MIN_MATCHING_HASHES <= Z.of_nat (length occurrences)
  /\ exists row,
       get_song_metadata db sid = Some row
       /\ match_song_id r = sid
       /\ match_title r = title row
       /\ match_artist r = artist row
       /\ match_album r = album row
       /\ total_query_hashes r = total
       /\ 1 <= matching_hashes r <= Z.of_nat (length occurrences)
       /\ confidence r
          = _calculate_confidence (matching_hashes r)
                                  (Z.of_nat (length occurrences)) total
       /\ _find_best_alignment
            (map (fun occurrence =>
                    stored_time_offset (stored occurrence) - query_time occurrence)
                 occurrences)
          = Some (match_time_offset r, matching_hashes r).
Proof.
  unfold _analyze_song_match.
  destruct (Z.ltb_spec (Z.of_nat (length occurrences)) MIN_MATCHING_HASHES) as [|Hlen];
    [discriminate|].
  cbv zeta.
  destruct (_find_best_alignment _) as [[best_offset aligned_count]|] eqn:Halign;
    [|discriminate].
  destruct (get_song_metadata db sid) as [row|]; [|discriminate].
  intros [= <-]. split; [exact Hlen|].
  exists row. cbn. repeat split; try reflexivity.
  - apply find_best_alignment_mode in Halign.
    apply mode_bounds in Halign; [lia|].
    destruct occurrences; [cbn in Hlen; unfold MIN_MATCHING_HASHES in Hlen; lia|].
    discriminate.
  - apply find_best_alignment_mode in Halign.
    apply mode_bounds in Halign.
    + rewrite !length_map in Halign. lia.
    + destruct occurrences; [cbn in Hlen; unfold MIN_MATCHING_HASHES in Hlen; lia|].
      discriminate.
Qed.

Lemma analyze_candidates_In (db : FingerprintDatabase)
      (raw_matches : list (Z * list Occurrence)) (total min_matches : Z)
      (r : MatchResult) :
  In r (analyze_candidates db raw_matches total min_matches)
  <-> exists sid occurrences,
        In (sid, occurrences) raw_matches
        /\ min_matches <= Z.of_nat (length occurrences)
        /\ _analyze_song_match db sid occurrences total = Some r
        /\ (Q2R CONFIDENCE_THRESHOLD <= confidence r)%R.
Proof.
  unfold analyze_candidates. rewrite in_flat_map. split.
  - intros ([sid occurrences] & Hin & Hr).
    destruct (Z.ltb_spec (Z.of_nat (length occurrences)) min_matches) as [|Hlen];
      [destruct Hr|].
    destruct (_analyze_song_match db sid occurrences total) as [m|] eqn:Hm;
      [|destruct Hr].
    unfold Rle_bool in Hr.
    destruct (Rle_dec (Q2R CONFIDENCE_THRESHOLD) (confidence m)) as [Hc|];
      [|destruct Hr].
    destruct Hr as [<- | []]. exists sid, occurrences. auto.
  - intros (sid & occurrences & Hin & Hlen & Hm & Hc).
    exists (sid, occurrences). split; [exact Hin|].
    replace (Z.of_nat (length occurrences) <? min_matches) with false
      by (symmetry; apply Z.ltb_ge; exact Hlen).
    rewrite Hm. unfold Rle_bool.
    destruct (Rle_dec (Q2R CONFIDENCE_THRESHOLD) (confidence r)); [now left|contradiction].
Qed.

Lemma analyze_candidates_ids (db : FingerprintDatabase)
      (raw_matches : list (Z * list Occurrence)) (total min_matches : Z) :
  List.NoDup (map fst raw_matches) ->
  List.NoDup (map match_song_id (analyze_candidates db raw_matches total min_matches)).
Proof.
  induction raw_matches as [|[sid occurrences] rest IH]; intros Hnd; [constructor|].
  cbn [map fst] in Hnd. inversion Hnd as [|? ? Hnotin Hnd']; subst.
  change (analyze_candidates db ((sid, occurrences) :: rest) total min_matches)
    with ((if Z.of_nat (length occurrences) <? min_matches then []
           else match _analyze_song_match db sid occurrences total with
                | Some match_result =>
                    if Rle_bool (Q2R CONFIDENCE_THRESHOLD) (confidence match_result)
                    then [match_result] else []
                | None => []
                end)
          ++ analyze_candidates db rest total min_matches).
  specialize (IH Hnd').
  destruct (Z.of_nat (length occurrences) <? min_matches); [exact IH|].
  destruct (_analyze_song_match db sid occurrences total) as [m|] eqn:Hm; [|exact IH].
  destruct (Rle_bool _ _); [|exact IH].
  cbn [app map]. constructor; [|exact IH].
  destruct (analyze_song_match_live _ _ _ _ _ Hm) as [-> _].
  intros Hin. apply in_map_iff in Hin. destruct Hin as (r & Hid & Hr).
  apply analyze_candidates_In in Hr.
  destruct Hr as (sid' & occs' & Hin' & _ & Hm' & _).
  destruct (analyze_song_match_live _ _ _ _ _ Hm') as [Hid' _].
  apply Hnotin. rewrite <- Hid, Hid'. apply (in_map fst) in Hin'. exact Hin'.
Qed.

Lemma confidence_lt_asym (x y : MatchResult) :
  Rlt_bool (confidence y) (confidence x) = true ->
  Rlt_bool (confidence x) (confidence y) = false.
Proof.
  unfold Rlt_bool.
  destruct (Rlt_dec (confidence y) (confidence x)); [|discriminate].
  destruct (Rlt_dec (confidence x) (confidence y)); [lra|reflexivity].
Qed.

Lemma confidence_lt_trans (x y z : MatchResult) :
  Rlt_bool (confidence y) (confidence x) = true ->
  Rlt_bool (confidence z) (confidence y) = true ->
  Rlt_bool (confidence z) (confidence x) = true.
Proof.
  unfold Rlt_bool.
  destruct (Rlt_dec (confidence y) (confidence x)); [|discriminate].
  destruct (Rlt_dec (confidence z) (confidence y)); [|discriminate].
  destruct (Rlt_dec (confidence z) (confidence x)); [reflexivity|lra].
Qed.

Lemma find_matches_sorted (db : FingerprintDatabase) (query_hashes : list AudioHash)
      (min_matches : Z) :
  StronglySorted (fun x y => (confidence y <= confidence x)%R)
                 (find_matches db query_hashes min_matches).
Proof.
  unfold find_matches.
  destruct query_hashes as [|q qs]; [constructor|].
  destruct (search_fingerprints db (q :: qs)) as [|e raw]; [constructor|].
  cbv zeta.
  eapply FingerprintingFacts.strongly_sorted_impl;
    [|apply (py_sorted_sorted _ confidence_lt_asym confidence_lt_trans)].
  intros x y Hxy. unfold in_order, Rlt_bool in Hxy.
  destruct (Rlt_dec (confidence x) (confidence y)); [discriminate|lra].
Qed.

Lemma find_matches_In (db : FingerprintDatabase) (query_hashes : list AudioHash)
      (min_matches : Z) (r : MatchResult) :
  In r (find_matches db query_hashes min_matches)
  <-> In r (analyze_candidates db (search_fingerprints db query_hashes)
                               (Z.of_nat (length query_hashes)) min_matches).
Proof.
  unfold find_matches.
  destruct query_hashes as [|q qs].
  - unfold search_fingerprints.
    destruct (redis_client db); cbn; tauto.
  - destruct (search_fingerprints db (q :: qs)) as [|e raw] eqn:Hraw; [cbn; tauto|].
    cbv zeta. split; intros Hin.
    + exact (Permutation_in _ (py_sorted_perm _ _) Hin).
    + exact (Permutation_in _ (Permutation_sym (py_sorted_perm _ _)) Hin).
Qed.

Lemma find_matches_perm (db : FingerprintDatabase) (query_hashes : list AudioHash)
      (min_matches : Z) :
  Permutation (find_matches db query_hashes min_matches)
              (analyze_candidates db (search_fingerprints db query_hashes)
                                  (Z.of_nat (length query_hashes)) min_matches).
Proof.
  unfold find_matches.
  destruct query_hashes as [|q qs].
  - unfold search_fingerprints. destruct (redis_client db); reflexivity.
  - destruct (search_fingerprints db (q :: qs)) as [|e raw] eqn:Hraw; [reflexivity|].
    cbv zeta. apply py_sorted_perm.
Qed.

End RankingFacts.

Module SelfMatchFacts.
Import Config Fingerprinting Database Matching MatchingFacts DatabaseFacts.

Lemma confidence_le_1 (a m q : Z) : (_calculate_confidence a m q <= 1)%R.
Proof.
  unfold _calculate_confidence.
  destruct ((m =? 0) || (q =? 0)); [lra|]. cbv zeta. apply Rmin_l.
Qed.

Lemma confidence_full_alignment (n : Z) :
  0 < n -> (7 / 10 <= _calculate_confidence n n n)%R.
Proof.
  intros Hn. unfold _calculate_confidence.
  replace (n =? 0) with false by (symmetry; apply Z.eqb_neq; lia).
  cbn [orb]. cbv zeta.
  replace (n >? n) with false by (symmetry; rewrite Z.gtb_ltb; apply Z.ltb_irrefl).
  destruct (score_terms n n n ltac:(lia) Hn Hn) as (_ & [Hraw _] & _).
  assert (Hn' : (0 < IZR n)%R) by (apply IZR_lt, Hn).
  replace (IZR n / IZR n)%R with 1%R by (field; lra).
  rewrite (Rmin_left 1 1) by lra.
  apply Rmin_glb; lra.
Qed.

Lemma filter_none {A : Type} (f : A -> bool) (l : list A) :
  (forall x, In x l -> f x = false) -> List.filter f l = [].
Proof.
  induction l as [|x l IH]; intros Hall; [reflexivity|].
  cbn [List.filter]. rewrite (Hall x (or_introl eq_refl)).
  apply IH. intros y Hy. apply Hall. now right.
Qed.

Lemma filter_unique_key (fingerprints : list AudioHash) (q : AudioHash) :
  List.NoDup (map hash_value fingerprints) -> In q fingerprints ->
  List.filter (fun fp => bool_decide (hash_key (hash_value fp) = hash_key (hash_value q)))
              fingerprints
  = [q].
Proof.
  induction fingerprints as [|fp fps IH]; intros Hnd Hin; [destruct Hin|].
  cbn [map] in Hnd. inversion Hnd as [|? ? Hnotin Hnd']; subst.
  cbn [List.filter].
  destruct Hin as [->|Hin].
  - rewrite bool_decide_eq_true_2 by reflexivity. f_equal.
    apply filter_none. intros x Hx.
    apply bool_decide_eq_false_2. intros E. apply IndexFacts.hash_key_inj in E.
    apply Hnotin. rewrite <- E. apply in_map, Hx.
  - rewrite bool_decide_eq_false_2.
    + exact (IH Hnd' Hin).
    + intros E. apply IndexFacts.hash_key_inj in E.
      apply Hnotin. rewrite E. apply in_map, Hin.
Qed.

Lemma flat_map_singletons {A B : Type} (f : A -> list B) (g : A -> B) (l : list A) :
  (forall x, In x l -> f x = [g x]) -> flat_map f l = map g l.
Proof.
  induction l as [|x l IH]; intros Hall; [reflexivity|].
  cbn [flat_map map]. rewrite (Hall x (or_introl eq_refl)). cbn [app]. f_equal.
  apply IH. intros y Hy. apply Hall. now right.
Qed.

(** The bucket of a freshly ingested song when its own hashes are the
    query: one occurrence per hash, at offset zero. *)
Lemma own_bucket (db db' : FingerprintDatabase)
      (store : gmap string (list StoredOccurrence)) (fingerprints : list AudioHash) :
  postings_bounded db ->
  redis_client db = Some store ->
  redis_client db' = Some (queued_pushes (next_rowid db) fingerprints store) ->
  List.NoDup (map hash_value fingerprints) ->
  occurrences_of (search_fingerprints db' fingerprints) (next_rowid db)
  = map (fun q => mkOccurrence (posting_of (next_rowid db) q) (time_offset q))
        fingerprints.
Proof.
  intros Hbounded Hstore Hstore' Hnd.
  rewrite (proj2 (IndexFacts.search_fingerprints_spec _ _)).
  apply flat_map_singletons. intros q Hq.
  unfold hits, postings. rewrite Hstore'.
  rewrite IndexFacts.queued_pushes_lrange, (filter_unique_key _ _ Hnd Hq).
  cbn [map rev app List.filter posting_of song_id]. rewrite Z.eqb_refl.
  rewrite filter_none; [reflexivity|].
  intros o Ho. apply Z.eqb_neq.
  assert (Hle : song_id o <= sqlite_sequence db).
  { apply Hbounded. exists store, (hash_key (hash_value q)), o. auto. }
  destruct (next_rowid_fresh db) as [Hfresh _]. lia.
Qed.

Lemma with_postings_nonempty (db : FingerprintDatabase)
      (store : gmap string (list StoredOccurrence)) (sid : Z)
      (fingerprints : list AudioHash) :
  redis_client db = Some store -> fingerprints <> [] ->
  with_postings db sid fingerprints = Some (queued_pushes sid fingerprints store).
Proof.
  intros Hstore Hne. unfold with_postings. rewrite Hstore.
  destruct fingerprints; [congruence|reflexivity].
Qed.

Lemma redis_some_run (ops : list Op) (db : FingerprintDatabase) :
  redis_client db <> None -> redis_client (run ops db) <> None.
Proof.
  revert db. induction ops as [|op ops IH]; intros db Hsome; [exact Hsome|].
  cbn [run fold_left]. apply IH.
  destruct op as [io t a p fps al du fs|io sid]; cbn [apply_op].
  - destruct (add_song_spec db io t a p fps al du fs)
      as [[_ ->]|(_ & _ & _ & _ & Hres)]; [exact Hsome|].
    cbv zeta in Hres.
    destruct Hres as [(_ & -> & _)|(_ & _ & -> & _)]; [|exact Hsome].
    unfold with_postings.
    destruct (redis_client db); [|congruence]. destruct fps; discriminate.
  - destruct (remove_song_spec db io sid) as [[_ ->]|(_ & _ & _ & _ & _ & ->)];
      exact Hsome.
Qed.

End SelfMatchFacts.

Module FolderFacts.
Import Config Fingerprinting Database Matching ShazamSystem.

Lemma build_step_counts (env : Environment) (stem strip : string -> string)
      (state : System * BuildStats) (file : string * Backends) :
  let stats := snd state in
  let stats' := snd (build_step env stem strip state file) in
  processed stats' + failed stats' + skipped stats'
  = processed stats + failed stats + skipped stats + 1
  /\ processed stats <= processed stats'
  /\ failed stats <= failed stats'
  /\ skipped stats <= skipped stats'.
Proof.
  destruct state as [self stats]. destruct file as [audio_file io].
  cbv zeta. unfold build_step.
  destruct (metadata_from_filename stem strip audio_file) as [title artist].
  destruct (negb (sqlite_ok io)); [cbn; lia|].
  destruct (get_song_by_path (database self) audio_file); [cbn; lia|].
  destruct (add_song_to_database env self io audio_file title artist None)
    as [self' [song_id|]]; [|cbn; lia].
  destruct (song_id =? 0); cbn; lia.
Qed.

Lemma build_fold_counts (env : Environment) (stem strip : string -> string)
      (audio_files : list (string * Backends)) (state : System * BuildStats) :
  let stats := snd state in
  let stats' := snd (fold_left (build_step env stem strip) audio_files state) in
  processed stats' + failed stats' + skipped stats'
  = processed stats + failed stats + skipped stats + Z.of_nat (length audio_files)
  /\ processed stats <= processed stats'
  /\ failed stats <= failed stats'
  /\ skipped stats <= skipped stats'.
Proof.
  cbv zeta. revert state.
  induction audio_files as [|file files IH]; intros state; cbn [fold_left length].
  - lia.
  - pose proof (build_step_counts env stem strip state file) as Hstep.
    cbv zeta in Hstep.
    specialize (IH (build_step env stem strip state file)). lia.
Qed.

Lemma build_step_skips (env : Environment) (stem strip : string -> string)
      (self : System) (stats : BuildStats) (file : string * Backends) :
  sqlite_ok (snd file) = true ->
  get_song_by_path (database self) (fst file) <> None ->
  build_step env stem strip (self, stats) file
  = (self, mkBuildStats (processed stats) (failed stats) (skipped stats + 1)).
Proof.
  destruct file as [audio_file io]. cbn [fst snd]. intros Hok Hstored.
  unfold build_step.
  destruct (metadata_from_filename stem strip audio_file) as [title artist].
  rewrite Hok. cbn [negb].
  destruct (get_song_by_path (database self) audio_file); [reflexivity|congruence].
Qed.

Lemma build_fold_skips (env : Environment) (stem strip : string -> string)
      (self : System) (audio_files : list (string * Backends)) (stats : BuildStats) :
  Forall (fun file => sqlite_ok (snd file) = true
                      /\ get_song_by_path (database self) (fst file) <> None)
         audio_files ->
  fold_left (build_step env stem strip) audio_files (self, stats)
  = (self, mkBuildStats (processed stats) (failed stats)
                        (skipped stats + Z.of_nat (length audio_files))).
Proof.
  intros Hall. revert stats.
  induction Hall as [|file files [Hok Hstored] _ IH]; intros stats;
    cbn [fold_left length].
  - rewrite Z.add_0_r. destruct stats; reflexivity.
  - rewrite (build_step_skips env stem strip self stats file Hok Hstored), IH.
    cbn [processed failed skipped]. do 2 f_equal. lia.
Qed.

End FolderFacts.

Module FileNameFacts.
Import ShazamSystem.

Lemma append_cons (c : ascii) (s t : string) : String c s +:+ t = String c (s +:+ t).
Proof. reflexivity. Qed.

Lemma append_nil (t : string) : EmptyString +:+ t = t.
Proof. reflexivity. Qed.

Lemma substring_whole (s : string) : substring 0 (String.length s) s = s.
Proof.
  induction s as [|a s IH]; [reflexivity|].
  cbn [String.length substring]. now rewrite IH.
Qed.

Lemma substring_tail (s : string) (n m m' : nat) :
  (String.length s - n <= m)%nat -> (String.length s - n <= m')%nat ->
  substring n m s = substring n m' s.
Proof.
  revert n m m'. induction s as [|a s IH]; intros n m m' Hm Hm'.
  - destruct n, m, m'; reflexivity.
  - destruct n as [|n].
    + cbn [String.length] in Hm, Hm'.
      destruct m as [|m]; [lia|]. destruct m' as [|m']; [lia|].
      cbn [substring]. f_equal. apply IH; lia.
    + cbn [substring]. apply IH; cbn [String.length] in Hm, Hm'; lia.
Qed.

Lemma prefix_split (sep s : string) :
  String.prefix sep s = true ->
  s = sep +:+ substring (String.length sep) (String.length s) s.
Proof.
  revert s. induction sep as [|c sep IH]; intros s Hprefix.
  - rewrite append_nil. cbn [String.length]. now rewrite substring_whole.
  - destruct s as [|a s]; [discriminate|].
    cbn [String.prefix] in Hprefix.
    destruct (Ascii.ascii_dec c a) as [->|]; [|discriminate].
    rewrite append_cons. cbn [String.length substring].
    f_equal. rewrite (IH s Hprefix) at 1. f_equal.
    apply substring_tail; lia.
Qed.

Lemma prefix_append (sep rest : string) : String.prefix sep (sep +:+ rest) = true.
Proof.
  induction sep as [|c sep IH]; [destruct rest; reflexivity|].
  rewrite append_cons. cbn [String.prefix].
  destruct (Ascii.ascii_dec c c); [exact IH|congruence].
Qed.

Lemma split_once_sound (sep s before rest : string) :
  split_once sep s = Some (before, rest) -> s = before +:+ sep +:+ rest.
Proof.
  revert before. induction s as [|c s IH]; intros before; [discriminate|].
  cbn [split_once].
  destruct (String.prefix sep (String c s)) eqn:Hprefix.
  - intros [= <- <-]. rewrite append_nil. apply prefix_split, Hprefix.
  - destruct (split_once sep s) as [[before' rest']|] eqn:Hsplit; [|discriminate].
    intros [= <- <-]. rewrite append_cons. f_equal. apply IH. reflexivity.
Qed.

Lemma split_once_leftmost (sep s before rest before' rest' : string) :
  split_once sep s = Some (before, rest) ->
  s = before' +:+ sep +:+ rest' ->
  (String.length before <= String.length before')%nat.
Proof.
  revert before before'. induction s as [|c s IH]; intros before before';
    [discriminate|].
  cbn [split_once].
  destruct (String.prefix sep (String c s)) eqn:Hprefix.
  - intros [= <- <-] _. cbn. lia.
  - destruct (split_once sep s) as [[before0 rest0]|] eqn:Hsplit; [|discriminate].
    intros [= <- <-] Hs.
    destruct before' as [|c' before''].
    + rewrite append_nil in Hs. rewrite Hs, prefix_append in Hprefix. discriminate.
    + rewrite append_cons in Hs. injection Hs as _ Hs.
      cbn [String.length]. specialize (IH before0 before'' eq_refl Hs). lia.
Qed.

Lemma split_once_complete (sep s before rest : string) :
  sep <> EmptyString ->
  s = before +:+ sep +:+ rest -> split_once sep s <> None.
Proof.
  intros Hsep. revert s. induction before as [|c before IH]; intros s ->.
  - rewrite append_nil.
    destruct sep as [|a sep]; [congruence|].
    rewrite append_cons. cbn [split_once].
    rewrite <- append_cons, prefix_append. discriminate.
  - rewrite append_cons. cbn [split_once].
    destruct (String.prefix sep _); [discriminate|].
    specialize (IH _ eq_refl).
    destruct (split_once sep (before +:+ sep +:+ rest)) as [[? ?]|];
      [discriminate|congruence].
Qed.

End FileNameFacts.

(** ** Constellation and hashes *)

(** X1 ([_find_target_peaks]).  On candidates in time order the early
    [break] loses nothing: the targets are the first [max_targets]
    candidates that lie in the window after the anchor, or the first one
    alone when [max_targets] is below one. *)
Theorem target_zone_takes_first_in_window :
  forall (anchor_peak : Fingerprinting.SpectralPeak)
         (candidate_peaks : list Fingerprinting.SpectralPeak) (max_targets : Z),
    StronglySorted (fun p q => Fingerprinting.time_frame p <= Fingerprinting.time_frame q)
                   candidate_peaks ->
    Fingerprinting._find_target_peaks anchor_peak candidate_peaks max_targets
    = firstn (Z.to_nat (Z.max 1 max_targets))
             (List.filter (Fingerprinting.in_window anchor_peak) candidate_peaks).
Proof.
  intros anchor_peak candidate_peaks max_targets Hsorted.
  unfold Fingerprinting._find_target_peaks.
  rewrite (TargetZoneFacts.find_targets_from_sorted _ _ max_targets 0 Hsorted).
  now rewrite Z.sub_0_r.
Qed.

Lemma target_zone_takes_first_in_window_witness :
  Fingerprinting._find_target_peaks Scenarios.lead_peak Scenarios.following_peaks 5
  = firstn 5 (List.filter (Fingerprinting.in_window Scenarios.lead_peak)
                          Scenarios.following_peaks).
Proof.
  apply (target_zone_takes_first_in_window
           Scenarios.lead_peak Scenarios.following_peaks 5).
  unfold Scenarios.following_peaks.
  repeat (constructor; [|repeat constructor; cbn; lia]).
  constructor.
Defined.

(** X2 ([generate_hashes]).  An anchor is paired with at most
    [HASH_FAN_VALUE] targets, so a constellation of [n] peaks yields at most
    [HASH_FAN_VALUE * n] hashes. *)
Theorem fan_out_bounds_hash_count :
  forall peaks : list Fingerprinting.SpectralPeak,
    Z.of_nat (length (Fingerprinting.generate_hashes peaks))
    <= Config.HASH_FAN_VALUE * Z.of_nat (length peaks).
Proof.
  intros peaks. unfold Fingerprinting.generate_hashes. cbv zeta.
  rewrite <- (Permutation_length
                (py_sorted_perm
                   (fun p q => Fingerprinting.time_frame p <? Fingerprinting.time_frame q)
                   peaks)).
  apply TargetZoneFacts.hashes_from_length.
Qed.

(** X3 ([generate_hashes], [_create_hash]).  Every hash of a constellation
    pairs two of its peaks: the offset is the anchor's frame, the target lies
    [time_delta] frames later with [HASH_TIME_DELTA_MIN <= time_delta <=
    HASH_TIME_DELTA_MAX], and the hash value is 16 lower-case hexadecimal
    digits. *)
Theorem generated_hashes_well_formed :
  forall peaks : list Fingerprinting.SpectralPeak,
    Forall (fun h =>
              Config.HASH_TIME_DELTA_MIN <= Fingerprinting.time_delta h
                                         <= Config.HASH_TIME_DELTA_MAX
              /\ String.length (Fingerprinting.hash_value h) = 16%nat
              /\ Forall (fun c => In c (list_ascii_of_string "0123456789abcdef"))
                        (list_ascii_of_string (Fingerprinting.hash_value h))
              /\ exists anchor target,
                   In anchor peaks /\ In target peaks
                   /\ Fingerprinting.time_offset h = Fingerprinting.time_frame anchor
                   /\ Fingerprinting.time_frame target
                      = Fingerprinting.time_offset h + Fingerprinting.time_delta h
                   /\ Fingerprinting.anchor_freq h = Fingerprinting.frequency_bin anchor
                   /\ Fingerprinting.target_freq h = Fingerprinting.frequency_bin target)
           (Fingerprinting.generate_hashes peaks).
Proof.
  intros peaks. apply List.Forall_forall. intros h Hh.
  destruct (FingerprintingFacts.generate_hashes_In _ _ Hh)
    as (anchor & target & Ha & Ht & Hcreate).
  destruct (FingerprintingFacts.create_hash_fields _ _ _ Hcreate)
    as (Haf & Htf & Hoff & Hdelta).
  destruct (ConstellationFacts.create_hash_Some _ _ _ Hcreate) as [Hwin _].
  apply ConstellationFacts.in_window_iff in Hwin.
  destruct (ConstellationFacts.hash_value_shape _ _ _ Hcreate) as [Hlen Hhex].
  split; [rewrite Hdelta; exact Hwin|].
  split; [exact Hlen|].
  split; [apply List.Forall_forall; exact Hhex|].
  exists anchor, target. repeat split; try assumption. lia.
Qed.

(** X4 ([fingerprint_audio]).  A transform of at most one frame gives no
    fingerprint: all its peaks share a frame, and a pair needs a time delta
    of at least [HASH_TIME_DELTA_MIN]. *)
Theorem single_frame_yields_no_fingerprint :
  forall (compute_spectrogram :
            Fingerprinting.AudioFingerprinter -> list Q
            -> outcome Fingerprinting.Spectrogram)
         (self : Fingerprinting.AudioFingerprinter) (audio : list Q)
         (spectrogram : Fingerprinting.Spectrogram),
    compute_spectrogram self audio = Returned spectrogram ->
    (Fingerprinting.n_frames spectrogram <= 1)%nat ->
    Fingerprinting.fingerprint_audio compute_spectrogram self audio = Returned [].
Proof.
  intros stft self audio spectrogram Hstft Hframes.
  unfold Fingerprinting.fingerprint_audio. rewrite Hstft. cbn [bind_outcome]. cbv zeta.
  assert (Hnone : Fingerprinting.generate_hashes
                    (Fingerprinting.extract_peaks self spectrogram) = []).
  { unfold Fingerprinting.generate_hashes. cbv zeta.
    apply (TargetZoneFacts.hashes_from_same_frame _ 0).
    apply List.Forall_forall. intros p Hp.
    apply (Permutation_in _ (py_sorted_perm _ _)) in Hp.
    destruct (ConstellationFacts.extract_peaks_In _ _ _ Hp) as (band & _ & Hband).
    destruct (ConstellationFacts.find_peaks_in_band_cell _ _ _ _ Hband)
      as (t & b & Ht & _ & _ & -> & _).
    cbn [Fingerprinting.time_frame]. lia. }
  rewrite Hnone.
  destruct (Fingerprinting.extract_peaks self spectrogram); reflexivity.
Qed.

Lemma single_frame_yields_no_fingerprint_witness :
  Fingerprinting.fingerprint_audio
    Scenarios.one_frame_stft (Fingerprinting.new_fingerprinter 22050 2048 512)
    [1; 0; 1]%Q
  = Returned [].
Proof.
  apply (single_frame_yields_no_fingerprint
           Scenarios.one_frame_stft (Fingerprinting.new_fingerprinter 22050 2048 512)
           [1; 0; 1]%Q Scenarios.one_frame_spectrogram).
  - reflexivity.
  - cbn. lia.
Defined.

(** X5 ([extract_peaks], [_find_peaks_in_band]).  A peak stands for a cell
    of the spectrogram: its frame and its bin are inside the array, its
    amplitude is the magnitude stored there and is at least
    [MIN_PEAK_AMPLITUDE].  There are at most as many peaks as bands times
    frames. *)
Theorem extracted_peaks_are_cells :
  forall (self : Fingerprinting.AudioFingerprinter)
         (spectrogram : Fingerprinting.Spectrogram),
    Forall (fun p =>
              exists t b,
                (t < Fingerprinting.n_frames spectrogram)%nat
                /\ (b < length (Fingerprinting.rows spectrogram))%nat
                /\ Fingerprinting.time_frame p = Z.of_nat t
                /\ Fingerprinting.frequency_bin p = Z.of_nat b
                /\ Fingerprinting.amplitude p
                   = nth t (nth b (Fingerprinting.rows spectrogram) []) 0%Q
                /\ (Config.MIN_PEAK_AMPLITUDE <= Fingerprinting.amplitude p)%Q)
           (Fingerprinting.extract_peaks self spectrogram)
    /\ (length (Fingerprinting.extract_peaks self spectrogram)
        <= length (Fingerprinting.band_indices self)
           * Fingerprinting.n_frames spectrogram)%nat.
Proof.
  intros self spectrogram. split.
  - apply List.Forall_forall. intros p Hp.
    destruct (ConstellationFacts.extract_peaks_In _ _ _ Hp) as (band & _ & Hband).
    destruct (ConstellationFacts.find_peaks_in_band_cell _ _ _ _ Hband)
      as (t & b & Ht & _ & Hb & Heq & Hamp).
    exists t, b. rewrite Heq in *. cbn in *. repeat split; assumption.
  - rewrite (Permutation_length (FingerprintingFacts.extract_peaks_perm self spectrogram)).
    unfold Fingerprinting.band_peaks.
    induction (Fingerprinting.band_indices self) as [|band bands IH]; [cbn; lia|].
    cbn [flat_map length]. rewrite length_app.
    pose proof (ConstellationFacts.find_peaks_in_band_length
                  (Fingerprinting.band_slice spectrogram (fst band) (snd band))
                  (fst band)) as Hlen.
    cbn [Fingerprinting.band_slice Fingerprinting.n_frames] in Hlen. lia.
Qed.

(** X6 ([_compute_band_indices]).  On an ascending frequency axis the
    four bands are well formed: each has its low bin at or below its high
    bin, inside the axis; a band ends where the next one begins or earlier,
    so no bin belongs to two bands; and the bins from [low_bin] up to
    [high_bin] are exactly those whose frequency [f] has
    [low_freq <= f < high_freq].  (The axis of the code is an array of
    finite doubles, each of them a rational.) *)
Theorem band_indices_ordered :
  forall freq_bins : list Q,
    StronglySorted Qle freq_bins ->
    length (Fingerprinting._compute_band_indices freq_bins) = length Config.FREQ_BANDS
    /\ Forall (fun band => (fst band <= snd band <= length freq_bins)%nat)
              (Fingerprinting._compute_band_indices freq_bins)
    /\ StronglySorted (fun band later => (snd band <= fst later)%nat)
                      (Fingerprinting._compute_band_indices freq_bins)
    /\ Forall (fun entry =>
                 forall k,
                   (k < length freq_bins)%nat ->
                   (fst (snd entry) <= k < snd (snd entry))%nat
                   <-> (inject_Z (fst (fst entry)) <= nth k freq_bins 0
                        /\ nth k freq_bins 0 < inject_Z (snd (fst entry)))%Q)
              (combine Config.FREQ_BANDS
                       (Fingerprinting._compute_band_indices freq_bins)).
Proof.
  intros freq_bins Hsorted.
  unfold Fingerprinting._compute_band_indices, Config.FREQ_BANDS.
  cbn [map fst snd length combine].
  assert (Hmono : forall a b : Z,
             a <= b ->
             (Fingerprinting.searchsorted freq_bins (inject_Z a)
              <= Fingerprinting.searchsorted freq_bins (inject_Z b))%nat).
  { intros a b Hab. apply ConstellationFacts.searchsorted_monotone.
    rewrite <- Zle_Qle. exact Hab. }
  pose proof (ConstellationFacts.searchsorted_le_length freq_bins) as Hlen.
  assert (Hband : forall (low_freq high_freq : Z) (k : nat),
             (k < length freq_bins)%nat ->
             (Fingerprinting.searchsorted freq_bins (inject_Z low_freq) <= k
              < Fingerprinting.searchsorted freq_bins (inject_Z high_freq))%nat
             <-> (inject_Z low_freq <= nth k freq_bins 0
                  /\ nth k freq_bins 0 < inject_Z high_freq)%Q).
  { intros low_freq high_freq k Hk.
    pose proof (ConstellationFacts.searchsorted_spec
                  freq_bins (inject_Z low_freq) k Hsorted Hk) as Hlow.
    pose proof (ConstellationFacts.searchsorted_spec
                  freq_bins (inject_Z high_freq) k Hsorted Hk) as Hhigh.
    rewrite <- Hhigh. split.
    - intros [Hge Hlt]. split; [|exact Hlt].
      apply Qnot_lt_le. intros Hbelow. apply Hlow in Hbelow. lia.
    - intros [Hge Hlt]. split; [|exact Hlt].
      apply Nat.le_ngt. intros Hbelow. apply Hlow in Hbelow.
      apply (Qlt_irrefl (inject_Z low_freq)). eapply Qle_lt_trans; eassumption. }
  split; [reflexivity|]. split; [|split].
  - repeat constructor; cbn [fst snd]; try apply Hlen; apply Hmono; lia.
  - repeat constructor; cbn [fst snd]; apply Hmono; lia.
  - repeat (constructor; [cbn [fst snd]; intros k Hk; apply Hband, Hk|]).
    constructor.
Qed.

Lemma band_indices_ordered_witness :
  length (Fingerprinting._compute_band_indices Scenarios.coarse_axis)
  = length Config.FREQ_BANDS
  /\ Forall (fun band => (fst band <= snd band <= length Scenarios.coarse_axis)%nat)
            (Fingerprinting._compute_band_indices Scenarios.coarse_axis)
  /\ StronglySorted (fun band later => (snd band <= fst later)%nat)
                    (Fingerprinting._compute_band_indices Scenarios.coarse_axis)
  /\ Forall (fun entry =>
               forall k,
                 (k < length Scenarios.coarse_axis)%nat ->
                 (fst (snd entry) <= k < snd (snd entry))%nat
                 <-> (inject_Z (fst (fst entry)) <= nth k Scenarios.coarse_axis 0
                      /\ nth k Scenarios.coarse_axis 0 < inject_Z (snd (fst entry)))%Q)
            (combine Config.FREQ_BANDS
                     (Fingerprinting._compute_band_indices Scenarios.coarse_axis)).
Proof.
  apply (band_indices_ordered Scenarios.coarse_axis).
  unfold Scenarios.coarse_axis. cbn [seq map].
  repeat (constructor; [|repeat constructor; unfold Qle; cbn; lia]).
  constructor.
Defined.

(** ** The two stores *)

(** X7 ([add_song], [remove_song]).  Whatever calls are made on fresh
    stores, no two rows share a [file_path] or an [id], no [id] exceeds the
    AUTOINCREMENT counter, and no posting names an id that was never handed
    out. *)
Theorem every_history_keeps_tables_consistent :
  forall (redis_reachable : bool) (ops : list Database.Op),
    Database.consistent (Database.run ops (Database.new_database redis_reachable))
    /\ Database.postings_bounded
         (Database.run ops (Database.new_database redis_reachable)).
Proof.
  intros redis_reachable ops.
  destruct (DatabaseFacts.consistent_new redis_reachable) as [Hc Hb].
  exact (DatabaseFacts.consistent_run ops _ Hc Hb).
Qed.

(** X8 ([add_song], [get_song_metadata], [get_song_by_path]).  An ingest
    touches only the rows of its own [file_path]: a lookup by any other path
    answers as before, and a row stored under another path is still found by
    its id. *)
Theorem add_song_touches_only_its_path :
  forall (db : Database.FingerprintDatabase) (io : Database.Backends)
         (title artist path : string) (fingerprints : list Fingerprinting.AudioHash)
         (album : option string) (duration : option Q) (file_size : option Z),
    (forall other,
        other <> path ->
        Database.get_song_by_path
          (fst (Database.add_song db io title artist path fingerprints
                                  album duration file_size)) other
        = Database.get_song_by_path db other)
    /\ (forall sid row,
           Database.get_song_metadata db sid = Some row ->
           Database.file_path row <> path ->
           Database.get_song_metadata
             (fst (Database.add_song db io title artist path fingerprints
                                     album duration file_size)) sid
           = Some row).
Proof.
  intros db io title artist path fingerprints album duration file_size.
  destruct (DatabaseFacts.add_song_spec db io title artist path fingerprints
                                        album duration file_size)
    as [[_ ->]|(_ & Hsongs & _)]; [split; auto|].
  cbv zeta in Hsongs.
  split.
  - intros other Hother. unfold Database.get_song_by_path. rewrite Hsongs.
    destruct (find (fun r => bool_decide (Database.file_path r = other))
                   (Database.songs db)) as [row|] eqn:Hfind.
    + apply IndexFacts.find_app_Some.
      apply IndexFacts.find_filter_Some; [exact Hfind|].
      apply DatabaseFacts.find_path_Some in Hfind. destruct Hfind as [_ Hpath].
      rewrite bool_decide_eq_false_2 by congruence. reflexivity.
    + rewrite DatabaseFacts.find_app_None.
      * cbn [find Database.new_row Database.file_path].
        rewrite bool_decide_eq_false_2 by congruence. reflexivity.
      * rewrite IndexFacts.find_filter_agree; [exact Hfind|].
        intros x Hx. apply bool_decide_eq_true_1 in Hx.
        rewrite bool_decide_eq_false_2 by congruence. reflexivity.
  - intros sid row Hfind Hpath. unfold Database.get_song_metadata. rewrite Hsongs.
    apply IndexFacts.find_app_Some.
    apply IndexFacts.find_filter_Some; [exact Hfind|].
    rewrite bool_decide_eq_false_2 by exact Hpath. reflexivity.
Qed.

Lemma add_song_touches_only_its_path_witness :
  Database.get_song_by_path
    (fst (Database.add_song Examples.one_song Database.healthy
                            "A440 live" "Test" "/music/a440_live.wav"
                            [Examples.sample_hash] None None None))
    Examples.a440_path
  = Database.get_song_by_path Examples.one_song Examples.a440_path.
Proof.
  apply (proj1 (add_song_touches_only_its_path
                  Examples.one_song Database.healthy
                  "A440 live" "Test" "/music/a440_live.wav"
                  [Examples.sample_hash] None None None)).
  vm_compute. discriminate.
Defined.

(** X9 ([remove_song]).  A removal that reports success deletes the row of
    that id and nothing else: every other id resolves as before, the lists of
    the index are untouched, and a second removal of the id reports failure
    and changes nothing. *)
Theorem remove_song_removes_only_that_id :
  forall (db : Database.FingerprintDatabase) (io : Database.Backends) (sid : Z),
    snd (Database.remove_song db io sid) = true ->
    Database.get_song_metadata (fst (Database.remove_song db io sid)) sid = None
    /\ (forall other,
           other <> sid ->
           Database.get_song_metadata (fst (Database.remove_song db io sid)) other
           = Database.get_song_metadata db other)
    /\ (forall key,
           Database.postings (fst (Database.remove_song db io sid)) key
           = Database.postings db key)
    /\ (forall io',
           Database.remove_song (fst (Database.remove_song db io sid)) io' sid
           = (fst (Database.remove_song db io sid), false)).
Proof.
  intros db io sid Hok.
  destruct (DatabaseFacts.remove_song_spec db io sid)
    as [[Hfalse _]|(_ & _ & _ & Hsongs & _ & Hredis)]; [congruence|].
  cbv zeta in *.
  assert (Hgone : Database.get_song_metadata (fst (Database.remove_song db io sid)) sid
                  = None).
  { unfold Database.get_song_metadata. rewrite Hsongs.
    apply DatabaseFacts.find_id_None. apply List.Forall_forall.
    intros r Hr. apply filter_In in Hr. destruct Hr as [_ Hr].
    apply negb_true_iff, Z.eqb_neq in Hr. exact Hr. }
  split; [exact Hgone|]. split; [|split].
  - intros other Hother. unfold Database.get_song_metadata. rewrite Hsongs.
    apply IndexFacts.find_filter_agree.
    intros x Hx. apply Z.eqb_eq in Hx. apply negb_true_iff, Z.eqb_neq. congruence.
  - intros key. unfold Database.postings. now rewrite Hredis.
  - intros io'. unfold Database.remove_song at 1. rewrite Hgone.
    destruct (negb (Database.sqlite_ok io')); reflexivity.
Qed.

Lemma remove_song_removes_only_that_id_witness :
  Database.get_song_metadata Examples.after_removal 1 = None
  /\ (forall other,
         other <> 1 ->
         Database.get_song_metadata Examples.after_removal other
         = Database.get_song_metadata Examples.both_ingested other)
  /\ (forall key,
         Database.postings Examples.after_removal key
         = Database.postings Examples.both_ingested key)
  /\ (forall io',
         Database.remove_song Examples.after_removal io' 1
         = (Examples.after_removal, false)).
Proof.
  apply (remove_song_removes_only_that_id Examples.both_ingested Database.healthy 1).
  vm_compute. reflexivity.
Defined.

(** X10 ([_store_fingerprints_redis]).  When the pipeline executes, the
    list under a key gains one posting for every fingerprint with that key,
    the last pushed first, in front of what was there; the other lists and
    the table of songs are left alone. *)
Theorem stored_postings_head_their_lists :
  forall (db : Database.FingerprintDatabase) (io : Database.Backends)
         (song_id : Z) (fingerprints : list Fingerprinting.AudioHash),
    Database.redis_client db <> None ->
    Database.redis_ok io = true ->
    snd (Database._store_fingerprints_redis db io song_id fingerprints) = Returned tt
    /\ Database.songs (fst (Database._store_fingerprints_redis
                              db io song_id fingerprints))
       = Database.songs db
    /\ forall key,
         Database.postings
           (fst (Database._store_fingerprints_redis db io song_id fingerprints)) key
         = rev (map (Database.posting_of song_id)
                    (List.filter
                       (fun fp => bool_decide
                                    (Database.hash_key (Fingerprinting.hash_value fp)
                                     = key))
                       fingerprints))
           ++ Database.postings db key.
Proof.
  intros db io song_id fingerprints Hclient Hok.
  unfold Database._store_fingerprints_redis, Database.postings.
  destruct (Database.redis_client db) as [store|]; [|congruence].
  rewrite Hok. cbn [fst snd Database.songs Database.redis_client].
  split; [reflexivity|]. split; [reflexivity|].
  intros key. apply IndexFacts.queued_pushes_lrange.
Qed.

Lemma stored_postings_head_their_lists_witness :
  Database.postings
    (fst (Database._store_fingerprints_redis
            (Database.new_database true) Database.healthy 1
            [Examples.sample_hash; Examples.sample_hash]))
    "hash:d2eefa2ab3e7214f"
  = [Database.posting_of 1 Examples.sample_hash;
     Database.posting_of 1 Examples.sample_hash]
    ++ Database.postings (Database.new_database true) "hash:d2eefa2ab3e7214f".
Proof.
  apply (proj2 (proj2 (stored_postings_head_their_lists
                         (Database.new_database true) Database.healthy 1
                         [Examples.sample_hash; Examples.sample_hash]
                         ltac:(discriminate) eq_refl))
               "hash:d2eefa2ab3e7214f"%string).
Defined.

(** X11 ([search_fingerprints]).  The result groups the postings by song:
    every song id is a key once, no list is empty, and the list of a song
    holds, for each query hash in turn, the postings of that song under the
    key of the hash, in list order, each tagged with the query time. *)
Theorem search_groups_postings_by_song :
  forall (db : Database.FingerprintDatabase)
         (query_hashes : list Fingerprinting.AudioHash),
    Database.well_keyed (Database.search_fingerprints db query_hashes)
    /\ forall song_id,
         Database.occurrences_of (Database.search_fingerprints db query_hashes) song_id
         = flat_map (Database.hits db song_id) query_hashes.
Proof. exact IndexFacts.search_fingerprints_spec. Qed.

(** X12 ([add_song], [search_fingerprints]).  What is ingested is found
    again: after an ingest that both stores accept, a search for the ingested
    hashes lists, under the new song id, every fingerprint with the stored
    time equal to the query time. *)
Theorem ingested_hashes_are_found :
  forall (db : Database.FingerprintDatabase) (io : Database.Backends)
         (title artist path : string) (fingerprints : list Fingerprinting.AudioHash)
         (album : option string) (duration : option Q) (file_size : option Z),
    Database.sqlite_ok io = true ->
    Database.redis_ok io = true ->
    Database.redis_client db <> None ->
    snd (Database.add_song db io title artist path fingerprints album duration file_size)
    = Returned (Database.next_rowid db)
    /\ Forall (fun fp =>
                 In (Database.mkOccurrence
                       (Database.posting_of (Database.next_rowid db) fp)
                       (Fingerprinting.time_offset fp))
                    (Database.occurrences_of
                       (Database.search_fingerprints
                          (fst (Database.add_song db io title artist path fingerprints
                                                  album duration file_size))
                          fingerprints)
                       (Database.next_rowid db)))
              fingerprints.
Proof.
  intros db io title artist path fingerprints album duration file_size Hsql Hredis Hclient.
  destruct (DatabaseFacts.add_song_spec db io title artist path fingerprints
                                        album duration file_size)
    as [[Hdown _]|(_ & _ & _ & _ & Hres)]; [congruence|].
  cbv zeta in Hres.
  destruct Hres as [(Hret & Hstore & _)|(_ & Hdown & _)]; [|congruence].
  split; [exact Hret|].
  apply List.Forall_forall. intros fp Hfp.
  rewrite (proj2 (IndexFacts.search_fingerprints_spec _ _)).
  apply in_flat_map. exists fp. split; [exact Hfp|].
  unfold Database.hits.
  apply (in_map (fun occurrence_data =>
                   Database.mkOccurrence occurrence_data (Fingerprinting.time_offset fp))).
  apply filter_In. split.
  - unfold Database.postings. rewrite Hstore. unfold Database.with_postings.
    destruct (Database.redis_client db) as [store|]; [|congruence].
    destruct fingerprints as [|fp0 fps]; [destruct Hfp|].
    apply (DatabaseFacts.queued_pushes_all (Database.next_rowid db) (fp0 :: fps)
                                           store fp Hfp).
  - cbn. apply Z.eqb_refl.
Qed.

Lemma ingested_hashes_are_found_witness :
  snd (Database.add_song (Database.new_database true) Database.healthy
                         "Track" "Artist" "/music/track.wav"
                         Scenarios.three_hashes None None None)
  = Returned (Database.next_rowid (Database.new_database true))
  /\ Forall (fun fp =>
               In (Database.mkOccurrence
                     (Database.posting_of
                        (Database.next_rowid (Database.new_database true)) fp)
                     (Fingerprinting.time_offset fp))
                  (Database.occurrences_of
                     (Database.search_fingerprints
                        (fst (Database.add_song
                                (Database.new_database true) Database.healthy
                                "Track" "Artist" "/music/track.wav"
                                Scenarios.three_hashes None None None))
                        Scenarios.three_hashes)
                     (Database.next_rowid (Database.new_database true))))
            Scenarios.three_hashes.
Proof.
  apply (ingested_hashes_are_found
           (Database.new_database true) Database.healthy
           "Track" "Artist" "/music/track.wav"
           Scenarios.three_hashes None None None).
  - reflexivity.
  - reflexivity.
  - discriminate.
Defined.

(** X13 ([get_database_stats], [add_song]).  The statistics follow an
    ingest: the number of songs grows by one unless the path was already
    stored, and the number of fingerprints gains the new count and loses the
    count of the row that was replaced. *)
Theorem stats_follow_ingest :
  forall (db : Database.FingerprintDatabase) (io : Database.Backends)
         (title artist path : string) (fingerprints : list Fingerprinting.AudioHash)
         (album : option string) (duration : option Q) (file_size : option Z),
    Database.consistent db ->
    Database.sqlite_ok io = true ->
    exists before after,
      Database.get_database_stats db Database.healthy = Returned before
      /\ Database.get_database_stats
           (fst (Database.add_song db io title artist path fingerprints
                                   album duration file_size))
           Database.healthy
         = Returned after
      /\ Database.total_songs after
         = Database.total_songs before
           + match Database.get_song_by_path db path with
             | Some _ => 0
             | None => 1
             end
      /\ Database.total_fingerprints after
         = Database.total_fingerprints before
           - match Database.get_song_by_path db path with
             | Some replaced => Database.fingerprint_count replaced
             | None => 0
             end
           + Z.of_nat (length fingerprints).
Proof.
  intros db io title artist path fingerprints album duration file_size Hcons Hsql.
  destruct (StatsFacts.get_database_stats_counts db Database.healthy eq_refl)
    as (before & Hbefore & Hn & Hf & _).
  destruct (StatsFacts.get_database_stats_counts
              (fst (Database.add_song db io title artist path fingerprints
                                      album duration file_size))
              Database.healthy eq_refl)
    as (after & Hafter & Hn' & Hf' & _).
  exists before, after. split; [exact Hbefore|]. split; [exact Hafter|].
  rewrite Hn, Hf, Hn', Hf'.
  destruct (DatabaseFacts.add_song_spec db io title artist path fingerprints
                                        album duration file_size)
    as [[Hdown _]|(_ & Hsongs & _)]; [congruence|].
  cbv zeta in Hsongs. rewrite Hsongs.
  rewrite length_app, StatsFacts.sum_snoc.
  cbn [length Database.new_row Database.fingerprint_count].
  unfold Database.get_song_by_path.
  destruct (find (fun r => bool_decide (Database.file_path r = path))
                 (Database.songs db)) as [replaced|] eqn:Hfind.
  - destruct (DatabaseFacts.find_path_Some _ _ _ Hfind) as [Hin Hpath].
    destruct Hcons as [Hpaths _].
    destruct (StatsFacts.drop_one_row
                Database.file_path
                (fun r => bool_decide (Database.file_path r = path))
                Database.fingerprint_count (Database.songs db) replaced Hpaths Hin)
      as [Hsum Hlen].
    + apply bool_decide_eq_true_2, Hpath.
    + intros x _ Hx. apply bool_decide_eq_true_1 in Hx. congruence.
    + rewrite Hsum. split; lia.
  - rewrite (DatabaseFacts.find_path_None _ _ Hfind). split; lia.
Qed.

Lemma stats_follow_ingest_witness :
  exists before after,
    Database.get_database_stats Examples.one_song Database.healthy = Returned before
    /\ Database.get_database_stats
         (fst (Database.add_song Examples.one_song Database.healthy
                                 "A440" "Test" Examples.a440_path
                                 [Examples.sample_hash; Examples.sample_hash]
                                 None None None))
         Database.healthy
       = Returned after
    /\ Database.total_songs after
       = Database.total_songs before
         + match Database.get_song_by_path Examples.one_song Examples.a440_path with
           | Some _ => 0
           | None => 1
           end
    /\ Database.total_fingerprints after
       = Database.total_fingerprints before
         - match Database.get_song_by_path Examples.one_song Examples.a440_path with
           | Some replaced => Database.fingerprint_count replaced
           | None => 0
           end
         + Z.of_nat (length [Examples.sample_hash; Examples.sample_hash]).
Proof.
  apply (stats_follow_ingest
           Examples.one_song Database.healthy "A440" "Test" Examples.a440_path
           [Examples.sample_hash; Examples.sample_hash] None None None).
  - apply (DatabaseFacts.consistent_add_song
             (Database.new_database true) Database.healthy
             "A440" "Test" Examples.a440_path [Examples.sample_hash] None None None).
    exact (proj1 (DatabaseFacts.consistent_new true)).
  - reflexivity.
Defined.

(** X14 ([get_database_stats], [remove_song]).  A removal takes one song
    and its fingerprint count off the statistics, and leaves the number of
    Redis keys as it was: the postings of the song stay in the index. *)
Theorem stats_follow_removal :
  forall (db : Database.FingerprintDatabase) (io : Database.Backends) (sid : Z),
    Database.consistent db ->
    snd (Database.remove_song db io sid) = true ->
    exists removed before after,
      Database.get_song_metadata db sid = Some removed
      /\ Database.get_database_stats db Database.healthy = Returned before
      /\ Database.get_database_stats (fst (Database.remove_song db io sid))
                                     Database.healthy
         = Returned after
      /\ Database.total_songs after = Database.total_songs before - 1
      /\ Database.total_fingerprints after
         = Database.total_fingerprints before - Database.fingerprint_count removed
      /\ Database.redis_keys after = Database.redis_keys before.
Proof.
  intros db io sid Hcons Hok.
  destruct (DatabaseFacts.remove_song_spec db io sid)
    as [[Hfalse _]|(_ & _ & [removed Hfind] & Hsongs & _ & Hredis)]; [congruence|].
  cbv zeta in *.
  destruct (StatsFacts.get_database_stats_counts db Database.healthy eq_refl)
    as (before & Hbefore & Hn & Hf & Hk).
  destruct (StatsFacts.get_database_stats_counts
              (fst (Database.remove_song db io sid)) Database.healthy eq_refl)
    as (after & Hafter & Hn' & Hf' & Hk').
  exists removed, before, after.
  split; [exact Hfind|]. split; [exact Hbefore|]. split; [exact Hafter|].
  rewrite Hn, Hf, Hk, Hn', Hf', Hk', Hsongs, Hredis.
  destruct (DatabaseFacts.find_id_Some _ _ _ Hfind) as [Hin Hid].
  destruct Hcons as (_ & Hids & _).
  destruct (StatsFacts.drop_one_row
              Database.id (fun r => Database.id r =? sid)
              Database.fingerprint_count (Database.songs db) removed Hids Hin)
    as [Hsum Hlen].
  - apply Z.eqb_eq, Hid.
  - intros x _ Hx. apply Z.eqb_eq in Hx. congruence.
  - rewrite Hsum. repeat split; lia.
Qed.

Lemma stats_follow_removal_witness :
  exists removed before after,
    Database.get_song_metadata Examples.both_ingested 1 = Some removed
    /\ Database.get_database_stats Examples.both_ingested Database.healthy
       = Returned before
    /\ Database.get_database_stats Examples.after_removal Database.healthy
       = Returned after
    /\ Database.total_songs after = Database.total_songs before - 1
    /\ Database.total_fingerprints after
       = Database.total_fingerprints before - Database.fingerprint_count removed
    /\ Database.redis_keys after = Database.redis_keys before.
Proof.
  apply (stats_follow_removal Examples.both_ingested Database.healthy 1).
  - destruct (DatabaseFacts.consistent_new true) as [Hc Hb].
    exact (proj1 (DatabaseFacts.consistent_run Examples.two_ingests _ Hc Hb)).
  - vm_compute. reflexivity.
Defined.

(** X15 ([FingerprintDatabase.__init__], [add_song], [find_matches]).  When
    Redis was unreachable at start-up the engine runs on SQLite alone: an
    ingest that SQLite accepts still returns a song id, and no query is ever
    matched, whatever was ingested. *)
Theorem without_redis_nothing_is_identified :
  forall (ops : list Database.Op),
    Database.redis_client (Database.run ops (Database.new_database false)) = None
    /\ (forall title artist path fingerprints album duration file_size,
           snd (Database.add_song (Database.run ops (Database.new_database false))
                                  Database.healthy title artist path fingerprints
                                  album duration file_size)
           = Returned (Database.next_rowid
                         (Database.run ops (Database.new_database false))))
    /\ (forall query_hashes min_matches,
           Matching.find_matches (Database.run ops (Database.new_database false))
                                 query_hashes min_matches = [])
    /\ (forall query_hashes,
           Matching.identify_best_match (Database.run ops (Database.new_database false))
                                        query_hashes = None).
Proof.
  intros ops.
  assert (Hnone : Database.redis_client
                    (Database.run ops (Database.new_database false)) = None)
    by (apply IndexFacts.redis_none_run; reflexivity).
  assert (Hfind : forall query_hashes min_matches,
             Matching.find_matches (Database.run ops (Database.new_database false))
                                   query_hashes min_matches = []).
  { intros query_hashes min_matches. unfold Matching.find_matches.
    destruct query_hashes as [|q qs]; [reflexivity|].
    unfold Database.search_fingerprints. rewrite Hnone. reflexivity. }
  split; [exact Hnone|]. split; [|split].
  - intros title artist path fingerprints album duration file_size.
    destruct (DatabaseFacts.add_song_spec
                (Database.run ops (Database.new_database false)) Database.healthy
                title artist path fingerprints album duration file_size)
      as [[Hdown _]|(_ & _ & _ & _ & Hres)]; [discriminate|].
    cbv zeta in Hres.
    destruct Hres as [(Hret & _)|(_ & Hdown & _)]; [exact Hret|discriminate].
  - exact Hfind.
  - intros query_hashes. unfold Matching.identify_best_match. now rewrite Hfind.
Qed.

(** ** Alignment and ranking *)

(** X16 ([_find_best_alignment]).  Quantizing an offset moves it to the
    nearest multiple of [TIME_ALIGNMENT_TOLERANCE]: for an offset below
    [2^48] in absolute value, where the double quotient of the code rounds
    as the exact one, the result is a multiple of the tolerance and lies
    within two frames of the offset. *)
Theorem offsets_quantized_to_nearest_multiple :
  forall offset : Z,
    Z.abs offset < 2 ^ 48 ->
    (Matching.quantize offset) mod Config.TIME_ALIGNMENT_TOLERANCE = 0
    /\ Z.abs (Matching.quantize offset - offset) <= 2.
Proof.
  intros offset _. rewrite AlignmentFacts.quantize_spec.
  unfold Config.TIME_ALIGNMENT_TOLERANCE.
  split; Z.div_mod_to_equations; lia.
Qed.

Lemma offsets_quantized_to_nearest_multiple_witness :
  (Matching.quantize 13) mod Config.TIME_ALIGNMENT_TOLERANCE = 0
  /\ Z.abs (Matching.quantize 13 - 13) <= 2.
Proof.
  apply (offsets_quantized_to_nearest_multiple 13). reflexivity.
Defined.

(** X17 ([_find_best_alignment]).  A bucket whose offsets all quantize to
    one bin passes the gate whatever its size, with every occurrence
    counted as aligned. *)
Theorem offsets_in_one_bin_are_aligned :
  forall (time_offsets : list Z) (bin : Z),
    time_offsets <> [] ->
    Forall (fun offset => Matching.quantize offset = bin) time_offsets ->
    Matching._find_best_alignment time_offsets
    = Some (bin, Z.of_nat (length time_offsets)).
Proof. exact AlignmentFacts.find_best_alignment_one_bin. Qed.

Lemma offsets_in_one_bin_are_aligned_witness :
  Matching._find_best_alignment Scenarios.jittered_offsets = Some (10, 5).
Proof.
  apply (offsets_in_one_bin_are_aligned Scenarios.jittered_offsets 10).
  - discriminate.
  - repeat constructor.
Defined.

(** X18 ([_calculate_confidence], [find_matches]).  With the constants of
    [config.py] the confidence of a candidate is never below
    [CONFIDENCE_THRESHOLD]: the uniqueness bonus alone contributes that
    much.  So for a query that is not empty the threshold test of
    [find_matches] rejects nothing that [_analyze_song_match] returns. *)
Theorem confidence_threshold_never_rejects :
  forall (db : Database.FingerprintDatabase) (song_id : Z)
         (occurrences : list Database.Occurrence) (total_query_hashes : Z)
         (r : Matching.MatchResult),
    0 < total_query_hashes ->
    Matching._analyze_song_match db song_id occurrences total_query_hashes = Some r ->
    (Q2R Config.CONFIDENCE_THRESHOLD <= Matching.confidence r)%R
    /\ Matching.analyze_candidates db [(song_id, occurrences)] total_query_hashes
                                   Config.MIN_MATCHING_HASHES
       = [r].
Proof.
  intros db song_id occurrences total r Htotal Hr.
  destruct (RankingFacts.analyze_song_match_fields _ _ _ _ _ Hr)
    as (Hlen & row & _ & _ & _ & _ & _ & _ & Haligned & Hconf & _).
  assert (Hfloor : (Q2R Config.CONFIDENCE_THRESHOLD <= Matching.confidence r)%R).
  { rewrite RankingFacts.threshold_value, Hconf.
    apply RankingFacts.confidence_floor; unfold Config.MIN_MATCHING_HASHES in Hlen; lia. }
  split; [exact Hfloor|].
  unfold Matching.analyze_candidates. cbn [flat_map].
  replace (Z.of_nat (length occurrences) <? Config.MIN_MATCHING_HASHES) with false
    by (symmetry; apply Z.ltb_ge; exact Hlen).
  rewrite Hr. unfold Matching.Rle_bool.
  destruct (Rle_dec _ _); [reflexivity|contradiction].
Qed.

Lemma confidence_threshold_never_rejects_witness :
  (Q2R Config.CONFIDENCE_THRESHOLD <= Matching.confidence Scenarios.track_match)%R
  /\ Matching.analyze_candidates Scenarios.one_track [(1, Scenarios.track_bucket)] 3
                                 Config.MIN_MATCHING_HASHES
     = [Scenarios.track_match].
Proof.
  apply (confidence_threshold_never_rejects
           Scenarios.one_track 1 Scenarios.track_bucket 3 Scenarios.track_match).
  - lia.
  - reflexivity.
Defined.

(** X19 ([_calculate_confidence]).  More aligned hashes never lower the
    score: for a fixed number of matches and of query hashes the confidence
    is monotone in the aligned count. *)
Theorem confidence_grows_with_alignment :
  forall a a' m q : Z,
    0 <= a -> a <= a' -> 0 < m ->
    (Matching._calculate_confidence a m q <= Matching._calculate_confidence a' m q)%R.
Proof.
  intros a a' m q.
  intros Ha Haa Hm. unfold Matching._calculate_confidence.
  destruct ((m =? 0) || (q =? 0)); [lra|]. cbv zeta.
  assert (0 < IZR m)%R by (apply IZR_lt, Hm).
  assert (Hal : (IZR a / IZR m <= IZR a' / IZR m)%R).
  { unfold Rdiv. apply Rmult_le_compat_r; [left; apply Rinv_0_lt_compat; lra|].
    apply IZR_le, Haa. }
  assert (Hraw : (Rmin 1 (ln (IZR (a + 1)) / ln 20)
                  <= Rmin 1 (ln (IZR (a' + 1)) / ln 20))%R).
  { apply Rle_min_compat_l. unfold Rdiv.
    apply Rmult_le_compat_r; [left; apply Rinv_0_lt_compat, MatchingFacts.ln_20_pos|].
    apply RankingFacts.ln_monotone; [apply IZR_lt; lia|apply IZR_le; lia]. }
  apply Rle_min_compat_l. lra.
Qed.

Lemma confidence_grows_with_alignment_witness :
  (Matching._calculate_confidence 3 5 5 <= Matching._calculate_confidence 4 5 5)%R.
Proof. apply (confidence_grows_with_alignment 3 4 5 5); lia. Defined.

(** X20 ([find_matches], [_analyze_song_match]).  The matches come in
    descending confidence, each song at most once.  Every match names a live
    row and carries its title, artist and album; its confidence lies between
    the threshold and one; its bucket holds at least [min_matches] and at
    least [MIN_MATCHING_HASHES] occurrences, of which between one and all are
    aligned. *)
Theorem find_matches_ranked_and_sound :
  forall (db : Database.FingerprintDatabase)
         (query_hashes : list Fingerprinting.AudioHash) (min_matches : Z),
    StronglySorted (fun x y => (Matching.confidence y <= Matching.confidence x)%R)
                   (Matching.find_matches db query_hashes min_matches)
    /\ List.NoDup (map Matching.match_song_id
                       (Matching.find_matches db query_hashes min_matches))
    /\ Forall
         (fun r =>
            Matching.total_query_hashes r = Z.of_nat (length query_hashes)
            /\ (Q2R Config.CONFIDENCE_THRESHOLD <= Matching.confidence r <= 1)%R
            /\ Z.max min_matches Config.MIN_MATCHING_HASHES
               <= Z.of_nat (length (Database.occurrences_of
                                      (Database.search_fingerprints db query_hashes)
                                      (Matching.match_song_id r)))
            /\ 1 <= Matching.matching_hashes r
                 <= Z.of_nat (length (Database.occurrences_of
                                        (Database.search_fingerprints db query_hashes)
                                        (Matching.match_song_id r)))
            /\ exists row,
                 Database.get_song_metadata db (Matching.match_song_id r) = Some row
                 /\ Matching.match_title r = Database.title row
                 /\ Matching.match_artist r = Database.artist row
                 /\ Matching.match_album r = Database.album row)
         (Matching.find_matches db query_hashes min_matches).
Proof.
  intros db query_hashes min_matches.
  destruct (IndexFacts.search_fingerprints_spec db query_hashes) as [[Hkeys _] _].
  split; [apply RankingFacts.find_matches_sorted|]. split.
  - eapply Permutation_NoDup.
    + apply Permutation_map, Permutation_sym, RankingFacts.find_matches_perm.
    + apply RankingFacts.analyze_candidates_ids, Hkeys.
  - apply List.Forall_forall. intros r Hr.
    apply RankingFacts.find_matches_In, RankingFacts.analyze_candidates_In in Hr.
    destruct Hr as (sid & occurrences & Hin & Hmin & Hmatch & Hthreshold).
    destruct (RankingFacts.analyze_song_match_fields _ _ _ _ _ Hmatch)
      as (Hlen & row & Hrow & Hid & Ht & Ha & Hal & Htotal & Haligned & Hconf & _).
    rewrite Hid, (IndexFacts.occurrences_of_entry _ _ _ Hkeys Hin).
    split; [exact Htotal|].
    split; [split; [exact Hthreshold|rewrite Hconf; apply SelfMatchFacts.confidence_le_1]|].
    split; [lia|]. split; [exact Haligned|].
    exists row. auto.
Qed.

(** X21 ([identify_best_match]).  The best match is a match of greatest
    confidence, and there is none exactly when [find_matches] finds
    nothing. *)
Theorem best_match_has_greatest_confidence :
  forall (db : Database.FingerprintDatabase)
         (query_hashes : list Fingerprinting.AudioHash),
    match Matching.identify_best_match db query_hashes with
    | Some best =>
        In best (Matching.find_matches db query_hashes Config.MIN_MATCHING_HASHES)
        /\ Forall (fun r => (Matching.confidence r <= Matching.confidence best)%R)
                  (Matching.find_matches db query_hashes Config.MIN_MATCHING_HASHES)
    | None =>
        Matching.find_matches db query_hashes Config.MIN_MATCHING_HASHES = []
    end.
Proof.
  intros db query_hashes. unfold Matching.identify_best_match.
  pose proof (RankingFacts.find_matches_sorted db query_hashes
                                               Config.MIN_MATCHING_HASHES) as Hsorted.
  destruct (Matching.find_matches db query_hashes Config.MIN_MATCHING_HASHES)
    as [|best rest]; [reflexivity|].
  split; [now left|].
  apply StronglySorted_inv in Hsorted. destruct Hsorted as [_ Hrest].
  constructor; [lra|exact Hrest].
Qed.

(** X22 ([find_matches], [_analyze_song_match]).  The argument
    [min_matches] can only raise the floor on the size of a bucket: any
    value up to [MIN_MATCHING_HASHES] behaves as [MIN_MATCHING_HASHES],
    since the analysis of a song applies that floor again. *)
Theorem min_matches_floor :
  forall (db : Database.FingerprintDatabase)
         (query_hashes : list Fingerprinting.AudioHash) (min_matches : Z),
    Matching.find_matches db query_hashes min_matches
    = Matching.find_matches db query_hashes
                            (Z.max min_matches Config.MIN_MATCHING_HASHES).
Proof.
  intros db query_hashes min_matches. unfold Matching.find_matches.
  destruct query_hashes as [|q qs]; [reflexivity|].
  destruct (Database.search_fingerprints db (q :: qs)) as [|e raw]; [reflexivity|].
  cbv zeta. f_equal. unfold Matching.analyze_candidates.
  apply flat_map_ext. intros [sid occurrences].
  destruct (Z.ltb_spec (Z.of_nat (length occurrences)) min_matches) as [Hlow|Hhigh];
    destruct (Z.ltb_spec (Z.of_nat (length occurrences))
                         (Z.max min_matches Config.MIN_MATCHING_HASHES)) as [Hlow'|Hhigh'];
    try reflexivity; try lia.
  unfold Matching._analyze_song_match.
  replace (Z.of_nat (length occurrences) <? Config.MIN_MATCHING_HASHES) with true
    by (symmetry; apply Z.ltb_lt; lia).
  reflexivity.
Qed.

(** X23 ([add_song], [search_fingerprints], [find_matches],
    [identify_best_match]).  A recording identifies itself: after an ingest
    that both stores accept, of at least [MIN_MATCHING_HASHES] fingerprints
    with pairwise distinct hash values, a query with the same fingerprints
    matches the new song with every hash aligned at offset zero and a
    confidence of at least 0.7, and the best match is at least as
    confident. *)
Theorem ingested_recording_identifies_itself :
  forall (ops : list Database.Op) (io : Database.Backends)
         (title artist path : string) (fingerprints : list Fingerprinting.AudioHash)
         (album : option string) (duration : option Q) (file_size : option Z),
    let db := Database.run ops (Database.new_database true) in
    let db' := fst (Database.add_song db io title artist path fingerprints
                                      album duration file_size) in
    Database.sqlite_ok io = true ->
    Database.redis_ok io = true ->
    List.NoDup (map Fingerprinting.hash_value fingerprints) ->
    Config.MIN_MATCHING_HASHES <= Z.of_nat (length fingerprints) ->
    exists r best,
      In r (Matching.find_matches db' fingerprints Config.MIN_MATCHING_HASHES)
      /\ Matching.match_song_id r = Database.next_rowid db
      /\ Matching.match_title r = title
      /\ Matching.match_artist r = artist
      /\ Matching.matching_hashes r = Z.of_nat (length fingerprints)
      /\ Matching.match_time_offset r = 0
      /\ (7 / 10 <= Matching.confidence r)%R
      /\ Matching.identify_best_match db' fingerprints = Some best
      /\ (Matching.confidence r <= Matching.confidence best)%R.
Proof.
  intros ops io title artist path fingerprints album duration file_size db db'
         Hsql Hredis Hnd Hlen.
  destruct (DatabaseFacts.consistent_new true) as [Hc0 Hb0].
  destruct (DatabaseFacts.consistent_run ops _ Hc0 Hb0) as [_ Hbounded].
  fold db in Hbounded.
  destruct (Database.redis_client db) as [store|] eqn:Hstore;
    [|exfalso; revert Hstore;
      apply (SelfMatchFacts.redis_some_run ops (Database.new_database true));
      discriminate].
  assert (Hne : fingerprints <> []).
  { intros ->. cbn in Hlen. unfold Config.MIN_MATCHING_HASHES in Hlen. lia. }
  assert (Hstore' : Database.redis_client db'
                    = Some (Database.queued_pushes (Database.next_rowid db)
                                                   fingerprints store)).
  { destruct (DatabaseFacts.add_song_spec db io title artist path fingerprints
                                          album duration file_size)
      as [[Hdown _]|(_ & _ & _ & _ & Hres)]; [congruence|].
    cbv zeta in Hres.
    destruct Hres as [(_ & Hclient & _)|(_ & Hdown & _)]; [|congruence].
    rewrite <- (SelfMatchFacts.with_postings_nonempty db store _ _ Hstore Hne).
    exact Hclient. }
  assert (Hrow : Database.get_song_metadata db' (Database.next_rowid db)
                 = Some (Database.new_row db title artist path fingerprints
                                          album duration file_size)).
  { exact (proj2 (DatabaseFacts.add_song_row_visible
                    db io title artist path fingerprints album duration file_size
                    Hsql)). }
  pose proof (SelfMatchFacts.own_bucket db db' store fingerprints
                                        Hbounded Hstore Hstore' Hnd) as Hbucket.
  set (sid := Database.next_rowid db) in *.
  set (bucket := map (fun q => Database.mkOccurrence (Database.posting_of sid q)
                                                     (Fingerprinting.time_offset q))
                     fingerprints) in *.
  assert (Hbucket_len : length bucket = length fingerprints)
    by (unfold bucket; apply length_map).
  assert (Hbucket_ne : bucket <> []).
  { unfold bucket. intros E. apply map_eq_nil in E. contradiction. }
  assert (Hentry : In (sid, bucket) (Database.search_fingerprints db' fingerprints)).
  { rewrite <- Hbucket. apply IndexFacts.occurrences_of_In.
    rewrite Hbucket. exact Hbucket_ne. }
  set (n := Z.of_nat (length fingerprints)) in *.
  set (r := Matching.mkMatch sid title artist album
                             (Matching._calculate_confidence n n n) n n 0
                             (inject_Z n / inject_Z n)%Q).
  assert (Hmatch : Matching._analyze_song_match db' sid bucket n = Some r).
  { unfold Matching._analyze_song_match. rewrite Hbucket_len. fold n.
    replace (n <? Config.MIN_MATCHING_HASHES) with false
      by (symmetry; apply Z.ltb_ge; exact Hlen).
    cbv zeta.
    rewrite (AlignmentFacts.find_best_alignment_one_bin _ 0).
    - rewrite length_map, Hbucket_len. fold n. rewrite Hrow. reflexivity.
    - intros E. apply map_eq_nil in E. contradiction.
    - apply List.Forall_forall. intros o Ho.
      apply in_map_iff in Ho. destruct Ho as (occ & <- & Hocc).
      unfold bucket in Hocc. apply in_map_iff in Hocc.
      destruct Hocc as (q & <- & _). cbn.
      rewrite Z.sub_diag. reflexivity. }
  assert (Hn : 0 < n) by (unfold Config.MIN_MATCHING_HASHES in Hlen; lia).
  assert (Hin : In r (Matching.find_matches db' fingerprints Config.MIN_MATCHING_HASHES)).
  { apply RankingFacts.find_matches_In, RankingFacts.analyze_candidates_In.
    exists sid, bucket. split; [exact Hentry|]. split; [rewrite Hbucket_len; exact Hlen|].
    split; [exact Hmatch|].
    rewrite RankingFacts.threshold_value. cbn [Matching.confidence r].
    apply RankingFacts.confidence_floor; lia. }
  pose proof (RankingFacts.find_matches_sorted db' fingerprints
                                               Config.MIN_MATCHING_HASHES) as Hsorted.
  unfold Matching.identify_best_match.
  destruct (Matching.find_matches db' fingerprints Config.MIN_MATCHING_HASHES)
    as [|best rest]; [destruct Hin|].
  exists r, best. repeat split; try reflexivity.
  - exact Hin.
  - apply SelfMatchFacts.confidence_full_alignment, Hn.
  - apply StronglySorted_inv in Hsorted. destruct Hsorted as [_ Hrest].
    destruct Hin as [<-|Hin]; [lra|].
    rewrite List.Forall_forall in Hrest. exact (Hrest r Hin).
Qed.


Lemma ingested_recording_identifies_itself_witness :
  exists r best,
    In r (Matching.find_matches Scenarios.one_track Scenarios.three_hashes
                                Config.MIN_MATCHING_HASHES)
    /\ Matching.match_song_id r = 1
    /\ Matching.match_title r = "Track"%string
    /\ Matching.match_artist r = "Artist"%string
    /\ Matching.matching_hashes r = 3
    /\ Matching.match_time_offset r = 0
    /\ (7 / 10 <= Matching.confidence r)%R
    /\ Matching.identify_best_match Scenarios.one_track Scenarios.three_hashes
       = Some best
    /\ (Matching.confidence r <= Matching.confidence best)%R.
Proof.
  apply (ingested_recording_identifies_itself
           [] Database.healthy "Track" "Artist" "/music/track.wav"
           Scenarios.three_hashes None None None).
  - reflexivity.
  - reflexivity.
  - unfold Scenarios.three_hashes. cbn [map Fingerprinting.hash_value].
    repeat (constructor; [cbn; intuition discriminate|]). constructor.
  - cbn. unfold Config.MIN_MATCHING_HASHES. lia.
Defined.

(** ** Preprocessing *)

(** X24 ([preprocess_audio]).  For a processor with a sample rate that is
    not negative the result is never longer than [MAX_QUERY_DURATION]
    seconds, whatever the input and whatever the resamplers return. *)
Theorem query_duration_is_limited :
  forall (have_scipy : bool)
         (resample_poly : list Q -> Z -> Z -> outcome (list Q))
         (resample : list Q -> Z -> outcome (list Q))
         (self : AudioProcessing.AudioProcessor)
         (audio : AudioProcessing.ndarray) (sr : Z),
    0 <= AudioProcessing.sample_rate self ->
    exists out,
      AudioProcessing.preprocess_audio have_scipy resample_poly resample self audio sr
      = Returned out
      /\ Z.of_nat (length out)
         <= Config.MAX_QUERY_DURATION * AudioProcessing.sample_rate self.
Proof.
  intros have_scipy resample_poly resample self audio sr Hrate.
  unfold AudioProcessing.preprocess_audio. cbv zeta.
  match goal with
  | |- context [if Z.of_nat (length ?a) >? ?m then _ else _] =>
      set (resampled := a); set (max_samples := m)
  end.
  assert (Hmax : 0 <= max_samples)
    by (unfold max_samples, Config.MAX_QUERY_DURATION; lia).
  clearbody resampled max_samples.
  rewrite Z.gtb_ltb.
  destruct (Z.ltb_spec max_samples (Z.of_nat (length resampled))) as [Hlong|Hshort].
  - eexists. split; [reflexivity|].
    unfold AudioProcessing.slice_to.
    replace (0 <=? max_samples) with true by (symmetry; apply Z.leb_le; exact Hmax).
    rewrite length_firstn. lia.
  - eexists. split; [reflexivity|]. exact Hshort.
Qed.

Lemma query_duration_is_limited_witness :
  exists out,
    AudioProcessing.preprocess_audio
      true Examples.no_resample_poly Examples.no_resample
      (AudioProcessing.mkProcessor 2 true)
      (AudioProcessing.Samples (repeat (1 # 2)%Q 100)) 2
    = Returned out
    /\ Z.of_nat (length out)
       <= Config.MAX_QUERY_DURATION
          * AudioProcessing.sample_rate (AudioProcessing.mkProcessor 2 true).
Proof.
  apply (query_duration_is_limited
           true Examples.no_resample_poly Examples.no_resample
           (AudioProcessing.mkProcessor 2 true)
           (AudioProcessing.Samples (repeat (1 # 2)%Q 100)) 2).
  cbn. lia.
Defined.

(** X25 ([preprocess_audio]).  A one-dimensional signal that needs no
    resampling, because it is at the rate of the processor or because scipy
    is missing, comes back as its own first [MAX_QUERY_DURATION] seconds:
    no sample is altered, and a signal within the limit is returned as it
    is. *)
Theorem unresampled_audio_keeps_its_head :
  forall (have_scipy : bool)
         (resample_poly : list Q -> Z -> Z -> outcome (list Q))
         (resample : list Q -> Z -> outcome (list Q))
         (self : AudioProcessing.AudioProcessor) (x : list Q) (sr : Z),
    sr = AudioProcessing.sample_rate self \/ have_scipy = false ->
    0 <= AudioProcessing.sample_rate self ->
    AudioProcessing.preprocess_audio have_scipy resample_poly resample self
                                     (AudioProcessing.Samples x) sr
    = Returned (firstn (Z.to_nat (Config.MAX_QUERY_DURATION
                                  * AudioProcessing.sample_rate self)) x)
    /\ (Z.of_nat (length x)
        <= Config.MAX_QUERY_DURATION * AudioProcessing.sample_rate self ->
        AudioProcessing.preprocess_audio have_scipy resample_poly resample self
                                         (AudioProcessing.Samples x) sr
        = Returned x).
Proof.
  intros have_scipy resample_poly resample self x sr Hsame Hrate.
  assert (Hskip : negb (sr =? AudioProcessing.sample_rate self) && have_scipy = false).
  { destruct Hsame as [->| ->]; [rewrite Z.eqb_refl; reflexivity|apply andb_false_r]. }
  unfold AudioProcessing.preprocess_audio. cbv zeta. rewrite Hskip.
  set (max_samples := Config.MAX_QUERY_DURATION * AudioProcessing.sample_rate self).
  assert (Hmax : 0 <= max_samples)
    by (unfold max_samples, Config.MAX_QUERY_DURATION; lia).
  rewrite Z.gtb_ltb.
  destruct (Z.ltb_spec max_samples (Z.of_nat (length x))) as [Hlong|Hshort].
  - unfold AudioProcessing.slice_to.
    replace (0 <=? max_samples) with true by (symmetry; apply Z.leb_le; exact Hmax).
    split; [reflexivity|lia].
  - rewrite firstn_all2 by lia. split; reflexivity.
Qed.

Lemma unresampled_audio_keeps_its_head_witness :
  AudioProcessing.preprocess_audio
    false Examples.no_resample_poly Examples.no_resample
    (AudioProcessing.mkProcessor 2 true)
    (AudioProcessing.Samples (repeat (1 # 2)%Q 100)) 44100
  = Returned (firstn (Z.to_nat (Config.MAX_QUERY_DURATION
                                * AudioProcessing.sample_rate
                                    (AudioProcessing.mkProcessor 2 true)))
                     (repeat (1 # 2)%Q 100)).
Proof.
  apply (proj1 (unresampled_audio_keeps_its_head
                  false Examples.no_resample_poly Examples.no_resample
                  (AudioProcessing.mkProcessor 2 true) (repeat (1 # 2)%Q 100) 44100
                  (or_intror eq_refl) ltac:(cbn; lia))).
Defined.

(** ** Building the database from a folder *)

(** X26 ([build_database_from_folder]).  Every file that the glob found is
    counted once: as processed, as failed or as skipped. *)
Theorem build_counts_every_file :
  forall (env : ShazamSystem.Environment) (stem strip : string -> string)
         (self : ShazamSystem.System)
         (audio_files : list (string * Database.Backends)),
    ShazamSystem.processed
      (snd (ShazamSystem.build_database_from_folder env stem strip self audio_files))
    + ShazamSystem.failed
        (snd (ShazamSystem.build_database_from_folder env stem strip self audio_files))
    + ShazamSystem.skipped
        (snd (ShazamSystem.build_database_from_folder env stem strip self audio_files))
    = Z.of_nat (length audio_files)
    /\ 0 <= ShazamSystem.processed
              (snd (ShazamSystem.build_database_from_folder
                      env stem strip self audio_files))
    /\ 0 <= ShazamSystem.failed
              (snd (ShazamSystem.build_database_from_folder
                      env stem strip self audio_files))
    /\ 0 <= ShazamSystem.skipped
              (snd (ShazamSystem.build_database_from_folder
                      env stem strip self audio_files)).
Proof.
  intros env stem strip self audio_files.
  unfold ShazamSystem.build_database_from_folder.
  destruct audio_files as [|file files]; [cbn; lia|].
  pose proof (FolderFacts.build_fold_counts
                env stem strip (file :: files)
                (self, ShazamSystem.mkBuildStats 0 0 0)) as Hcounts.
  cbv zeta in Hcounts. cbn [snd ShazamSystem.processed ShazamSystem.failed
                                ShazamSystem.skipped] in Hcounts.
  lia.
Qed.

(** X27 ([build_database_from_folder], [get_song_by_path]).  Files whose
    path is already stored are skipped without being read: when that holds
    for every file and SQLite answers, the stores are left as they were and
    all files are reported as skipped. *)
Theorem build_skips_stored_paths :
  forall (env : ShazamSystem.Environment) (stem strip : string -> string)
         (self : ShazamSystem.System)
         (audio_files : list (string * Database.Backends)),
    Forall (fun file =>
              Database.sqlite_ok (snd file) = true
              /\ Database.get_song_by_path (ShazamSystem.database self) (fst file)
                 <> None)
           audio_files ->
    ShazamSystem.build_database_from_folder env stem strip self audio_files
    = (self, ShazamSystem.mkBuildStats 0 0 (Z.of_nat (length audio_files))).
Proof.
  intros env stem strip self audio_files Hall.
  unfold ShazamSystem.build_database_from_folder.
  destruct audio_files as [|file files]; [reflexivity|].
  rewrite (FolderFacts.build_fold_skips env stem strip self (file :: files) _ Hall).
  reflexivity.
Qed.

Lemma build_skips_stored_paths_witness :
  ShazamSystem.build_database_from_folder
    Examples.studio (fun path => path) (fun s => s)
    (ShazamSystem.mkSystem (Fingerprinting.new_fingerprinter 22050 2048 512)
                           Examples.one_song)
    [(Examples.a440_path, Database.healthy); (Examples.a440_path, Database.healthy)]
  = (ShazamSystem.mkSystem (Fingerprinting.new_fingerprinter 22050 2048 512)
                           Examples.one_song,
     ShazamSystem.mkBuildStats 0 0 2).
Proof.
  apply (build_skips_stored_paths
           Examples.studio (fun path => path) (fun s => s)
           (ShazamSystem.mkSystem (Fingerprinting.new_fingerprinter 22050 2048 512)
                                  Examples.one_song)
           [(Examples.a440_path, Database.healthy);
            (Examples.a440_path, Database.healthy)]).
  repeat constructor; vm_compute; discriminate.
Defined.

(** X28 ([build_database_from_folder]).  The file name is split at its
    leftmost [" - "]: the artist is what stands before it and the title what
    stands after it, both stripped, and the three parts make up the stem
    again.  A stem without the separator is the title of an unknown
    artist. *)
Theorem file_name_split_at_first_separator :
  forall (stem strip : string -> string) (audio_file : string),
    match ShazamSystem.split_once " - " (stem audio_file) with
    | Some (first, second) =>
        ShazamSystem.metadata_from_filename stem strip audio_file
        = (strip second, strip first)
        /\ stem audio_file = first +:+ " - " +:+ second
        /\ forall before rest,
             stem audio_file = before +:+ " - " +:+ rest ->
             (String.length first <= String.length before)%nat
    | None =>
        ShazamSystem.metadata_from_filename stem strip audio_file
        = (stem audio_file, "Unknown Artist"%string)
        /\ forall before rest, stem audio_file <> before +:+ " - " +:+ rest
    end.
Proof.
  intros stem strip audio_file. unfold ShazamSystem.metadata_from_filename. cbv zeta.
  destruct (ShazamSystem.split_once " - " (stem audio_file)) as [[first second]|]
    eqn:Hsplit.
  - split; [reflexivity|]. split.
    + apply FileNameFacts.split_once_sound, Hsplit.
    + intros before rest Hstem.
      exact (FileNameFacts.split_once_leftmost _ _ _ _ _ _ Hsplit Hstem).
  - split; [reflexivity|].
    intros before rest Hstem.
    apply (FileNameFacts.split_once_complete
             " - " (stem audio_file) before rest ltac:(discriminate) Hstem).
    exact Hsplit.
Qed.

(** ** The sequence of song ids *)

(** X29 ([add_song]).  A song id is handed out once: whatever calls follow
    an ingest, the id that a later ingest returns is greater than the id the
    earlier one returned. *)
Theorem song_ids_strictly_increase :
  forall (db : Database.FingerprintDatabase) (io io' : Database.Backends)
         (title artist path : string) (fingerprints : list Fingerprinting.AudioHash)
         (album : option string) (duration : option Q) (file_size : option Z)
         (later : list Database.Op)
         (title' artist' path' : string) (fingerprints' : list Fingerprinting.AudioHash)
         (album' : option string) (duration' : option Q) (file_size' : option Z)
         (first_id second_id : Z),
    snd (Database.add_song db io title artist path fingerprints
                           album duration file_size)
    = Returned first_id ->
    snd (Database.add_song
           (Database.run later
                         (fst (Database.add_song db io title artist path fingerprints
                                                 album duration file_size)))
           io' title' artist' path' fingerprints' album' duration' file_size')
    = Returned second_id ->
    first_id < second_id.
Proof.
  intros db io io' title artist path fingerprints album duration file_size later
         title' artist' path' fingerprints' album' duration' file_size'
         first_id second_id Hfirst Hsecond.
  destruct (SequenceFacts.add_song_returned _ _ _ _ _ _ _ _ _ _ Hfirst) as [_ Hseq].
  destruct (SequenceFacts.add_song_returned _ _ _ _ _ _ _ _ _ _ Hsecond) as [-> _].
  pose proof (SequenceFacts.sequence_run
                later (fst (Database.add_song db io title artist path fingerprints
                                              album duration file_size))) as Hmono.
  match goal with
  | |- _ < Database.next_rowid ?d =>
      destruct (DatabaseFacts.next_rowid_fresh d) as [Hfresh _]
  end.
  lia.
Qed.

Lemma song_ids_strictly_increase_witness :
  snd (Database.add_song (Database.new_database true) Database.healthy
                         "A440" "Test" Examples.a440_path [Examples.sample_hash]
                         None None None)
  = Returned 1
  /\ snd (Database.add_song Examples.one_song Database.healthy
                            "A440" "Test" Examples.a440_path [Examples.sample_hash]
                            None None None)
     = Returned 2
  /\ 1 < 2.
Proof.
  split; [reflexivity|]. split; [reflexivity|].
  apply (song_ids_strictly_increase
           (Database.new_database true) Database.healthy Database.healthy
           "A440" "Test" Examples.a440_path [Examples.sample_hash] None None None
           []
           "A440" "Test" Examples.a440_path [Examples.sample_hash] None None None
           1 2).
  - reflexivity.
  - reflexivity.
Defined.

(** ** From the constellation to the hashes *)

(** X30 ([generate_hashes], [extract_peaks]).  The peaks that
    [extract_peaks] returns are already in time order, so the stable sort at
    the head of [generate_hashes] leaves them as they are: anchors are taken
    in the order of the constellation, and within a frame the stronger peak
    comes first. *)
Theorem generate_hashes_keeps_constellation_order :
  forall (self : Fingerprinting.AudioFingerprinter)
         (spectrogram : Fingerprinting.Spectrogram),
    py_sorted (fun p q => Fingerprinting.time_frame p <? Fingerprinting.time_frame q)
              (Fingerprinting.extract_peaks self spectrogram)
    = Fingerprinting.extract_peaks self spectrogram
    /\ Fingerprinting.generate_hashes (Fingerprinting.extract_peaks self spectrogram)
       = Fingerprinting.hashes_from (Fingerprinting.extract_peaks self spectrogram).
Proof.
  intros self spectrogram.
  assert (Hsame : py_sorted (fun p q => Fingerprinting.time_frame p
                                        <? Fingerprinting.time_frame q)
                            (Fingerprinting.extract_peaks self spectrogram)
                  = Fingerprinting.extract_peaks self spectrogram).
  { apply py_sorted_ascending.
    eapply FingerprintingFacts.strongly_sorted_impl;
      [|apply FingerprintingFacts.extract_peaks_sorted].
    intros p q Horder. unfold in_order. apply Z.ltb_ge.
    destruct Horder as [Hlt|[Heq _]]; lia. }
  split; [exact Hsame|].
  unfold Fingerprinting.generate_hashes. cbv zeta. now rewrite Hsame.
Qed.
